(** * PharUtils.js: a shallow embedding of the Phar archive codec

    The development follows [lib/pharutils.js] (the 2018 revision, the first
    script of the file): the integer and string primitives of the host
    language it relies on, the [Binary] helpers, the [BinaryBuffer] cursor,
    the [crc32] routine, the [PharFile] and [Phar] classes with
    [loadPharData] and [savePharData], and [PharZipConverter.toPhar].

    Strings are octet strings: lists of 8-bit characters ([list ascii]),
    that is the strings of the host whose code units are all below 256, as
    the buffers of the codec are. Every statement about a string is a
    statement about such a string. Numbers are integers in [Z], with the
    32-bit conversions of the bit operators written out. *)

From Stdlib Require Import ZArith List Ascii String Bool Lia.
Import ListNotations.
Open Scope Z_scope.

(** ** Host language: 32-bit integer operators *)

Module JS.

(** [ToInt32] and [ToUint32] of an integer-valued number. *)
Definition ToInt32 (x : Z) : Z := (x + 2 ^ 31) mod 2 ^ 32 - 2 ^ 31.
Definition ToUint32 (x : Z) : Z := x mod 2 ^ 32.

(** The shift count of [<<], [>>] and [>>>] is taken modulo 32. *)
Definition shiftCount (k : Z) : Z := ToUint32 k mod 32.

(** [a << k], [a >> k], [a >>> k]. *)
Definition shl (a k : Z) : Z := ToInt32 (Z.shiftl (ToInt32 a) (shiftCount k)).
Definition sar (a k : Z) : Z := Z.shiftr (ToInt32 a) (shiftCount k).
Definition shr (a k : Z) : Z := Z.shiftr (ToUint32 a) (shiftCount k).

(** [a | b], [a & b], [a ^ b]: both operands go through [ToInt32]. *)
Definition bor (a b : Z) : Z := Z.lor (ToInt32 a) (ToInt32 b).
Definition band (a b : Z) : Z := Z.land (ToInt32 a) (ToInt32 b).
Definition bxor (a b : Z) : Z := Z.lxor (ToInt32 a) (ToInt32 b).

(** A number that may be [NaN] ([None]); the bit operators read [NaN] as 0. *)
Definition number : Type := option Z.
Definition nanToZero (x : number) : Z :=
  match x with Some z => z | None => 0 end.

(** [a || b] on numbers and on strings: 0 and the empty string are falsy,
    and so is a missing ([undefined]) property. *)
Definition orNum (a : option Z) (b : Z) : Z :=
  match a with
  | Some z => if z =? 0 then b else z
  | None => b
  end.

Definition orStr {A : Type} (a : option (list A)) (b : list A) : list A :=
  match a with
  | Some (c :: s) => c :: s
  | _ => b
  end.

End JS.

(** ** Host language: octet strings *)

(** A string of the host whose code units are all below 256. Strings that
    hold a code unit above 255 are outside this type and outside every
    statement of the development. *)
Definition str : Type := list ascii.

(** A string literal of the source, as a list of characters. *)
Definition lit (s : string) : str := list_ascii_of_string s.

Definition code (c : ascii) : Z := Z.of_N (N_of_ascii c).

(** [String.fromCharCode(c)]; every call of the source passes [c] in 0..255. *)
Definition fromCharCode (c : Z) : ascii := ascii_of_N (Z.to_N c).

(** [s.length] as a number. *)
Definition len (s : str) : Z := Z.of_nat (List.length s).

(** [s.charCodeAt(i)] is [NaN] outside the string. *)
Definition charCodeAt (s : str) (i : Z) : JS.number :=
  if i <? 0 then None else option_map code (nth_error s (Z.to_nat i)).

Definition clamp (s : str) (i : Z) : Z := Z.max 0 (Z.min i (len s)).

(** [s.substring(a, b)]: both ends are clamped to the string and swapped
    when they come in the wrong order. *)
Definition substring (s : str) (a b : Z) : str :=
  let a' := clamp s a in
  let b' := clamp s b in
  let lo := Z.min a' b' in
  let hi := Z.max a' b' in
  firstn (Z.to_nat (hi - lo)) (skipn (Z.to_nat lo) s).

(** [s.substring(a)]. *)
Definition substringFrom (s : str) (a : Z) : str := substring s a (len s).

Fixpoint str_eqb (a b : str) : bool :=
  match a, b with
  | [], [] => true
  | x :: a', y :: b' => Ascii.eqb x y && str_eqb a' b'
  | _, _ => false
  end.

Fixpoint startsWith (pat s : str) : bool :=
  match pat, s with
  | [], _ => true
  | p :: pat', c :: s' => Ascii.eqb p c && startsWith pat' s'
  | _ :: _, [] => false
  end.

(** [s.indexOf(pat)]: the first position where [pat] occurs, or -1. *)
Fixpoint indexOf (s pat : str) : Z :=
  if startsWith pat s then 0
  else match s with
       | [] => -1
       | _ :: s' => let r := indexOf s' pat in if r <? 0 then -1 else 1 + r
       end.

(** [s.toLowerCase()] on an octet string, its octets read as the code
    units U+0000-U+00FF: A-Z and the accented capitals 0xC0-0xDE (0xD7
    apart) move up by 32, every other code unit stays, and the length is
    kept. The host's function keeps the length on these strings only: on a
    string with a code unit above 255 it may not (U+0130 lowers to the two
    code units U+0069 U+0307), and such a string is not a [str]. *)
Definition lowerChar (c : ascii) : ascii :=
  let n := code c in
  if ((65 <=? n) && (n <=? 90)) || ((192 <=? n) && (n <=? 222) && negb (n =? 215))
  then fromCharCode (n + 32) else c.

Definition toLowerCase (s : str) : str := map lowerChar s.

(** ** Errors *)

(** One constructor per [throw] of the source, with its message, and the two
    errors the host raises by itself: reading an identifier that no scope
    declares, and calling a property that is not a function. *)
Inductive error : Type :=
| MagicMismatch            (* 'Phar is corrupted! (magic corrupt)' *)
| UnknownSignatureDetected (* 'Unknown signature type detected!' *)
| SignatureInvalid         (* 'Phar has a broken signature!' *)
| PreludeTerminatorMissing (* 'Stub not found!' *)
| OutOfBounds              (* 'Buffer is accessed out of bounds!' *)
| FileCorrupt              (* 'Phar is corrupted! (file corrupt)' *)
| EmptyArchive             (* 'Phar must have at least one file!' *)
| InvalidPrelude           (* 'Stub is invalid!' *)
| UnknownSignatureGiven    (* 'Unknown signature type given!' *)
| InflateError             (* 'Zlib.RawInflate error: ...' *)
| DeflateError             (* 'Zlib.RawDeflate error: ...' *)
| UnsupportedCompression   (* 'Unsupported compression type detected!' *)
| CompressionNotSupported  (* '(type) compression type is not supported!' *)
| PermissionOutOfRange     (* 'Permission flag is incorrect!' *)
| ReferenceError (name : string) (* host: [name] is not defined *)
| TypeError (what : string).     (* host: [what] is not a function *)

Inductive result (A : Type) : Type :=
| Ok (a : A)
| Throw (e : error).
Arguments Ok {A} a.
Arguments Throw {A} e.

Definition bind {A B : Type} (r : result A) (k : A -> result B) : result B :=
  match r with
  | Ok a => k a
  | Throw e => Throw e
  end.

Notation "'let*' x ':=' r 'in' k" := (bind r (fun x => k))
  (at level 10, x pattern, r at level 200, k at level 200).

(** Code that updates an object and may throw: the state after a [throw] is
    the state the statement left behind. *)
Definition M (S A : Type) : Type := S -> result A * S.

Definition ret {S A : Type} (a : A) : M S A := fun s => (Ok a, s).
Definition throw {S A : Type} (e : error) : M S A := fun s => (Throw e, s).
Definition mbind {S A B : Type} (m : M S A) (k : A -> M S B) : M S B :=
  fun s => match m s with
           | (Ok a, s') => k a s'
           | (Throw e, s') => (Throw e, s')
           end.
Definition modify {S : Type} (f : S -> S) : M S unit := fun s => (Ok tt, f s).
Definition gets {S A : Type} (f : S -> A) : M S A := fun s => (Ok (f s), s).
Definition liftR {S A : Type} (r : result A) : M S A := fun s => (r, s).

Notation "x <- m ;; k" := (mbind m (fun x => k))
  (at level 61, m at next level, right associativity).
Notation "m ;;; k" := (mbind m (fun _ => k))
  (at level 61, right associativity).

(** ** Constants of [PharUtils] *)

Definition COMPRESSION_NONE : Z := 0x0000.
Definition COMPRESSION_GZ : Z := 0x1000.
Definition COMPRESSION_BZIP2 : Z := 0x2000.
Definition SUPPORTED_COMPRESSION : list Z := [0x0000; 0x1000].

Definition SIGNATURE_MD5 : Z := 0x01.
Definition SIGNATURE_SHA1 : Z := 0x02.
Definition SIGNATURE_SHA256 : Z := 0x04.
Definition SIGNATURE_SHA512 : Z := 0x08.

Definition END_MAGIC : str := lit "GBMB".

Definition CR : ascii := ascii_of_nat 13.
Definition LF : ascii := ascii_of_nat 10.
Definition STUB_END : str := lit "__HALT_COMPILER(); ?>" ++ [CR; LF].

(** ** [Binary]: little-endian numbers *)

Module Binary.

(** [for (i = 0; i < 4; i++) num |= buffer.charCodeAt(i) << (8 * i);
    return num >>> 0] *)
Definition readLInt (buffer : str) : Z :=
  JS.shr
    (fold_left
       (fun num i => JS.bor num (JS.shl (JS.nanToZero (charCodeAt buffer i)) (8 * i)))
       [0; 1; 2; 3] 0)
    0.

(** [buffer += String.fromCharCode((num >> (8 * i)) & 0xff)], [i] from 0 to 3 *)
Definition writeLInt (num : Z) : str :=
  map (fun i => fromCharCode (JS.band (JS.sar num (8 * i)) 0xff)) [0; 1; 2; 3].

(** As [readLInt] over two octets, with no final [>>> 0]. *)
Definition readLShort (buffer : str) : Z :=
  fold_left
    (fun num i => JS.bor num (JS.shl (JS.nanToZero (charCodeAt buffer i)) (8 * i)))
    [0; 1] 0.

Definition writeLShort (num : Z) : str :=
  map (fun i => fromCharCode (JS.band (JS.sar num (8 * i)) 0xff)) [0; 1].

End Binary.

(** ** [crc32] *)

(** [makeCRCTable]: for [n] from 0 to 255, eight rounds of
    [c = (c & 1) ? (0xEDB88320 ^ (c >>> 1)) : (c >>> 1)]. *)
Definition makeCRCTable : list Z :=
  map (fun n =>
         Nat.iter 8
           (fun c => if JS.band c 1 =? 0 then JS.shr c 1
                     else JS.bxor 0xEDB88320 (JS.shr c 1))
           (Z.of_nat n))
      (seq 0 256).

(** [window.PharUtils_crcTable]: the table, computed once and kept. *)
Definition PharUtils_crcTable : list Z := Eval vm_compute in makeCRCTable.

(** [crcTable[i]]; a missing element would read as [undefined], which [^]
    takes for 0. *)
Definition crcTableAt (i : Z) : Z := nth (Z.to_nat i) PharUtils_crcTable 0.

Definition crc32 (s : str) : Z :=
  let crc :=
    fold_left
      (fun crc c => JS.bxor (JS.shr crc 8) (crcTableAt (JS.band (JS.bxor crc (code c)) 0xFF)))
      s (JS.bxor 0 (-1)) in
  JS.shr (JS.bxor crc (-1)) 0.

(** CRC-32/IEEE as the specification words it: reflected polynomial
    0xEDB88320, initial value 0xFFFFFFFF, final XOR 0xFFFFFFFF, one bit of
    the register at a time and no table. This is the reference [crc32] is
    compared with. *)
Definition crc32_ieee_bit (c : Z) : Z :=
  if Z.odd c then Z.lxor (Z.shiftr c 1) 0xEDB88320 else Z.shiftr c 1.

Definition crc32_ieee_octet (c : Z) (octet : Z) : Z :=
  Nat.iter 8 crc32_ieee_bit (Z.lxor c octet).

Definition crc32_ieee (payload : str) : Z :=
  Z.lxor (fold_left (fun c ch => crc32_ieee_octet c (code ch)) payload 0xFFFFFFFF)
         0xFFFFFFFF.

(** ** [Uint8Array] conversions *)

Definition toUint8Array (s : str) : list Z := map code s.
Definition fromUint8Array (u8a : list Z) : str := map fromCharCode u8a.

(** ** The libraries the script loads

    [Zlib.RawInflate], [Zlib.RawDeflate] and the four [Hashes] classes come
    from other projects; the script only checks that they are present.
    [None] stands for an exception thrown by the compression engine. *)
Class Externals : Type := {
  RawInflate_decompress : list Z -> option (list Z);
  RawDeflate_compress : list Z -> option (list Z);
  MD5_raw : str -> str;
  SHA1_raw : str -> str;
  SHA256_raw : str -> str;
  SHA512_raw : str -> str
}.

(** ** The global scope

    [PharFile.setPermission] reads an identifier [perm] and
    [PharFile.setTimestamp] reads and assigns an identifier [time]; neither is
    a parameter or a variable of the script, so both resolve in the global
    scope of the page. A binding is absent ([None]) or holds a number.
    [Date_now] is what [Date.now()] returns. *)
Record Realm : Type := {
  global_time : option Z;
  global_perm : option Z;
  Date_now : Z
}.

(** A page that loads the script and its libraries and declares nothing
    else. *)
Definition pageRealm (now : Z) : Realm :=
  {| global_time := None; global_perm := None; Date_now := now |}.

(** ** [BinaryBuffer] *)

Module BinaryBuffer.

Record t : Type := { buffer : str; offset : Z }.

(** [new PharUtils.BinaryBuffer(buffer)]: [this.buffer = buffer || ''] *)
Definition new (buffer : option str) : t :=
  {| buffer := JS.orStr buffer []; offset := 0 |}.

Definition get (length : Z) : M t str := fun this =>
  let length :=
    if length <? 0 then Z.max 0 (len (buffer this) - offset this) else length in
  if length =? 0 then (Ok [], this)
  else
    (* [(this.offset += length) > this.buffer.length] *)
    let this := {| buffer := buffer this; offset := offset this + length |} in
    if offset this >? len (buffer this) then (Throw OutOfBounds, this)
    else (Ok (substring (buffer this) (offset this - length) (offset this)), this).

Definition put (data : str) : t -> t := fun this =>
  {| buffer := buffer this ++ data; offset := offset this |}.

Definition getLInt : M t Z :=
  b <- get 4 ;; ret (Binary.readLInt b).

Definition putLInt (number : Z) : t -> t := put (Binary.writeLInt number).

Definition getLShort : M t Z :=
  b <- get 2 ;; ret (Binary.readLShort b).

Definition putLShort (number : Z) : t -> t := put (Binary.writeLShort number).

Definition getString : M t str :=
  n <- getLInt ;; get n.

Definition putString (data : str) : t -> t := fun this =>
  put data (putLInt (len data) this).

(** [manifest_buffer.offset += 4] *)
Definition skip (n : Z) : M t unit :=
  modify (fun this => {| buffer := buffer this; offset := offset this + n |}).

End BinaryBuffer.

(** ** [PharFile] *)

Module PharFile.

Record t : Type := {
  name : str;
  contents : str;
  compression_type : Z;
  timestamp : Z;
  permission : Z;
  metadata : str
}.

(** The [options] argument of the constructor; [None] is a property that
    is not set. *)
Record Options : Type := {
  opt_compression_type : option Z;
  opt_is_compressed : bool;
  opt_timestamp : option Z;
  opt_metadata : option str;
  opt_permission : option Z
}.

Definition noOptions : Options :=
  {| opt_compression_type := None; opt_is_compressed := false;
     opt_timestamp := None; opt_metadata := None; opt_permission := None |}.

Definition with_name (v : str) (this : t) : t :=
  {| name := v; contents := contents this;
     compression_type := compression_type this; timestamp := timestamp this;
     permission := permission this; metadata := metadata this |}.

Definition with_contents (v : str) (this : t) : t :=
  {| name := name this; contents := v;
     compression_type := compression_type this; timestamp := timestamp this;
     permission := permission this; metadata := metadata this |}.

Definition with_compression_type (v : Z) (this : t) : t :=
  {| name := name this; contents := contents this;
     compression_type := v; timestamp := timestamp this;
     permission := permission this; metadata := metadata this |}.

Definition with_timestamp (v : Z) (this : t) : t :=
  {| name := name this; contents := contents this;
     compression_type := compression_type this; timestamp := v;
     permission := permission this; metadata := metadata this |}.

Definition with_permission (v : Z) (this : t) : t :=
  {| name := name this; contents := contents this;
     compression_type := compression_type this; timestamp := timestamp this;
     permission := v; metadata := metadata this |}.

Definition with_metadata (v : str) (this : t) : t :=
  {| name := name this; contents := contents this;
     compression_type := compression_type this; timestamp := timestamp this;
     permission := permission this; metadata := v |}.

Definition getName (this : t) : str := name this.
Definition setName (v : str) (this : t) : t := with_name v this.
Definition getContents (this : t) : str := contents this.
Definition getSize (this : t) : Z := len (getContents this).
Definition getCompressionType (this : t) : Z := compression_type this.
Definition getPermission (this : t) : Z := permission this.
Definition getTimestamp (this : t) : Z := timestamp this.
Definition getMetadata (this : t) : str := metadata this.
Definition setMetadata (v : str) (this : t) : t := with_metadata v this.

(** [this.permission | this.compression_type] *)
Definition getPharFlags (this : t) : Z :=
  JS.bor (permission this) (compression_type this).

Definition setCompressionType (type : Z) (this : t) : result t :=
  if existsb (Z.eqb type) SUPPORTED_COMPRESSION
  then Ok (with_compression_type type this)
  else Throw CompressionNotSupported.

(** [if (permission > 4095 || perm < 0) throw ...]: the right operand of
    [||] is read only when the left one is false, and it names the global
    [perm]. *)
Definition setPermission (permission : Z) (this : t) : M Realm t := fun realm =>
  if permission >? 4095 then (Throw PermissionOutOfRange, realm)
  else match global_perm realm with
       | None => (Throw (ReferenceError "perm"), realm)
       | Some perm =>
           if perm <? 0 then (Throw PermissionOutOfRange, realm)
           else (Ok (with_permission permission this), realm)
       end.

(** [if (time < 0) { time = Date.now() / 1000 | 0; } this.timestamp = timestamp]:
    the test and the assignment are on the global [time]. *)
Definition setTimestamp (timestamp : Z) (this : t) : M Realm t := fun realm =>
  match global_time realm with
  | None => (Throw (ReferenceError "time"), realm)
  | Some time =>
      let realm :=
        if time <? 0
        then {| global_time := Some (JS.bor (Z.quot (Date_now realm) 1000) 0);
                global_perm := global_perm realm;
                Date_now := Date_now realm |}
        else realm in
      (Ok (with_timestamp timestamp this), realm)
  end.

Section WithExternals.
Context {ext : Externals}.

Definition setContents (v : str) (is_compressed : bool) (this : t) : result t :=
  if is_compressed then
    if compression_type this =? COMPRESSION_NONE then Ok (with_contents v this)
    else if compression_type this =? COMPRESSION_GZ then
      match RawInflate_decompress (toUint8Array v) with
      | Some u8a => Ok (with_contents (fromUint8Array u8a) this)
      | None => Throw InflateError
      end
    else Throw UnsupportedCompression
  else Ok (with_contents v this).

Definition getCompressedContents (this : t) : result str :=
  if compression_type this =? COMPRESSION_GZ then
    match RawDeflate_compress (toUint8Array (contents this)) with
    | Some u8a => Ok (fromUint8Array u8a)
    | None => Throw DeflateError
    end
  else Ok (contents this).

Definition getComressedSize (this : t) : result Z :=
  let* c := getCompressedContents this in Ok (len c).

(** The object before the constructor has assigned anything; no property
    is read before it is assigned. *)
Definition blank : t :=
  {| name := []; contents := []; compression_type := 0; timestamp := 0;
     permission := 0; metadata := [] |}.

(** [new PharUtils.PharFile(name, contents, options)] *)
Definition new (name contents : option str) (options : Options) : M Realm t :=
  let this := with_name (JS.orStr name (lit "newfile")) blank in
  this <- liftR (setCompressionType
                   (JS.orNum (opt_compression_type options) COMPRESSION_NONE) this) ;;
  this <- liftR (setContents (JS.orStr contents []) (opt_is_compressed options) this) ;;
  this <- setTimestamp (JS.orNum (opt_timestamp options) (-1)) this ;;
  this <- setPermission (JS.orNum (opt_permission options) 438) this ;;
  ret (with_metadata (JS.orStr (opt_metadata options) []) this).

End WithExternals.

End PharFile.

(** ** [Phar] *)

Module Phar.

(** [this.files] is the plain object [{ }] that [setFiles] creates, or the
    array that [loadPharData] creates. An array slot is [None] once
    [delete] has emptied it: the slot still counts in [length] and [for-in]
    passes over it. *)
Inductive Files : Type :=
| PlainObject
| ArrayOf (slots : list (option PharFile.t)).

Record t : Type := {
  alias : str;
  stub : str;
  signature_type : Z;
  metadata : str;
  files : Files;
  flags : Z;
  manifest_api : Z
}.

Definition with_alias (v : str) (this : t) : t :=
  {| alias := v; stub := stub this; signature_type := signature_type this;
     metadata := metadata this; files := files this; flags := flags this;
     manifest_api := manifest_api this |}.

Definition with_stub (v : str) (this : t) : t :=
  {| alias := alias this; stub := v; signature_type := signature_type this;
     metadata := metadata this; files := files this; flags := flags this;
     manifest_api := manifest_api this |}.

Definition with_signature_type (v : Z) (this : t) : t :=
  {| alias := alias this; stub := stub this; signature_type := v;
     metadata := metadata this; files := files this; flags := flags this;
     manifest_api := manifest_api this |}.

Definition with_metadata (v : str) (this : t) : t :=
  {| alias := alias this; stub := stub this; signature_type := signature_type this;
     metadata := v; files := files this; flags := flags this;
     manifest_api := manifest_api this |}.

Definition with_files (v : Files) (this : t) : t :=
  {| alias := alias this; stub := stub this; signature_type := signature_type this;
     metadata := metadata this; files := v; flags := flags this;
     manifest_api := manifest_api this |}.

Definition with_flags (v : Z) (this : t) : t :=
  {| alias := alias this; stub := stub this; signature_type := signature_type this;
     metadata := metadata this; files := files this; flags := v;
     manifest_api := manifest_api this |}.

Definition with_manifest_api (v : Z) (this : t) : t :=
  {| alias := alias this; stub := stub this; signature_type := signature_type this;
     metadata := metadata this; files := files this; flags := flags this;
     manifest_api := v |}.

Definition getStub (this : t) : str := stub this.

Definition setStub (v : str) (this : t) : result t :=
  let pos := indexOf (toLowerCase v) (lit "__halt_compiler();") in
  if pos =? -1 then Throw InvalidPrelude
  else Ok (with_stub (substring v 0 pos ++ STUB_END) this).

Definition getAlias (this : t) : str := alias this.
Definition setAlias (v : str) (this : t) : t := with_alias v this.
Definition getSignatureType (this : t) : Z := signature_type this.

Definition setSignatureType (type : Z) (this : t) : result t :=
  if negb (type =? SIGNATURE_MD5) && negb (type =? SIGNATURE_SHA1)
     && negb (type =? SIGNATURE_SHA256) && negb (type =? SIGNATURE_SHA512)
  then Throw UnknownSignatureGiven
  else Ok (with_signature_type type this).

Definition getMetadata (this : t) : str := metadata this.
Definition setMetadata (v : str) (this : t) : t := with_metadata v this.
Definition getFlags (this : t) : Z := flags this.
Definition setFlags (v : Z) (this : t) : t := with_flags v this.
Definition getManifestApi (this : t) : Z := manifest_api this.
Definition setManifestApi (v : Z) (this : t) : t := with_manifest_api v this.

(** The files a [for (var i in this.files)] loop visits, in its order. *)
Definition forIn (fs : Files) : list PharFile.t :=
  match fs with
  | PlainObject => []
  | ArrayOf slots =>
      flat_map (fun slot => match slot with Some f => [f] | None => [] end) slots
  end.

(** The loop of [removeFile] over an array: [delete] the first slot whose
    file has the name, then [break]. *)
Fixpoint deleteFirst (name : str) (slots : list (option PharFile.t))
  : list (option PharFile.t) :=
  match slots with
  | [] => []
  | None :: rest => None :: deleteFirst name rest
  | Some f :: rest =>
      if str_eqb (PharFile.getName f) name then None :: rest
      else Some f :: deleteFirst name rest
  end.

Definition removeFile (name : str) (this : t) : t :=
  match files this with
  | PlainObject => this
  | ArrayOf slots => with_files (ArrayOf (deleteFirst name slots)) this
  end.

(** [getFile] returns [undefined] ([None]) when the loop ends. *)
Definition getFile (name : str) (this : t) : option PharFile.t :=
  find (fun f => str_eqb (PharFile.getName f) name) (forIn (files this)).

(** [this.files.push(file)]: a plain object has no [push]. *)
Definition push (file : PharFile.t) (fs : Files) : result Files :=
  match fs with
  | PlainObject => Throw (TypeError "this.files.push")
  | ArrayOf slots => Ok (ArrayOf (slots ++ [Some file]))
  end.

(** Every [file] of the model is an instance of [PharFile], so the
    [instanceof] test holds. *)
Definition addFile (file : PharFile.t) (this : t) : result t :=
  let this := removeFile (PharFile.getName file) this in
  let* fs := push file (files this) in
  Ok (with_files fs this).

(** [this.files.slice(0)] *)
Definition getFiles (this : t) : result (list (option PharFile.t)) :=
  match files this with
  | PlainObject => Throw (TypeError "this.files.slice")
  | ArrayOf slots => Ok slots
  end.

(** [this.files = { }; for (var n in files) this.addFile(files[n])] *)
Definition setFiles (fs : list PharFile.t) (this : t) : result t :=
  fold_left (fun r f => let* this := r in addFile f this) fs
            (Ok (with_files PlainObject this)).

(** [this.files.length]: [undefined] ([None]) on a plain object. *)
Definition getFilesCount (this : t) : option Z :=
  match files this with
  | PlainObject => None
  | ArrayOf slots => Some (Z.of_nat (List.length slots))
  end.

(** The [options] argument of the constructor. *)
Record Options : Type := {
  opt_alias : option str;
  opt_stub : option str;
  opt_signature_type : option Z;
  opt_metadata : option str;
  opt_files : option (list PharFile.t);
  opt_flags : option Z;
  opt_manifest_api : option Z
}.

Definition noOptions : Options :=
  {| opt_alias := None; opt_stub := None; opt_signature_type := None;
     opt_metadata := None; opt_files := None; opt_flags := None;
     opt_manifest_api := None |}.

Definition blank : t :=
  {| alias := []; stub := []; signature_type := 0; metadata := [];
     files := PlainObject; flags := 0; manifest_api := 0 |}.

(** [new PharUtils.Phar(options)] *)
Definition new (options : Options) : result t :=
  let this := with_alias (JS.orStr (opt_alias options) []) blank in
  let* this := setStub (JS.orStr (opt_stub options) (lit "<?php " ++ STUB_END)) this in
  let* this := setSignatureType
                 (JS.orNum (opt_signature_type options) SIGNATURE_SHA1) this in
  let this := with_metadata (JS.orStr (opt_metadata options) []) this in
  let* this := setFiles (match opt_files options with Some l => l | None => [] end) this in
  let this := with_flags (JS.orNum (opt_flags options) 0x10000) this in
  Ok (with_manifest_api (JS.orNum (opt_manifest_api options) 17) this).

Section WithExternals.
Context {ext : Externals}.

(** The [switch] of [loadPharData]: digest length and hasher. *)
Definition loadHasher (signature_type : Z) : result (Z * (str -> str)) :=
  if signature_type =? SIGNATURE_MD5 then Ok (16, MD5_raw)
  else if signature_type =? SIGNATURE_SHA1 then Ok (20, SHA1_raw)
  else if signature_type =? SIGNATURE_SHA256 then Ok (32, SHA256_raw)
  else if signature_type =? SIGNATURE_SHA512 then Ok (64, SHA512_raw)
  else Throw UnknownSignatureDetected.

(** The [switch] of [savePharData]. *)
Definition saveHasher (signature_type : Z) : result (str -> str) :=
  if signature_type =? SIGNATURE_MD5 then Ok MD5_raw
  else if signature_type =? SIGNATURE_SHA1 then Ok SHA1_raw
  else if signature_type =? SIGNATURE_SHA256 then Ok SHA256_raw
  else if signature_type =? SIGNATURE_SHA512 then Ok SHA512_raw
  else Throw UnknownSignatureDetected.

(** First part of [loadPharData]: magic, signature type, digest. The value
    is what the variable [buffer] holds afterwards, the signed bytes. *)
Definition verifySignature (buffer : str) : result str :=
  let pos := len buffer - 4 in
  if negb (str_eqb (substringFrom buffer pos) END_MAGIC) then Throw MagicMismatch
  else
    let pos := pos - 4 in
    let signature_type := Binary.readLInt (substring buffer pos (pos + 4)) in
    let* (hash_len, hasher) := loadHasher signature_type in
    let hash := substring buffer (pos - hash_len) pos in
    let buffer := substring buffer 0 (pos - hash_len) in
    if negb (str_eqb (hasher buffer) hash) then Throw SignatureInvalid
    else Ok buffer.

(** The objects the rest of [loadPharData] works on: the global scope, the
    receiver and its two cursors. *)
Record Load : Type := {
  scope : Realm;
  receiver : t;
  buffer : BinaryBuffer.t;
  manifest_buffer : BinaryBuffer.t
}.

Definition onRealm {A : Type} (m : M Realm A) : M Load A := fun s =>
  let (r, x) := m (scope s) in
  (r, {| scope := x; receiver := receiver s; buffer := buffer s;
         manifest_buffer := manifest_buffer s |}).

Definition onBuffer {A : Type} (m : M BinaryBuffer.t A) : M Load A := fun s =>
  let (r, x) := m (buffer s) in
  (r, {| scope := scope s; receiver := receiver s; buffer := x;
         manifest_buffer := manifest_buffer s |}).

Definition onManifest {A : Type} (m : M BinaryBuffer.t A) : M Load A := fun s =>
  let (r, x) := m (manifest_buffer s) in
  (r, {| scope := scope s; receiver := receiver s; buffer := buffer s;
         manifest_buffer := x |}).

Definition onThis (f : t -> result t) : M Load unit := fun s =>
  match f (receiver s) with
  | Ok x => (Ok tt, {| scope := scope s; receiver := x; buffer := buffer s;
                       manifest_buffer := manifest_buffer s |})
  | Throw e => (Throw e, s)
  end.

Definition assign (f : t -> t) : M Load unit := onThis (fun x => Ok (f x)).

(** One round of the [for] loop of [loadPharData]. *)
Definition loadFile : M Load unit :=
  filename <- onManifest BinaryBuffer.getString ;;
  onManifest (BinaryBuffer.skip 4) ;;; (* uncompressed file size *)
  timestamp <- onManifest BinaryBuffer.getLInt ;;
  size <- onManifest BinaryBuffer.getLInt ;;
  readed_crc32 <- onManifest BinaryBuffer.getLInt ;;
  flags <- onManifest BinaryBuffer.getLInt ;;
  metadata <- onManifest BinaryBuffer.getString ;;
  let options :=
    {| PharFile.opt_compression_type := Some (JS.band flags 0xf000);
       PharFile.opt_is_compressed := true;
       PharFile.opt_timestamp := Some timestamp;
       PharFile.opt_metadata := Some metadata;
       PharFile.opt_permission := Some (JS.band flags 0xfff) |} in
  contents <- onBuffer (BinaryBuffer.get size) ;;
  file <- onRealm (PharFile.new (Some filename) (Some contents) options) ;;
  if negb (readed_crc32 =? crc32 (PharFile.getContents file))
  then throw FileCorrupt
  else onThis (addFile file).

Fixpoint times {S : Type} (n : nat) (body : M S unit) : M S unit :=
  match n with
  | O => ret tt
  | Datatypes.S n' => body ;;; times n' body
  end.

(** Second part of [loadPharData], from [buffer.indexOf(STUB_END)] on. *)
Definition readArchive (signed : str) : M Load unit :=
  let stub_len := indexOf signed STUB_END in
  if stub_len =? -1 then throw PreludeTerminatorMissing
  else
    let stub_len := stub_len + len STUB_END in
    onBuffer (modify (fun _ => BinaryBuffer.new (Some signed))) ;;;
    stub <- onBuffer (BinaryBuffer.get stub_len) ;;
    assign (with_stub stub) ;;;
    manifest <- onBuffer BinaryBuffer.getString ;;
    onManifest (modify (fun _ => BinaryBuffer.new (Some manifest))) ;;;
    files_count <- onManifest BinaryBuffer.getLInt ;;
    api <- onManifest BinaryBuffer.getLShort ;;
    assign (with_manifest_api api) ;;;
    fl <- onManifest BinaryBuffer.getLInt ;;
    assign (with_flags fl) ;;;
    al <- onManifest BinaryBuffer.getString ;;
    assign (with_alias al) ;;;
    md <- onManifest BinaryBuffer.getString ;;
    assign (with_metadata md) ;;;
    assign (with_files (ArrayOf [])) ;;;
    times (Z.to_nat files_count) loadFile.

(** [loadPharData(buffer)] on a string. On a [throw] only the exception is
    kept, not the properties the receiver was assigned before it. *)
Definition loadPharData (buffer : str) (this : t) : M Realm t := fun realm =>
  match verifySignature buffer with
  | Throw e => (Throw e, realm)
  | Ok signed =>
      let start :=
        {| scope := realm; receiver := this; buffer := BinaryBuffer.new None;
           manifest_buffer := BinaryBuffer.new None |} in
      let (r, s) := readArchive signed start in
      (match r with Ok _ => Ok (receiver s) | Throw e => Throw e end, scope s)
  end.

(** The manifest record of one file, as the loop of [savePharData] writes
    it, given the file's compressed contents. *)
Definition putFile (file : PharFile.t) (contents : str)
  : BinaryBuffer.t -> BinaryBuffer.t := fun manifest_buffer =>
  let manifest_buffer := BinaryBuffer.putString (PharFile.getName file) manifest_buffer in
  let manifest_buffer := BinaryBuffer.putLInt (PharFile.getSize file) manifest_buffer in
  let manifest_buffer := BinaryBuffer.putLInt (PharFile.getTimestamp file) manifest_buffer in
  let manifest_buffer := BinaryBuffer.putLInt (len contents) manifest_buffer in
  let manifest_buffer :=
    BinaryBuffer.putLInt (crc32 (PharFile.getContents file)) manifest_buffer in
  let manifest_buffer := BinaryBuffer.putLInt (PharFile.getPharFlags file) manifest_buffer in
  BinaryBuffer.putString (PharFile.getMetadata file) manifest_buffer.

(** One round of the [for-in] loop of [savePharData]. *)
Definition saveFile (file : PharFile.t) (acc : BinaryBuffer.t * str)
  : result (BinaryBuffer.t * str) :=
  let '(manifest_buffer, all_contents) := acc in
  let* contents := PharFile.getCompressedContents file in
  Ok (putFile file contents manifest_buffer, all_contents ++ contents).

(** First part of [savePharData]: the stub, the manifest and the file
    contents, that is the variable [buffer] before it is signed. *)
Definition writeArchive (this : t) : result BinaryBuffer.t :=
  match getFilesCount this with
  | None => Throw EmptyArchive
  | Some count =>
      if count =? 0 then Throw EmptyArchive
      else
        let buffer := BinaryBuffer.new None in
        let manifest_buffer := BinaryBuffer.new None in
        let buffer := BinaryBuffer.put (stub this) buffer in
        let manifest_buffer := BinaryBuffer.putLInt count manifest_buffer in
        let manifest_buffer := BinaryBuffer.putLShort (manifest_api this) manifest_buffer in
        let manifest_buffer := BinaryBuffer.putLInt (flags this) manifest_buffer in
        let manifest_buffer := BinaryBuffer.putString (alias this) manifest_buffer in
        let manifest_buffer := BinaryBuffer.putString (metadata this) manifest_buffer in
        let* (manifest_buffer, all_contents) :=
          fold_left (fun acc file => let* a := acc in saveFile file a)
                    (forIn (files this)) (Ok (manifest_buffer, [])) in
        let buffer :=
          BinaryBuffer.putString (BinaryBuffer.buffer manifest_buffer) buffer in
        Ok (BinaryBuffer.put all_contents buffer)
  end.

(** [savePharData()] with a string result; with [as_u8a] the result is
    [toUint8Array] of the same string. *)
Definition savePharData (this : t) : result str :=
  let* buffer := writeArchive this in
  let* hasher := saveHasher (signature_type this) in
  let hash := hasher (BinaryBuffer.buffer buffer) in
  let buffer := BinaryBuffer.put hash buffer in
  let buffer := BinaryBuffer.putLInt (signature_type this) buffer in
  let buffer := BinaryBuffer.put END_MAGIC buffer in
  Ok (BinaryBuffer.buffer buffer).

End WithExternals.

End Phar.

(** ** Vocabulary of the statements *)

(** [pat] occurs in [s] at position [i]. *)
Definition occursAt (pat s : str) (i : nat) : Prop :=
  exists pre post, s = pre ++ pat ++ post /\ List.length pre = i.

(** The token [setStub] looks for, in lower case. *)
Definition halt_token : str := lit "__halt_compiler();".

(** What [setStub] stores for a text whose token starts at position [i]. *)
Definition normalized (s : str) (i : nat) : str := firstn i s ++ STUB_END.

(** [STUB_END] in two parts: the token in capitals and what follows it. *)
Definition STUB_END_token : str := lit "__HALT_COMPILER();".
Definition STUB_END_rest : str := lit " ?>" ++ [CR; LF].

(** What the codec relies on from [Hashes]: a raw digest has 16, 20, 32 or
    64 octets. *)
Definition digestLengths (ext : Externals) : Prop :=
  forall s : str,
    len (MD5_raw s) = 16 /\ len (SHA1_raw s) = 20
    /\ len (SHA256_raw s) = 32 /\ len (SHA512_raw s) = 64.

(** One bit of a buffer flipped: bit [k] of the octet at position [i]. *)
Definition flipBit (k : Z) (c : ascii) : ascii :=
  fromCharCode (Z.lxor (code c) (2 ^ k)).

Fixpoint flipAt (i : nat) (k : Z) (s : str) : str :=
  match s with
  | [] => []
  | c :: s' =>
      match i with
      | O => flipBit k c :: s'
      | S i' => c :: flipAt i' k s'
      end
  end.

(** ** Running the codec

    To run [savePharData] and [loadPharData] on a concrete archive the
    libraries need some implementation. This one stores instead of
    deflating, and its digest is the CRC-32 of the bytes followed by zeros up
    to the digest length. *)
Definition checksumDigest (n : nat) (s : str) : str :=
  firstn n (Binary.writeLInt (crc32 s) ++ repeat zero n).

Definition standIn : Externals :=
  {| RawInflate_decompress := Some;
     RawDeflate_compress := Some;
     MD5_raw := checksumDigest 16;
     SHA1_raw := checksumDigest 20;
     SHA256_raw := checksumDigest 32;
     SHA512_raw := checksumDigest 64 |}.

(** The archive of scenario S1: one file [a.txt] holding [hi], not
    compressed, permission 0666, timestamp 0, SHA1 signature. *)
Definition scenario_file : PharFile.t :=
  {| PharFile.name := lit "a.txt";
     PharFile.contents := lit "hi";
     PharFile.compression_type := COMPRESSION_NONE;
     PharFile.timestamp := 0;
     PharFile.permission := 438;
     PharFile.metadata := [] |}.

Definition scenario_S1 : Phar.t :=
  {| Phar.alias := [];
     Phar.stub := lit "<?php " ++ STUB_END;
     Phar.signature_type := SIGNATURE_SHA1;
     Phar.metadata := [];
     Phar.files := Phar.ArrayOf [Some scenario_file];
     Phar.flags := 0x10000;
     Phar.manifest_api := 17 |}.

(** The 114 octets [savePharData] returns for that archive under
    [standIn]: 86 signed octets, 20 of digest, 4 of signature type, 4 of
    magic. *)
Definition scenario_S1_bytes : str :=
  Eval vm_compute in
    match Phar.savePharData (ext := standIn) scenario_S1 with
    | Ok out => out
    | Throw _ => []
    end.

(** The signed bytes of that buffer with bit 0 of octet 72 flipped: octets
    72 to 75 are the CRC slot of [a.txt], octets 84 and 85 its contents. *)
Definition scenario_S1_bad_crc : str := flipAt 72 0 (firstn 86 scenario_S1_bytes).

(** Signed bytes followed by their digest, the signature type and the
    magic, as [savePharData] ends a buffer. *)
Definition sign (hasher : str -> str) (signature_type : Z) (signed : str) : str :=
  signed ++ hasher signed ++ Binary.writeLInt signature_type ++ END_MAGIC.

Definition signSHA1 {ext : Externals} (signed : str) : str :=
  sign SHA1_raw SIGNATURE_SHA1 signed.

(** A page that binds both [time] and [perm] to 0. *)
Definition boundRealm (now : Z) : Realm :=
  {| global_time := Some 0; global_perm := Some 0; Date_now := now |}.

(** A step of the decoder that does not touch the signature type of the
    receiver. *)
Definition keepsSignatureType {A : Type} (m : M Phar.Load A) : Prop :=
  forall s r s',
    m s = (r, s') ->
    Phar.signature_type (Phar.receiver s') = Phar.signature_type (Phar.receiver s).

(** A cursor that has [rest] left to read. *)
Definition reads (b : BinaryBuffer.t) (rest : str) : Prop :=
  exists pre,
    BinaryBuffer.buffer b = pre ++ rest /\ BinaryBuffer.offset b = len pre.

(** A string with its 32-bit length in front, as [putString] writes it. *)
Definition lenString (data : str) : str := Binary.writeLInt (len data) ++ data.

(** The manifest record of a file whose compressed contents are [c], and
    the records of a list of files. *)
Definition manifestRecord (file : PharFile.t) (c : str) : str :=
  lenString (PharFile.name file)
  ++ Binary.writeLInt (len (PharFile.contents file))
  ++ Binary.writeLInt (PharFile.timestamp file)
  ++ Binary.writeLInt (len c)
  ++ Binary.writeLInt (crc32 (PharFile.contents file))
  ++ Binary.writeLInt (PharFile.getPharFlags file)
  ++ lenString (PharFile.metadata file).

Fixpoint manifestRecords (fs : list PharFile.t) (cs : list str) : str :=
  match fs, cs with
  | f :: fs', c :: cs' => manifestRecord f c ++ manifestRecords fs' cs'
  | _, _ => []
  end.

(** The manifest before the records. *)
Definition manifestHeader (this : Phar.t) (count : Z) : str :=
  Binary.writeLInt count
  ++ Binary.writeLShort (Phar.manifest_api this)
  ++ Binary.writeLInt (Phar.flags this)
  ++ lenString (Phar.alias this)
  ++ lenString (Phar.metadata this).

(** The number of octets of the manifest of an archive with files [fs]. *)
Definition manifestSize (this : Phar.t) (fs : list PharFile.t) : Z :=
  18 + len (Phar.alias this) + len (Phar.metadata this)
  + fold_right
      (fun f n => 28 + len (PharFile.name f) + len (PharFile.metadata f) + n)
      0 fs.

(** What the codec relies on from [Zlib]: deflating octets gives octets,
    and inflating them gives the input back. *)
Definition zlibContract (ext : Externals) : Prop :=
  forall x d,
    Forall (fun z => 0 <= z < 256) x ->
    RawDeflate_compress x = Some d ->
    Forall (fun z => 0 <= z < 256) d /\ RawInflate_decompress d = Some x.

(** A page that binds [time] and [perm] to numbers that are not negative. *)
Definition bindsGlobals (realm : Realm) : Prop :=
  (exists g, global_time realm = Some g /\ 0 <= g)
  /\ (exists q, global_perm realm = Some q /\ 0 <= q).

(** A file that survives encoding and decoding: a name that is not empty, a
    timestamp and a permission that are not 0, a supported compression, and
    every number within its field. *)
Definition entryInRange (f : PharFile.t) : Prop :=
  PharFile.name f <> []
  /\ len (PharFile.name f) < 2 ^ 32
  /\ 0 < PharFile.timestamp f < 2 ^ 32
  /\ 0 < PharFile.permission f <= 4095
  /\ (PharFile.compression_type f = COMPRESSION_NONE
      \/ PharFile.compression_type f = COMPRESSION_GZ)
  /\ len (PharFile.metadata f) < 2 ^ 32.

(** A stub that ends with [STUB_END] and holds it nowhere else. *)
Definition stubInRange (stub : str) : Prop :=
  exists pre,
    stub = pre ++ STUB_END
    /\ forall k, occursAt STUB_END stub k -> k = List.length pre.

(** An archive that survives encoding and decoding: its files are the
    array [fs] with no hole, names are unique, and every number fits its
    field. *)
Definition archiveInRange (this : Phar.t) (fs : list PharFile.t) : Prop :=
  Phar.files this = Phar.ArrayOf (map Some fs)
  /\ NoDup (map PharFile.name fs)
  /\ Forall entryInRange fs
  /\ Z.of_nat (List.length fs) < 2 ^ 32
  /\ stubInRange (Phar.stub this)
  /\ 0 <= Phar.manifest_api this < 2 ^ 16
  /\ 0 <= Phar.flags this < 2 ^ 32
  /\ len (Phar.alias this) < 2 ^ 32
  /\ len (Phar.metadata this) < 2 ^ 32
  /\ manifestSize this fs < 2 ^ 32.

(** The state of [loadPharData] between two statements: the global scope,
    the receiver, and what its two cursors have left to read. *)
Definition loadsAt (s : Phar.Load) (realm : Realm) (this : Phar.t)
           (restBuffer restManifest : str) : Prop :=
  Phar.scope s = realm
  /\ Phar.receiver s = this
  /\ reads (Phar.buffer s) restBuffer
  /\ reads (Phar.manifest_buffer s) restManifest.

(** The compressed contents of the files fit a 32-bit length. *)
Definition payloadsInRange {ext : Externals} (fs : list PharFile.t) : Prop :=
  forall f c,
    In f fs -> PharFile.getCompressedContents f = Ok c -> len c < 2 ^ 32.

(** The options [loadPharData] passes to the constructor for a file it
    reads back. *)
Definition decodedOptions (f : PharFile.t) : PharFile.Options :=
  {| PharFile.opt_compression_type := Some (PharFile.compression_type f);
     PharFile.opt_is_compressed := true;
     PharFile.opt_timestamp := Some (PharFile.timestamp f);
     PharFile.opt_metadata := Some (PharFile.metadata f);
     PharFile.opt_permission := Some (PharFile.permission f) |}.

(** An archive of two files, the second one compressed, with timestamps
    and permissions that are not 0. *)
Definition two_files : list PharFile.t :=
  [ {| PharFile.name := lit "b";
       PharFile.contents := lit "1";
       PharFile.compression_type := COMPRESSION_NONE;
       PharFile.timestamp := 1530000000;
       PharFile.permission := 438;
       PharFile.metadata := [] |};
    {| PharFile.name := lit "a";
       PharFile.contents := lit "22";
       PharFile.compression_type := COMPRESSION_GZ;
       PharFile.timestamp := 1530000001;
       PharFile.permission := 420;
       PharFile.metadata := lit "m" |} ].

Definition scenario_two_files : Phar.t :=
  {| Phar.alias := lit "demo.phar";
     Phar.stub := lit "<?php " ++ STUB_END;
     Phar.signature_type := SIGNATURE_SHA1;
     Phar.metadata := [];
     Phar.files := Phar.ArrayOf (map Some two_files);
     Phar.flags := 0x10000;
     Phar.manifest_api := 17 |}.

(** A statement of the decoder, started in a state whose global scope and
    receiver satisfy [I], either returns a value and leaves a scope and a
    receiver that satisfy [Q], or throws an error that satisfies [E]. *)
Definition decoding {A : Type} (I : Realm -> Phar.t -> Prop) (E : error -> Prop)
           (Q : A -> Realm -> Phar.t -> Prop) (m : M Phar.Load A) : Prop :=
  forall s,
    I (Phar.scope s) (Phar.receiver s) ->
    match m s with
    | (Ok a, s') => Q a (Phar.scope s') (Phar.receiver s')
    | (Throw e, _) => E e
    end.

(** A cursor operation whose only error is [OutOfBounds]. *)
Definition onlyOutOfBounds {A : Type} (m : M BinaryBuffer.t A) : Prop :=
  forall b e b', m b = (Throw e, b') -> e = OutOfBounds.


(** A page that lacks one of the globals [time] and [perm]. *)
Definition lacksGlobal (realm : Realm) : Prop :=
  global_time realm = None \/ global_perm realm = None.

(** ** [PharZipConverter] *)

Module PharZipConverter.

(** A [Zlib.Unzip] object as [toPhar] uses it: the names it lists and, for
    a name, the decompressed octets, or [None] when [decompress] throws. *)
Record Unzip : Type := {
  getFilenames : list str;
  decompress : str -> option (list Z)
}.

(** How a call of [toPhar] ends: with an archive, with an error raised
    outside its [try] block, or with the error its [catch] block throws,
    'Zlib.Unzip decompression error: ' followed by what was caught ([None]
    when the zip library threw it). *)
Inductive outcome : Type :=
| Converted (phar : Phar.t)
| Raised (e : error)
| UnzipDecompressionError (cause : option error).

Section WithExternals.
Context {ext : Externals}.

(** [for (var i in files) phar.addFile(new PharFile(files[i],
    fromUint8Array(zip.decompress(files[i]))))], inside [try]. *)
Fixpoint addFiles (zip : Unzip) (files : list str) (phar : Phar.t) (realm : Realm)
  : outcome * Realm :=
  match files with
  | [] => (Converted phar, realm)
  | name :: rest =>
      match decompress zip name with
      | None => (UnzipDecompressionError None, realm)
      | Some u8a =>
          match PharFile.new (Some name) (Some (fromUint8Array u8a))
                             PharFile.noOptions realm with
          | (Throw e, realm) => (UnzipDecompressionError (Some e), realm)
          | (Ok file, realm) =>
              match Phar.addFile file phar with
              | Throw e => (UnzipDecompressionError (Some e), realm)
              | Ok phar => addFiles zip rest phar realm
              end
          end
      end
  end.

(** [toPhar(zip)] *)
Definition toPhar (zip : Unzip) (realm : Realm) : outcome * Realm :=
  match Phar.new Phar.noOptions with
  | Throw e => (Raised e, realm)
  | Ok phar => addFiles zip (getFilenames zip) phar realm
  end.

End WithExternals.

End PharZipConverter.

(** * Properties *)

(** ** 32-bit conversions *)

Section Int32.

Lemma ToUint32_range x : 0 <= JS.ToUint32 x < 2 ^ 32.
Proof. unfold JS.ToUint32. apply Z.mod_pos_bound. lia. Qed.

Lemma ToInt32_range x : - 2 ^ 31 <= JS.ToInt32 x < 2 ^ 31.
Proof.
  unfold JS.ToInt32.
  pose proof (Z.mod_pos_bound (x + 2 ^ 31) (2 ^ 32) ltac:(lia)). lia.
Qed.

Lemma ToUint32_small x : 0 <= x < 2 ^ 32 -> JS.ToUint32 x = x.
Proof. intros H. unfold JS.ToUint32. now apply Z.mod_small. Qed.

Lemma ToInt32_small x : - 2 ^ 31 <= x < 2 ^ 31 -> JS.ToInt32 x = x.
Proof. intros H. unfold JS.ToInt32. rewrite Z.mod_small; lia. Qed.

Lemma ToUint32_ToInt32 x : JS.ToUint32 (JS.ToInt32 x) = JS.ToUint32 x.
Proof.
  unfold JS.ToUint32, JS.ToInt32.
  rewrite Zminus_mod_idemp_l.
  f_equal. lia.
Qed.

Lemma testbit_ToUint32 x i :
  Z.testbit (JS.ToUint32 x) i = (i <? 32) && Z.testbit x i.
Proof. unfold JS.ToUint32. apply Z.testbit_mod_pow2. lia. Qed.

Lemma testbit_ToInt32_low x i :
  0 <= i < 32 -> Z.testbit (JS.ToInt32 x) i = Z.testbit x i.
Proof.
  intros Hi.
  assert (E : Z.testbit (JS.ToUint32 (JS.ToInt32 x)) i = Z.testbit (JS.ToUint32 x) i)
    by now rewrite ToUint32_ToInt32.
  rewrite !testbit_ToUint32 in E.
  replace (i <? 32) with true in E by (symmetry; apply Z.ltb_lt; lia).
  exact E.
Qed.

Lemma ToUint32_bor a b :
  JS.ToUint32 (JS.bor a b) = Z.lor (JS.ToUint32 a) (JS.ToUint32 b).
Proof.
  apply Z.bits_inj'. intros i Hi. unfold JS.bor.
  rewrite Z.lor_spec, !testbit_ToUint32, Z.lor_spec.
  destruct (Z.ltb_spec i 32) as [Hlt | Hge]; cbn [andb]; [|reflexivity].
  now rewrite !testbit_ToInt32_low by lia.
Qed.

Lemma ToUint32_bxor a b :
  JS.ToUint32 (JS.bxor a b) = Z.lxor (JS.ToUint32 a) (JS.ToUint32 b).
Proof.
  apply Z.bits_inj'. intros i Hi. unfold JS.bxor.
  rewrite Z.lxor_spec, !testbit_ToUint32, Z.lxor_spec.
  destruct (Z.ltb_spec i 32) as [Hlt | Hge]; cbn [andb]; [|reflexivity].
  now rewrite !testbit_ToInt32_low by lia.
Qed.

Lemma shr_0 a : JS.shr a 0 = JS.ToUint32 a.
Proof. unfold JS.shr. change (JS.shiftCount 0) with 0. apply Z.shiftr_0_r. Qed.

(** Bits that do not overlap add up. *)
Lemma lor_shifted a b k :
  0 <= k -> 0 <= a < 2 ^ k -> Z.lor a (b * 2 ^ k) = a + b * 2 ^ k.
Proof.
  intros Hk Ha.
  rewrite <- (Z.add_lor_land a (b * 2 ^ k)).
  assert (E : Z.land a (b * 2 ^ k) = 0); [|rewrite E; lia].
  apply Z.bits_inj'. intros i Hi.
  rewrite Z.land_spec, Z.bits_0.
  destruct (Z.ltb_spec i k) as [Hlt | Hge].
  - rewrite Z.mul_pow2_bits_low by lia. apply andb_false_r.
  - rewrite <- (Z.mod_small a (2 ^ k)) by lia.
    rewrite Z.mod_pow2_bits_high by lia. reflexivity.
Qed.

End Int32.

(** ** Characters and their codes *)

Lemma code_range c : 0 <= code c < 256.
Proof.
  unfold code. pose proof (N_ascii_bounded c). lia.
Qed.

Lemma code_fromCharCode x : 0 <= x < 256 -> code (fromCharCode x) = x.
Proof.
  intros H. unfold code, fromCharCode.
  rewrite N_ascii_embedding by lia. lia.
Qed.

Lemma fromCharCode_code c : fromCharCode (code c) = c.
Proof.
  unfold code, fromCharCode. rewrite N2Z.id. apply ascii_N_embedding.
Qed.

(** ** Little-endian numbers *)

Section LittleEndian.

Lemma shl_octet c k :
  0 <= c < 256 -> In k [0; 8; 16; 24] ->
  JS.ToUint32 (JS.shl c k) = c * 2 ^ k.
Proof.
  intros Hc Hk. unfold JS.shl.
  rewrite ToUint32_ToInt32, (ToInt32_small c) by lia.
  assert (Ek : JS.shiftCount k = k)
    by (cbn in Hk; intuition (subst; reflexivity)).
  rewrite Ek, Z.shiftl_mul_pow2 by (cbn in Hk; lia).
  apply ToUint32_small.
  cbn in Hk. intuition (subst; lia).
Qed.

(** Four octets read as a number: the least significant one comes first. *)
Lemma readLInt_octets a b c d rest :
  Binary.readLInt (a :: b :: c :: d :: rest)
  = code a + code b * 2 ^ 8 + code c * 2 ^ 16 + code d * 2 ^ 24.
Proof.
  pose proof (code_range a). pose proof (code_range b).
  pose proof (code_range c). pose proof (code_range d).
  unfold Binary.readLInt. rewrite shr_0. cbn [fold_left].
  change (charCodeAt (a :: b :: c :: d :: rest) 0) with (Some (code a)).
  change (charCodeAt (a :: b :: c :: d :: rest) 1) with (Some (code b)).
  change (charCodeAt (a :: b :: c :: d :: rest) 2) with (Some (code c)).
  change (charCodeAt (a :: b :: c :: d :: rest) 3) with (Some (code d)).
  cbn [JS.nanToZero].
  change (8 * 0) with 0. change (8 * 1) with 8.
  change (8 * 2) with 16. change (8 * 3) with 24.
  rewrite !ToUint32_bor, !shl_octet by (cbn; auto 6).
  change (JS.ToUint32 0) with 0. rewrite Z.lor_0_l.
  rewrite Z.pow_0_r, Z.mul_1_r.
  rewrite (lor_shifted (code a)) by lia.
  rewrite (lor_shifted (code a + code b * 2 ^ 8)) by lia.
  rewrite (lor_shifted (code a + code b * 2 ^ 8 + code c * 2 ^ 16)) by lia.
  reflexivity.
Qed.

(** The octet [writeLInt] stores at place [k]. *)
Lemma band_sar_octet n k :
  In k [0; 8; 16; 24] ->
  JS.band (JS.sar n k) 0xff = (JS.ToUint32 n / 2 ^ k) mod 2 ^ 8.
Proof.
  intros Hk.
  assert (Ek : JS.shiftCount k = k)
    by (cbn in Hk; intuition (subst; reflexivity)).
  assert (Hk' : 0 <= k <= 24) by (cbn in Hk; lia).
  unfold JS.band, JS.sar. rewrite Ek.
  change (JS.ToInt32 255) with (Z.ones 8).
  rewrite <- Z.shiftr_div_pow2, <- Z.land_ones by lia.
  apply Z.bits_inj'. intros i Hi.
  rewrite !Z.land_spec, Z.testbit_ones_nonneg by lia.
  destruct (Z.ltb_spec i 8) as [Hlt | Hge]; [|now rewrite !andb_false_r].
  rewrite !andb_true_r.
  rewrite testbit_ToInt32_low by lia.
  rewrite !Z.shiftr_spec by lia.
  rewrite testbit_ToInt32_low, testbit_ToUint32 by lia.
  replace (i + k <? 32) with true by (symmetry; apply Z.ltb_lt; lia).
  reflexivity.
Qed.

Lemma writeLInt_octets n :
  let u := JS.ToUint32 n in
  Binary.writeLInt n =
  [ fromCharCode (u mod 2 ^ 8); fromCharCode ((u / 2 ^ 8) mod 2 ^ 8);
    fromCharCode ((u / 2 ^ 16) mod 2 ^ 8); fromCharCode ((u / 2 ^ 24) mod 2 ^ 8) ].
Proof.
  intros u. unfold Binary.writeLInt. cbn [map].
  change (8 * 0) with 0. change (8 * 1) with 8.
  change (8 * 2) with 16. change (8 * 3) with 24.
  rewrite !band_sar_octet by (cbn; auto 6).
  fold u. rewrite Z.pow_0_r, Z.div_1_r. reflexivity.
Qed.

Lemma writeLInt_length n : List.length (Binary.writeLInt n) = 4%nat.
Proof. reflexivity. Qed.

(** Reading back what was written gives the number modulo 2^32. *)
Lemma readLInt_writeLInt_mod n :
  Binary.readLInt (Binary.writeLInt n) = JS.ToUint32 n.
Proof.
  rewrite writeLInt_octets. cbv zeta.
  pose proof (ToUint32_range n) as Hu.
  set (u := JS.ToUint32 n) in *.
  rewrite readLInt_octets.
  rewrite !code_fromCharCode by (apply Z.mod_pos_bound; lia).
  change (2 ^ 8) with 256. change (2 ^ 16) with 65536.
  change (2 ^ 24) with 16777216. change (2 ^ 32) with 4294967296 in Hu.
  Z.div_mod_to_equations. lia.
Qed.

Lemma readLInt_range buffer : 0 <= Binary.readLInt buffer < 2 ^ 32.
Proof. unfold Binary.readLInt. rewrite shr_0. apply ToUint32_range. Qed.

End LittleEndian.

(** C9. For every integer [n] with [0 <= n < 2^32], [readLInt (writeLInt n)]
    is [n]; and whatever the buffer, the value [readLInt] returns is a
    non-negative integer below [2^32], bit 31 set or not. *)
Theorem readLInt_writeLInt (n : Z) (buffer : str) :
  (0 <= n < 2 ^ 32 -> Binary.readLInt (Binary.writeLInt n) = n)
  /\ 0 <= Binary.readLInt buffer < 2 ^ 32.
Proof.
  split.
  - intros Hn. rewrite readLInt_writeLInt_mod. now apply ToUint32_small.
  - apply readLInt_range.
Qed.

(** The theorem at [n = 0x80000001], whose bit 31 is set, and at the four
    octets 0xFF. *)
Lemma readLInt_writeLInt_witness :
  Binary.readLInt (Binary.writeLInt 0x80000001) = 0x80000001
  /\ 0 <= Binary.readLInt (Binary.writeLInt (-1)) < 2 ^ 32.
Proof.
  destruct (readLInt_writeLInt 0x80000001 (Binary.writeLInt (-1))) as [Hrt Hrange].
  split.
  - apply Hrt. lia.
  - exact Hrange.
Defined.

(** ** The cursor *)

(** C10. When [n > 0] and the position plus [n] exceeds the buffer length,
    [get n] raises [OutOfBounds] and leaves the cursor advanced by [n]: the
    position after the failed read differs from the position before it. *)
Theorem get_out_of_bounds_advances (this : BinaryBuffer.t) (n : Z) :
  n > 0 ->
  BinaryBuffer.offset this + n > len (BinaryBuffer.buffer this) ->
  BinaryBuffer.get n this
  = (Throw OutOfBounds,
     {| BinaryBuffer.buffer := BinaryBuffer.buffer this;
        BinaryBuffer.offset := BinaryBuffer.offset this + n |})
  /\ BinaryBuffer.offset (snd (BinaryBuffer.get n this)) <> BinaryBuffer.offset this.
Proof.
  intros Hn Hover.
  assert (E : BinaryBuffer.get n this
              = (Throw OutOfBounds,
                 {| BinaryBuffer.buffer := BinaryBuffer.buffer this;
                    BinaryBuffer.offset := BinaryBuffer.offset this + n |})).
  { unfold BinaryBuffer.get.
    destruct (Z.ltb_spec n 0) as [Hneg | _]; [lia|].
    destruct (Z.eqb_spec n 0) as [Hz | _]; [lia|].
    cbn [BinaryBuffer.buffer BinaryBuffer.offset].
    destruct (Z.gtb_spec (BinaryBuffer.offset this + n) (len (BinaryBuffer.buffer this)))
      as [_ | Hle]; [reflexivity | lia]. }
  split; [exact E|].
  rewrite E. cbn [snd BinaryBuffer.offset]. lia.
Qed.

(** A cursor at position 1 of a three-octet buffer, asked for 5 octets. *)
Lemma get_out_of_bounds_advances_witness :
  BinaryBuffer.get 5 {| BinaryBuffer.buffer := lit "abc"; BinaryBuffer.offset := 1 |}
  = (Throw OutOfBounds,
     {| BinaryBuffer.buffer := lit "abc"; BinaryBuffer.offset := 1 + 5 |})
  /\ BinaryBuffer.offset
       (snd (BinaryBuffer.get 5
               {| BinaryBuffer.buffer := lit "abc"; BinaryBuffer.offset := 1 |})) <> 1.
Proof.
  apply (get_out_of_bounds_advances
           {| BinaryBuffer.buffer := lit "abc"; BinaryBuffer.offset := 1 |} 5).
  - lia.
  - cbn. lia.
Defined.

(** ** Entry setters and the global scope *)

(** C6. [setPermission(p)] should store [p] when [0 <= p <= 4095] and raise
    [PermissionOutOfRange] otherwise. On a page that declares no [perm], the
    method stores nothing: above 4095 it raises [PermissionOutOfRange], and
    for every other [p], in range or negative, the host raises
    [ReferenceError] on [perm]. *)
Theorem setPermission_reads_global_perm (p now : Z) (this : PharFile.t) :
  PharFile.setPermission p this (pageRealm now)
  = (if p >? 4095 then Throw PermissionOutOfRange else Throw (ReferenceError "perm"),
     pageRealm now).
Proof.
  unfold PharFile.setPermission. cbn [global_perm pageRealm].
  destruct (p >? 4095); reflexivity.
Qed.

(** Where the page does bind [perm], the lower bound is tested on that
    binding and not on the argument: a negative permission is stored. *)
Lemma setPermission_tests_the_global (p g : Z) (this : PharFile.t) (realm : Realm) :
  global_perm realm = Some g -> 0 <= g -> p <= 4095 ->
  PharFile.setPermission p this realm = (Ok (PharFile.with_permission p this), realm).
Proof.
  intros Hg Hpos Hp. unfold PharFile.setPermission. rewrite Hg.
  destruct (Z.gtb_spec p 4095); [lia|].
  destruct (Z.ltb_spec g 0); [lia | reflexivity].
Qed.

(** C7. [setTimestamp(t)] should store [t], or the current time when
    [t < 0], and never raise. On a page that declares no [time], every call
    raises [ReferenceError] on [time] and stores nothing; on a page that
    binds [time] to a number [g], the argument is stored as it is, negative
    or not, and the current time reaches the entry in no case. *)
Theorem setTimestamp_reads_global_time (t now : Z) (this : PharFile.t) :
  PharFile.setTimestamp t this (pageRealm now)
  = (Throw (ReferenceError "time"), pageRealm now)
  /\ forall g perm,
       fst (PharFile.setTimestamp t this
              {| global_time := Some g; global_perm := perm; Date_now := now |})
       = Ok (PharFile.with_timestamp t this).
Proof.
  split.
  - reflexivity.
  - intros g perm. unfold PharFile.setTimestamp. cbn [global_time].
    destruct (g <? 0); reflexivity.
Qed.


(** ** Files of an archive *)

(** C5. After [addFile(e)], [getFile(e.name)] should return [e], also on a
    freshly constructed archive. [new Phar()] leaves [files] a plain object,
    and [addFile] on it raises [TypeError]: the archive gets no file. *)
Theorem addFile_on_new_Phar (e : PharFile.t) :
  exists this,
    Phar.new Phar.noOptions = Ok this
    /\ Phar.files this = Phar.PlainObject
    /\ Phar.addFile e this = Throw (TypeError "this.files.push").
Proof.
  eexists. split; [reflexivity|]. split; reflexivity.
Qed.

(** ** Strings *)

Section Strings.

Lemma len_app (a b : str) : len (a ++ b) = len a + len b.
Proof. unfold len. rewrite length_app. lia. Qed.

Lemma len_nonneg (a : str) : 0 <= len a.
Proof. unfold len. lia. Qed.

Lemma str_eqb_eq (a b : str) : str_eqb a b = true <-> a = b.
Proof.
  revert b. induction a as [|x a IH]; intros [|y b]; cbn; try easy.
  rewrite andb_true_iff, Ascii.eqb_eq, IH.
  split; [intros [-> ->]; reflexivity | intros E; inversion E; auto].
Qed.

Lemma str_eqb_refl (a : str) : str_eqb a a = true.
Proof. now apply str_eqb_eq. Qed.

Lemma str_eqb_neq (a b : str) : a <> b -> str_eqb a b = false.
Proof.
  intros N. destruct (str_eqb a b) eqn:E; [|reflexivity].
  apply str_eqb_eq in E. contradiction.
Qed.

(** Inside the string, [substring] is [firstn] after [skipn]. *)
Lemma substring_inside (s : str) (lo hi : Z) :
  0 <= lo <= hi -> hi <= len s ->
  substring s lo hi = firstn (Z.to_nat (hi - lo)) (skipn (Z.to_nat lo) s).
Proof.
  intros H1 H2. unfold substring, clamp.
  rewrite (Z.min_l lo), (Z.min_l hi), (Z.max_r 0 lo), (Z.max_r 0 hi) by lia.
  rewrite Z.min_l, Z.max_r by lia. reflexivity.
Qed.

Lemma substring_prefix (a b : str) : substring (a ++ b) 0 (len a) = a.
Proof.
  rewrite substring_inside by (rewrite ?len_app; pose proof (len_nonneg a);
                               pose proof (len_nonneg b); lia).
  cbn [Z.to_nat skipn]. rewrite Z.sub_0_r. unfold len. rewrite Nat2Z.id.
  rewrite firstn_app, Nat.sub_diag, firstn_all. cbn. apply app_nil_r.
Qed.

Lemma substring_middle (a b c : str) :
  substring (a ++ b ++ c) (len a) (len a + len b) = b.
Proof.
  pose proof (len_nonneg a). pose proof (len_nonneg b). pose proof (len_nonneg c).
  rewrite substring_inside by (rewrite ?len_app; lia).
  replace (len a + len b - len a) with (len b) by lia.
  unfold len. rewrite !Nat2Z.id.
  rewrite skipn_app, Nat.sub_diag, skipn_all. cbn [skipn app].
  rewrite firstn_app, Nat.sub_diag, firstn_all. cbn. apply app_nil_r.
Qed.

Lemma substringFrom_suffix (a b : str) : substringFrom (a ++ b) (len a) = b.
Proof.
  unfold substringFrom.
  replace (a ++ b) with (a ++ b ++ []) by now rewrite app_nil_r.
  replace (len (a ++ b ++ [])) with (len a + len b)
    by (rewrite !len_app; cbn; lia).
  apply substring_middle.
Qed.

Lemma startsWith_spec (pat s : str) :
  startsWith pat s = true <-> exists post, s = pat ++ post.
Proof.
  revert s. induction pat as [|p pat IH]; intros s; cbn.
  - split; [intros _; now exists s | reflexivity].
  - destruct s as [|c s].
    + split; [discriminate | intros [post E]; discriminate].
    + rewrite andb_true_iff, Ascii.eqb_eq, IH. split.
      * intros [-> [post ->]]. now exists post.
      * intros [post E]. inversion E. split; [reflexivity | now exists post].
Qed.

(** A prefix of a concatenation that fits in the first part is a prefix of
    that part. *)
Lemma app_eq_split (p q a x : str) :
  p ++ q = a ++ x -> (List.length p <= List.length a)%nat ->
  exists a', a = p ++ a' /\ q = a' ++ x.
Proof.
  revert a. induction p as [|c p IH]; intros a E L.
  - exists a. split; [reflexivity | exact E].
  - destruct a as [|d a]; [cbn in L; lia|].
    cbn in E. inversion E as [[Hc Hrest]]. subst d.
    destruct (IH a Hrest) as (a' & -> & ->); [cbn in L; lia|].
    exists a'. split; reflexivity.
Qed.

Lemma occursAt_0 (pat s : str) : occursAt pat s 0 <-> startsWith pat s = true.
Proof.
  rewrite startsWith_spec. split.
  - intros (pre & post & -> & L). destruct pre; [|discriminate]. now exists post.
  - intros [post ->]. exists [], post. split; reflexivity.
Qed.

Lemma occursAt_S (pat : str) (c : ascii) (s : str) (i : nat) :
  occursAt pat (c :: s) (S i) <-> occursAt pat s i.
Proof.
  split.
  - intros (pre & post & E & L). destruct pre as [|d pre]; [discriminate|].
    cbn in E. inversion E. subst. exists pre, post. split; [reflexivity|].
    cbn in L. lia.
  - intros (pre & post & -> & L). exists (c :: pre), post.
    split; [reflexivity | cbn; lia].
Qed.

Lemma occursAt_bound (pat s : str) (i : nat) :
  occursAt pat s i -> (i + List.length pat <= List.length s)%nat.
Proof.
  intros (pre & post & -> & <-). rewrite !length_app. lia.
Qed.

(** An occurrence that ends inside the first part does not depend on what
    follows it. *)
Lemma occursAt_within (pat a x y : str) (i : nat) :
  occursAt pat (a ++ x) i -> (i + List.length pat <= List.length a)%nat ->
  occursAt pat (a ++ y) i.
Proof.
  intros (pre & post & E & L) Hfit.
  symmetry in E. rewrite app_assoc in E.
  destruct (app_eq_split (pre ++ pat) post a x E) as (a' & -> & _).
  { rewrite length_app. lia. }
  exists pre, (a' ++ y). split; [now rewrite <- !app_assoc | exact L].
Qed.

Lemma indexOf_eq (s pat : str) :
  indexOf s pat =
  if startsWith pat s then 0
  else match s with
       | [] => -1
       | _ :: s' => let r := indexOf s' pat in if r <? 0 then -1 else 1 + r
       end.
Proof. destruct s; reflexivity. Qed.

(** [indexOf] finds the first occurrence. *)
Lemma indexOf_first (s pat : str) (i : nat) :
  occursAt pat s i -> (forall j, (j < i)%nat -> ~ occursAt pat s j) ->
  indexOf s pat = Z.of_nat i.
Proof.
  revert i. induction s as [|c s IH]; intros i Hocc Hmin; rewrite indexOf_eq.
  - destruct i.
    + apply occursAt_0 in Hocc. now rewrite Hocc.
    + apply occursAt_bound in Hocc. cbn in Hocc. lia.
  - destruct i as [|i].
    + apply occursAt_0 in Hocc. now rewrite Hocc.
    + destruct (startsWith pat (c :: s)) eqn:E.
      * apply occursAt_0 in E. exfalso. apply (Hmin 0%nat); [lia | exact E].
      * cbv zeta. rewrite (IH i).
        -- destruct (Z.ltb_spec (Z.of_nat i) 0); lia.
        -- now apply occursAt_S in Hocc.
        -- intros j Hj Hoc. apply (Hmin (S j)); [lia|]. now apply occursAt_S.
Qed.

(** [indexOf] is -1 when there is no occurrence. *)
Lemma indexOf_none (s pat : str) :
  (forall i, ~ occursAt pat s i) -> indexOf s pat = -1.
Proof.
  induction s as [|c s IH]; intros Hno; rewrite indexOf_eq.
  - destruct (startsWith pat []) eqn:E; [|reflexivity].
    apply occursAt_0 in E. now apply Hno in E.
  - destruct (startsWith pat (c :: s)) eqn:E.
    + apply occursAt_0 in E. now apply Hno in E.
    + cbv zeta. rewrite IH; [reflexivity|].
      intros i Hoc. apply (Hno (S i)). now apply occursAt_S.
Qed.

Lemma toLowerCase_app (a b : str) :
  toLowerCase (a ++ b) = toLowerCase a ++ toLowerCase b.
Proof. apply map_app. Qed.

Lemma toLowerCase_length (a : str) : List.length (toLowerCase a) = List.length a.
Proof. apply length_map. Qed.

End Strings.

(** ** The stub *)

Section Stub.

Lemma STUB_END_parts : STUB_END = STUB_END_token ++ STUB_END_rest.
Proof. reflexivity. Qed.

Lemma STUB_END_token_lower : toLowerCase STUB_END_token = halt_token.
Proof. reflexivity. Qed.

Lemma STUB_END_length : List.length STUB_END = 23%nat.
Proof. reflexivity. Qed.

Lemma halt_token_length : List.length halt_token = 18%nat.
Proof. reflexivity. Qed.

(** Where the terminator occurs, the token occurs in the lowered text. *)
Lemma occursAt_STUB_END_token (t : str) (k : nat) :
  occursAt STUB_END t k -> occursAt halt_token (toLowerCase t) k.
Proof.
  intros (pre & post & -> & L).
  exists (toLowerCase pre), (toLowerCase (STUB_END_rest ++ post)). split.
  - rewrite STUB_END_parts, <- app_assoc, !toLowerCase_app, STUB_END_token_lower.
    reflexivity.
  - now rewrite toLowerCase_length.
Qed.

Variable s : str.
Variable i : nat.
Hypothesis Hocc : occursAt halt_token (toLowerCase s) i.
Hypothesis Hmin : forall j, (j < i)%nat -> ~ occursAt halt_token (toLowerCase s) j.

Lemma firstn_token_length : List.length (firstn i s) = i.
Proof.
  apply occursAt_bound in Hocc. rewrite toLowerCase_length in Hocc.
  rewrite length_firstn. lia.
Qed.

Lemma lower_s_parts :
  exists post, toLowerCase s = (toLowerCase (firstn i s) ++ halt_token) ++ post.
Proof.
  destruct Hocc as (p1 & p2 & E & L). exists p2.
  unfold toLowerCase in *. rewrite <- firstn_map, E.
  rewrite firstn_app, L, Nat.sub_diag, <- L, firstn_all. cbn [firstn].
  now rewrite app_nil_r, <- app_assoc.
Qed.

Lemma lower_normalized_parts :
  toLowerCase (normalized s i)
  = (toLowerCase (firstn i s) ++ halt_token) ++ toLowerCase STUB_END_rest.
Proof.
  unfold normalized.
  rewrite STUB_END_parts, !toLowerCase_app, STUB_END_token_lower.
  now rewrite app_assoc.
Qed.

(** The token does not occur in the normalized stub before position [i]. *)
Lemma normalized_no_earlier_token (j : nat) :
  (j < i)%nat -> ~ occursAt halt_token (toLowerCase (normalized s i)) j.
Proof.
  intros Hj Hoc. apply (Hmin j Hj).
  destruct lower_s_parts as [post ->].
  rewrite lower_normalized_parts in Hoc.
  apply occursAt_within with (x := toLowerCase STUB_END_rest); [exact Hoc|].
  rewrite length_app, toLowerCase_length, firstn_token_length, halt_token_length.
  lia.
Qed.

Lemma normalized_token_at_i : occursAt halt_token (toLowerCase (normalized s i)) i.
Proof.
  exists (toLowerCase (firstn i s)), (toLowerCase STUB_END_rest). split.
  - now rewrite lower_normalized_parts, <- app_assoc.
  - now rewrite toLowerCase_length, firstn_token_length.
Qed.

Lemma setStub_first (this : Phar.t) :
  Phar.setStub s this = Ok (Phar.with_stub (normalized s i) this).
Proof.
  unfold Phar.setStub. fold halt_token.
  rewrite (indexOf_first _ _ i Hocc Hmin).
  destruct (Z.eqb_spec (Z.of_nat i) (-1)) as [E | _]; [lia|].
  do 2 f_equal. unfold normalized. f_equal.
  pose proof Hocc as Hb. apply occursAt_bound in Hb.
  rewrite toLowerCase_length in Hb.
  rewrite substring_inside by (unfold len; lia).
  cbn [Z.to_nat skipn]. now rewrite Z.sub_0_r, Nat2Z.id.
Qed.

Lemma setStub_normalized (that : Phar.t) :
  Phar.setStub (normalized s i) that = Ok (Phar.with_stub (normalized s i) that).
Proof.
  unfold Phar.setStub. fold halt_token.
  rewrite (indexOf_first _ _ i normalized_token_at_i normalized_no_earlier_token).
  destruct (Z.eqb_spec (Z.of_nat i) (-1)) as [E | _]; [lia|].
  do 2 f_equal.
  transitivity (substring (firstn i s ++ STUB_END) 0 (len (firstn i s)) ++ STUB_END).
  - unfold len. now rewrite firstn_token_length.
  - now rewrite substring_prefix.
Qed.

Lemma normalized_one_terminator (k : nat) :
  occursAt STUB_END (normalized s i) k <-> k = i.
Proof.
  split.
  - intros Hk.
    pose proof (occursAt_bound _ _ _ Hk) as Hb.
    unfold normalized in Hb. rewrite length_app, firstn_token_length in Hb.
    destruct (Nat.eq_dec k i) as [E | N]; [exact E|].
    exfalso. apply (normalized_no_earlier_token k); [lia|].
    now apply occursAt_STUB_END_token.
  - intros ->. exists (firstn i s), []. split; [|apply firstn_token_length].
    unfold normalized. now rewrite app_nil_r.
Qed.

End Stub.

Lemma indexOf_sound (s pat : str) (r : Z) :
  indexOf s pat = r -> 0 <= r ->
  occursAt pat s (Z.to_nat r)
  /\ forall j, (j < Z.to_nat r)%nat -> ~ occursAt pat s j.
Proof.
  revert r. induction s as [|c s IH]; intros r E Hr; rewrite indexOf_eq in E.
  - destruct (startsWith pat []) eqn:Hs; [|lia].
    subst r. split; [now apply occursAt_0 | intros j Hj; cbn in Hj; lia].
  - destruct (startsWith pat (c :: s)) eqn:Hs.
    + subst r. split; [now apply occursAt_0 | intros j Hj; cbn in Hj; lia].
    + cbv zeta in E.
      destruct (Z.ltb_spec (indexOf s pat) 0) as [Hneg | Hpos]; [lia|].
      destruct (IH (indexOf s pat) eq_refl Hpos) as [Hocc Hmin].
      subst r. replace (Z.to_nat (1 + indexOf s pat)) with (S (Z.to_nat (indexOf s pat))) by lia.
      split; [now apply occursAt_S|].
      intros [|j] Hj Hoc.
      * apply occursAt_0 in Hoc. congruence.
      * apply occursAt_S in Hoc. apply (Hmin j); [lia | exact Hoc].
Qed.

(** C8, amended. The terminator [STUB_END] has 23 octets. For every octet
    string [s] (code units below 256; [setStub] cuts [s] at a position found
    in its lowered text, and the two agree in length on these strings): when
    the lowered text of [s] holds the token [__halt_compiler();], first at
    position [i],
    [setStub s] stores the first [i] octets of [s] followed by [STUB_END];
    that stub holds [STUB_END] once, at its end; and [setStub] of the stored
    stub stores it again unchanged. When the lowered text of [s] does not
    hold the token, [setStub s] raises [InvalidPrelude]. *)
Theorem setStub_normalizes (s : str) (this : Phar.t) :
  len STUB_END = 23
  /\ (forall i : nat,
        occursAt halt_token (toLowerCase s) i ->
        (forall j, (j < i)%nat -> ~ occursAt halt_token (toLowerCase s) j) ->
        let stub := normalized s i in
        let this' := Phar.with_stub stub this in
        Phar.setStub s this = Ok this'
        /\ (forall k, occursAt STUB_END stub k <-> k = List.length (firstn i s))
        /\ Phar.setStub (Phar.getStub this') this' = Ok this')
  /\ ((forall i, ~ occursAt halt_token (toLowerCase s) i) ->
      Phar.setStub s this = Throw InvalidPrelude).
Proof.
  split; [reflexivity|]. split.
  - intros i Hocc Hmin stub this'. split; [|split].
    + now apply setStub_first.
    + intros k. rewrite (firstn_token_length s i Hocc).
      now apply normalized_one_terminator.
    + unfold Phar.getStub, this'. cbn [Phar.stub Phar.with_stub].
      unfold stub. rewrite (setStub_normalized s i Hocc Hmin). reflexivity.
  - intros Hno. unfold Phar.setStub. fold halt_token.
    rewrite (indexOf_none _ _ Hno). reflexivity.
Qed.

(** The theorem on the text of scenario S7, whose token starts at
    position 14, and on a text with no token. *)
Lemma setStub_normalizes_witness :
  let s := lit "<?php echo 1; __HALT_COMPILER(); trailing garbage" in
  let stub := lit "<?php echo 1; " ++ STUB_END in
  let this' := Phar.with_stub stub Phar.blank in
  (Phar.setStub s Phar.blank = Ok this'
   /\ (forall k, occursAt STUB_END stub k <-> k = 14%nat)
   /\ Phar.setStub (Phar.getStub this') this' = Ok this')
  /\ Phar.setStub (lit "<?php echo 1;") Phar.blank = Throw InvalidPrelude.
Proof.
  intros s stub this'.
  destruct (indexOf_sound (toLowerCase s) halt_token 14 eq_refl ltac:(lia))
    as [Hocc Hmin].
  split.
  - exact (proj1 (proj2 (setStub_normalizes s Phar.blank)) 14%nat Hocc Hmin).
  - apply (proj2 (proj2 (setStub_normalizes (lit "<?php echo 1;") Phar.blank))).
    intros i Hoc. apply occursAt_bound in Hoc. cbn in Hoc. lia.
Defined.

(** C8 as stated fails on the length: the terminator that [setStub] appends
    has 23 octets, not 24. *)
Lemma setStub_terminator_is_not_24_octets :
  Phar.setStub (lit "<?php __halt_compiler();") Phar.blank
  = Ok (Phar.with_stub (lit "<?php " ++ STUB_END) Phar.blank)
  /\ len STUB_END = 23
  /\ len STUB_END <> 24.
Proof.
  split; [reflexivity|]. split; [reflexivity|]. cbn. lia.
Qed.

(** ** The trailer of an encoded archive *)

Section Trailer.
Context {ext : Externals}.

(** The two [switch] statements pick the same hasher. *)
Lemma saveHasher_loadHasher (signature_type : Z) (hasher : str -> str) :
  Phar.saveHasher signature_type = Ok hasher ->
  exists hash_len, Phar.loadHasher signature_type = Ok (hash_len, hasher).
Proof.
  unfold Phar.saveHasher, Phar.loadHasher.
  repeat match goal with
         | |- context [?a =? ?b] => destruct (a =? b)
         end; intros E; inversion E; subst; eauto; discriminate.
Qed.

Lemma saveHasher_cases (signature_type : Z) (hasher : str -> str) :
  Phar.saveHasher signature_type = Ok hasher ->
  (signature_type = SIGNATURE_MD5 /\ hasher = MD5_raw)
  \/ (signature_type = SIGNATURE_SHA1 /\ hasher = SHA1_raw)
  \/ (signature_type = SIGNATURE_SHA256 /\ hasher = SHA256_raw)
  \/ (signature_type = SIGNATURE_SHA512 /\ hasher = SHA512_raw).
Proof.
  unfold Phar.saveHasher.
  destruct (Z.eqb_spec signature_type SIGNATURE_MD5);
    [intros E; inversion E; auto|].
  destruct (Z.eqb_spec signature_type SIGNATURE_SHA1);
    [intros E; inversion E; auto|].
  destruct (Z.eqb_spec signature_type SIGNATURE_SHA256);
    [intros E; inversion E; auto|].
  destruct (Z.eqb_spec signature_type SIGNATURE_SHA512);
    [intros E; inversion E; auto 6|].
  discriminate.
Qed.

(** What [savePharData] returns: the signed bytes, their digest, the
    signature type, the magic. *)
Lemma savePharData_parts (this : Phar.t) (out : str) :
  Phar.savePharData this = Ok out ->
  exists buffer hasher,
    Phar.writeArchive this = Ok buffer
    /\ Phar.saveHasher (Phar.signature_type this) = Ok hasher
    /\ out = sign hasher (Phar.signature_type this) (BinaryBuffer.buffer buffer).
Proof.
  unfold Phar.savePharData.
  destruct (Phar.writeArchive this) as [buffer | e]; [|discriminate].
  cbn [bind].
  destruct (Phar.saveHasher (Phar.signature_type this)) as [hasher | e];
    [|discriminate].
  cbn [bind]. intros E. injection E as <-.
  exists buffer, hasher. split; [reflexivity|]. split; [reflexivity|].
  cbn [BinaryBuffer.buffer BinaryBuffer.put BinaryBuffer.putLInt].
  unfold sign. now rewrite <- !app_assoc.
Qed.

End Trailer.

(** C4. The buffer [savePharData] produces ends with the raw digest of all
    the bytes before it, computed by the hasher that [signature_type]
    selects (16 octets for MD5, 20 for SHA1, 32 for SHA256, 64 for SHA512,
    as [Hashes] delivers them), then [signature_type] as a little-endian
    32-bit number, then the four octets [GBMB]. *)
Theorem savePharData_trailer (ext : Externals) (this : Phar.t) (out : str) :
  digestLengths ext ->
  Phar.savePharData this = Ok out ->
  exists signed digest,
    out = signed ++ digest ++ Binary.writeLInt (Phar.signature_type this) ++ END_MAGIC
    /\ ((Phar.signature_type this = SIGNATURE_MD5
         /\ digest = MD5_raw signed /\ len digest = 16)
        \/ (Phar.signature_type this = SIGNATURE_SHA1
            /\ digest = SHA1_raw signed /\ len digest = 20)
        \/ (Phar.signature_type this = SIGNATURE_SHA256
            /\ digest = SHA256_raw signed /\ len digest = 32)
        \/ (Phar.signature_type this = SIGNATURE_SHA512
            /\ digest = SHA512_raw signed /\ len digest = 64))
    /\ len (Binary.writeLInt (Phar.signature_type this)) = 4
    /\ Binary.readLInt (Binary.writeLInt (Phar.signature_type this))
       = Phar.signature_type this
    /\ END_MAGIC = ["G"; "B"; "M"; "B"]%char.
Proof.
  intros Hlen Hsave.
  destruct (savePharData_parts this out Hsave) as (buffer & hasher & _ & Hh & ->).
  set (signed := BinaryBuffer.buffer buffer). unfold sign.
  exists signed, (hasher signed).
  destruct (Hlen signed) as (L1 & L2 & L3 & L4).
  split; [reflexivity|].
  apply saveHasher_cases in Hh.
  split; [|split; [reflexivity|split; [|reflexivity]]].
  - destruct Hh as [[E ->] | [[E ->] | [[E ->] | [E ->]]]]; auto 10.
  - destruct Hh as [[E _] | [[E _] | [[E _] | [E _]]]]; rewrite E; reflexivity.
Qed.

Lemma checksumDigest_length (n : nat) (s : str) :
  List.length (checksumDigest n s) = n.
Proof.
  unfold checksumDigest.
  rewrite length_firstn, length_app, repeat_length. lia.
Qed.

Lemma standIn_digestLengths : digestLengths standIn.
Proof.
  intros s. unfold len. cbn [MD5_raw SHA1_raw SHA256_raw SHA512_raw standIn].
  now rewrite !checksumDigest_length.
Qed.

(** The theorem on the archive of scenario S1. *)
Lemma savePharData_trailer_witness :
  exists out,
    Phar.savePharData (ext := standIn) scenario_S1 = Ok out
    /\ exists signed digest,
         out = signed ++ digest
               ++ Binary.writeLInt (Phar.signature_type scenario_S1) ++ END_MAGIC
         /\ ((Phar.signature_type scenario_S1 = SIGNATURE_MD5
              /\ digest = @MD5_raw standIn signed /\ len digest = 16)
             \/ (Phar.signature_type scenario_S1 = SIGNATURE_SHA1
                 /\ digest = @SHA1_raw standIn signed /\ len digest = 20)
             \/ (Phar.signature_type scenario_S1 = SIGNATURE_SHA256
                 /\ digest = @SHA256_raw standIn signed /\ len digest = 32)
             \/ (Phar.signature_type scenario_S1 = SIGNATURE_SHA512
                 /\ digest = @SHA512_raw standIn signed /\ len digest = 64))
         /\ len (Binary.writeLInt (Phar.signature_type scenario_S1)) = 4
         /\ Binary.readLInt (Binary.writeLInt (Phar.signature_type scenario_S1))
            = Phar.signature_type scenario_S1
         /\ END_MAGIC = ["G"; "B"; "M"; "B"]%char.
Proof.
  destruct (Phar.savePharData (ext := standIn) scenario_S1) as [out | e] eqn:E.
  - exists out. split; [reflexivity|].
    exact (savePharData_trailer standIn scenario_S1 out standIn_digestLengths E).
  - vm_compute in E. discriminate E.
Defined.

(** ** Flipped bits *)

Section BitFlips.

Lemma flipBit_neq (k : Z) (c : ascii) : 0 <= k < 8 -> flipBit k c <> c.
Proof.
  intros Hk.
  assert (K : k = 0 \/ k = 1 \/ k = 2 \/ k = 3 \/ k = 4 \/ k = 5 \/ k = 6 \/ k = 7)
    by lia.
  destruct c as [b0 b1 b2 b3 b4 b5 b6 b7].
  decompose [or] K; subst k;
    destruct b0, b1, b2, b3, b4, b5, b6, b7; vm_compute; discriminate.
Qed.

Lemma flipAt_length (i : nat) (k : Z) (s : str) :
  List.length (flipAt i k s) = List.length s.
Proof.
  revert i. induction s as [|c s IH]; intros [|i]; cbn; auto.
Qed.

Lemma flipAt_app_l (i : nat) (k : Z) (a b : str) :
  (i < List.length a)%nat -> flipAt i k (a ++ b) = flipAt i k a ++ b.
Proof.
  revert i. induction a as [|c a IH]; intros i Hi; cbn in Hi; [lia|].
  destruct i as [|i]; cbn; [reflexivity|]. rewrite IH by lia. reflexivity.
Qed.

Lemma flipAt_app_r (i : nat) (k : Z) (a b : str) :
  (List.length a <= i)%nat ->
  flipAt i k (a ++ b) = a ++ flipAt (i - List.length a) k b.
Proof.
  revert i. induction a as [|c a IH]; intros i Hi; cbn in *.
  - now rewrite Nat.sub_0_r.
  - destruct i as [|i]; [lia|]. cbn. rewrite IH by lia. reflexivity.
Qed.

Lemma flipAt_neq (i : nat) (k : Z) (s : str) :
  (i < List.length s)%nat -> 0 <= k < 8 -> flipAt i k s <> s.
Proof.
  intros Hi Hk. revert i Hi.
  induction s as [|c s IH]; intros i Hi; cbn in Hi; [lia|].
  destruct i as [|i]; cbn; intros E.
  - injection E as Hc. exact (flipBit_neq k c Hk Hc).
  - injection E as Hs. apply (IH i); [lia | exact Hs].
Qed.

End BitFlips.

(** ** The signature check *)

Section Signature.
Context {ext : Externals}.

(** The four slices [loadPharData] cuts out of its buffer. *)
Lemma four_slices (p1 p2 p3 p4 : str) :
  let b := p1 ++ p2 ++ p3 ++ p4 in
  substring b 0 (len p1) = p1
  /\ substring b (len p1) (len p1 + len p2) = p2
  /\ substring b (len p1 + len p2) (len p1 + len p2 + len p3) = p3
  /\ substringFrom b (len p1 + len p2 + len p3) = p4.
Proof.
  cbv zeta. split; [apply substring_prefix|].
  split; [apply substring_middle|]. split.
  - rewrite (app_assoc p1 p2), <- len_app. apply substring_middle.
  - rewrite (app_assoc p1 p2), (app_assoc (p1 ++ p2) p3), <- !len_app.
    apply substringFrom_suffix.
Qed.

Lemma verifySignature_slices (signed digest kind : str) :
  len kind = 4 ->
  Phar.verifySignature (signed ++ digest ++ kind ++ END_MAGIC)
  = let* (hash_len, hasher) := Phar.loadHasher (Binary.readLInt kind) in
    let buffer := signed ++ digest ++ kind ++ END_MAGIC in
    let pos := len signed + len digest in
    if negb (str_eqb (hasher (substring buffer 0 (pos - hash_len)))
                     (substring buffer (pos - hash_len) pos))
    then Throw SignatureInvalid
    else Ok (substring buffer 0 (pos - hash_len)).
Proof.
  intros Hkind.
  destruct (four_slices signed digest kind END_MAGIC) as (_ & _ & E3 & E4).
  cbv zeta in E3, E4.
  unfold Phar.verifySignature. cbv zeta.
  set (buffer := signed ++ digest ++ kind ++ END_MAGIC) in *.
  assert (L : len buffer = len signed + len digest + 4 + 4).
  { unfold buffer. rewrite !len_app, Hkind. change (len END_MAGIC) with 4. lia. }
  replace (len buffer - 4) with (len signed + len digest + len kind) by lia.
  rewrite E4, str_eqb_refl. cbn [negb].
  replace (len signed + len digest + len kind - 4) with (len signed + len digest)
    by lia.
  replace (len signed + len digest + 4) with (len signed + len digest + len kind)
    by lia.
  rewrite E3. reflexivity.
Qed.

(** An unknown signature type is refused before anything is hashed. *)
Lemma verifySignature_unknown (body kind : str) (e : error) :
  len kind = 4 ->
  Phar.loadHasher (Binary.readLInt kind) = Throw e ->
  Phar.verifySignature (body ++ kind ++ END_MAGIC) = Throw e.
Proof.
  intros Hkind Hh.
  change (body ++ kind ++ END_MAGIC) with (body ++ [] ++ kind ++ END_MAGIC).
  rewrite verifySignature_slices by exact Hkind.
  rewrite Hh. reflexivity.
Qed.

(** With a known type and a digest of its length, the check compares the
    hash of the signed bytes with the digest. *)
Lemma verifySignature_digest (signed digest kind : str)
      (hash_len : Z) (hasher : str -> str) :
  len kind = 4 ->
  Phar.loadHasher (Binary.readLInt kind) = Ok (hash_len, hasher) ->
  len digest = hash_len ->
  Phar.verifySignature (signed ++ digest ++ kind ++ END_MAGIC)
  = if str_eqb (hasher signed) digest then Ok signed else Throw SignatureInvalid.
Proof.
  intros Hkind Hh Hd.
  rewrite verifySignature_slices by exact Hkind.
  rewrite Hh. cbn [bind]. cbv zeta.
  destruct (four_slices signed digest kind END_MAGIC) as (E1 & E2 & _ & _).
  cbv zeta in E1, E2.
  replace (len signed + len digest - hash_len) with (len signed) by lia.
  rewrite E1, E2.
  destruct (str_eqb (hasher signed) digest); reflexivity.
Qed.

Lemma loadHasher_length (signature_type hash_len : Z) (hasher : str -> str) :
  digestLengths ext ->
  Phar.loadHasher signature_type = Ok (hash_len, hasher) ->
  forall s, len (hasher s) = hash_len.
Proof.
  intros Hlen. unfold Phar.loadHasher.
  repeat match goal with
         | |- context [?a =? ?b] => destruct (a =? b)
         end; intros E s; inversion E; subst; try apply (Hlen s).
Qed.

(** No single bit of a written signature type leads to another known
    type. *)
Lemma flipped_signature_type (signature_type : Z) (hasher : str -> str)
      (j : nat) (k : Z) :
  Phar.saveHasher signature_type = Ok hasher ->
  (j < 4)%nat -> 0 <= k < 8 ->
  Phar.loadHasher (Binary.readLInt (flipAt j k (Binary.writeLInt signature_type)))
  = Throw UnknownSignatureDetected.
Proof.
  intros Hs Hj Hk.
  assert (K : k = 0 \/ k = 1 \/ k = 2 \/ k = 3 \/ k = 4 \/ k = 5 \/ k = 6 \/ k = 7)
    by lia.
  assert (J : (j = 0 \/ j = 1 \/ j = 2 \/ j = 3)%nat) by lia.
  apply saveHasher_cases in Hs.
  decompose [or and] Hs; decompose [or] K; decompose [or] J; subst;
    vm_compute; reflexivity.
Qed.

End Signature.

Section Integrity.
Context {ext : Externals}.

Lemma loadPharData_refused (buffer : str) (that : Phar.t) (realm : Realm) (e : error) :
  Phar.verifySignature buffer = Throw e ->
  Phar.loadPharData buffer that realm = (Throw e, realm).
Proof. intros E. unfold Phar.loadPharData. now rewrite E. Qed.

Lemma saveHasher_readLInt (signature_type : Z) (hasher : str -> str) :
  Phar.saveHasher signature_type = Ok hasher ->
  Binary.readLInt (Binary.writeLInt signature_type) = signature_type.
Proof.
  intros Hs. apply saveHasher_cases in Hs.
  decompose [or and] Hs; subst; reflexivity.
Qed.

Variables (signed : str) (signature_type hash_len : Z) (hasher : str -> str).
Hypothesis Hlen : digestLengths ext.
Hypothesis Hsave : Phar.saveHasher signature_type = Ok hasher.
Hypothesis Hload : Phar.loadHasher signature_type = Ok (hash_len, hasher).

Lemma digest_length : List.length (hasher signed) = Z.to_nat hash_len.
Proof.
  pose proof (loadHasher_length _ _ _ Hlen Hload signed) as L.
  unfold len in L. lia.
Qed.

(** A flip inside the signature type. *)
Lemma flip_in_signature_type (that : Phar.t) (realm : Realm) (i : nat) (k : Z) :
  (List.length signed + List.length (hasher signed) <= i)%nat ->
  (i < List.length signed + List.length (hasher signed) + 4)%nat ->
  0 <= k < 8 ->
  Phar.loadPharData (flipAt i k (sign hasher signature_type signed)) that realm
  = (Throw UnknownSignatureDetected, realm).
Proof.
  intros Hlo Hhi Hk. apply loadPharData_refused. unfold sign.
  rewrite flipAt_app_r, flipAt_app_r, flipAt_app_l
    by (rewrite ?writeLInt_length; lia).
  rewrite app_assoc.
  apply verifySignature_unknown.
  - unfold len. rewrite flipAt_length, writeLInt_length. reflexivity.
  - apply (flipped_signature_type _ hasher); [exact Hsave | lia | exact Hk].
Qed.

(** A flip inside the digest. *)
Lemma flip_in_digest (that : Phar.t) (realm : Realm) (i : nat) (k : Z) :
  (List.length signed <= i)%nat ->
  (i < List.length signed + List.length (hasher signed))%nat ->
  0 <= k < 8 ->
  Phar.loadPharData (flipAt i k (sign hasher signature_type signed)) that realm
  = (Throw SignatureInvalid, realm).
Proof.
  intros Hlo Hhi Hk. apply loadPharData_refused. unfold sign.
  rewrite flipAt_app_r, flipAt_app_l by lia.
  rewrite (verifySignature_digest _ _ _ hash_len hasher).
  - rewrite str_eqb_neq; [reflexivity|].
    intros E. symmetry in E. revert E. apply flipAt_neq; [lia | exact Hk].
  - reflexivity.
  - now rewrite (saveHasher_readLInt _ _ Hsave).
  - unfold len. rewrite flipAt_length, digest_length.
    pose proof (loadHasher_length _ _ _ Hlen Hload signed). unfold len in *. lia.
Qed.

(** A flip inside the signed bytes, when the hasher tells them apart. *)
Lemma flip_in_signed (that : Phar.t) (realm : Realm) (i : nat) (k : Z) :
  (i < List.length signed)%nat ->
  hasher (flipAt i k signed) <> hasher signed ->
  Phar.loadPharData (flipAt i k (sign hasher signature_type signed)) that realm
  = (Throw SignatureInvalid, realm).
Proof.
  intros Hi Hdiff. apply loadPharData_refused. unfold sign.
  rewrite flipAt_app_l by lia.
  rewrite (verifySignature_digest _ _ _ hash_len hasher).
  - rewrite str_eqb_neq; [reflexivity | exact Hdiff].
  - reflexivity.
  - now rewrite (saveHasher_readLInt _ _ Hsave).
  - apply (loadHasher_length _ _ _ Hlen Hload).
Qed.

Lemma sign_length :
  len (sign hasher signature_type signed) = len signed + hash_len + 4 + 4.
Proof.
  unfold sign. rewrite !len_app.
  rewrite (loadHasher_length _ _ _ Hlen Hload signed).
  change (len (Binary.writeLInt signature_type)) with 4.
  change (len END_MAGIC) with 4. lia.
Qed.

End Integrity.

(** C2, amended. Take a buffer [savePharData] produced, flip one bit of it
    before the four octets of the magic, and decode. A flip in the four
    octets of the signature type fails with [UnknownSignatureDetected]; a flip
    in the digest fails with [SignatureInvalid]; a flip in the signed bytes
    fails with [SignatureInvalid] whenever the hasher gives the flipped bytes
    a digest other than the stored one. In each case nothing is decoded. *)
Theorem bit_flip_is_rejected (ext : Externals) (this that : Phar.t) (realm : Realm)
        (out : str) (i : nat) (k : Z) :
  digestLengths ext ->
  Phar.savePharData this = Ok out ->
  Z.of_nat i < len out - 4 ->
  0 <= k < 8 ->
  exists hash_len hasher,
    Phar.loadHasher (Phar.signature_type this) = Ok (hash_len, hasher)
    /\ (len out - 8 <= Z.of_nat i ->
        Phar.loadPharData (flipAt i k out) that realm
        = (Throw UnknownSignatureDetected, realm))
    /\ (len out - 8 - hash_len <= Z.of_nat i < len out - 8 ->
        Phar.loadPharData (flipAt i k out) that realm
        = (Throw SignatureInvalid, realm))
    /\ (Z.of_nat i < len out - 8 - hash_len ->
        hasher (substring (flipAt i k out) 0 (len out - 8 - hash_len))
        <> hasher (substring out 0 (len out - 8 - hash_len)) ->
        Phar.loadPharData (flipAt i k out) that realm
        = (Throw SignatureInvalid, realm)).
Proof.
  intros Hlen Hsave Hi Hk.
  destruct (savePharData_parts this out Hsave) as (buffer & hasher & _ & Hh & ->).
  set (signed := BinaryBuffer.buffer buffer) in *.
  destruct (saveHasher_loadHasher _ _ Hh) as [hash_len Hl].
  exists hash_len, hasher. split; [exact Hl|].
  pose proof (sign_length signed _ hash_len hasher Hlen Hl) as Lout.
  pose proof (loadHasher_length _ _ _ Hlen Hl signed) as Ld.
  assert (Ls : len signed = Z.of_nat (List.length signed)) by reflexivity.
  assert (Lh : len (hasher signed) = Z.of_nat (List.length (hasher signed)))
    by reflexivity.
  rewrite Lout in *.
  split; [|split].
  - intros Hlo.
    apply (flip_in_signature_type signed _ hasher Hh); lia.
  - intros Hmid.
    apply (flip_in_digest signed _ hash_len hasher Hlen Hh Hl); lia.
  - intros Hlow Hdiff.
    apply (flip_in_signed signed _ hash_len hasher Hlen Hh Hl); [lia|].
    replace (len signed + hash_len + 4 + 4 - 8 - hash_len)
      with (len signed) in Hdiff by lia.
    unfold sign in Hdiff.
    rewrite flipAt_app_l in Hdiff by lia.
    rewrite substring_prefix in Hdiff.
    replace (len signed) with (len (flipAt i k signed)) in Hdiff
      by (unfold len; now rewrite flipAt_length).
    now rewrite substring_prefix in Hdiff.
Qed.

Lemma scenario_S1_saved :
  Phar.savePharData (ext := standIn) scenario_S1 = Ok scenario_S1_bytes.
Proof. vm_compute. reflexivity. Qed.

(** The theorem on the archive of scenario S1: bit 0 of octet 106 (the
    signature type), bit 7 of octet 90 (the digest), bit 3 of octet 10 (the
    stub). *)
Lemma bit_flip_is_rejected_witness :
  Phar.loadPharData (ext := standIn) (flipAt 106 0 scenario_S1_bytes)
                    Phar.blank (pageRealm 0)
  = (Throw UnknownSignatureDetected, pageRealm 0)
  /\ Phar.loadPharData (ext := standIn) (flipAt 90 7 scenario_S1_bytes)
                       Phar.blank (pageRealm 0)
     = (Throw SignatureInvalid, pageRealm 0)
  /\ Phar.loadPharData (ext := standIn) (flipAt 10 3 scenario_S1_bytes)
                       Phar.blank (pageRealm 0)
     = (Throw SignatureInvalid, pageRealm 0).
Proof.
  assert (L : len scenario_S1_bytes = 114) by reflexivity.
  split; [|split].
  - destruct (bit_flip_is_rejected standIn scenario_S1 Phar.blank (pageRealm 0)
                scenario_S1_bytes 106 0 standIn_digestLengths scenario_S1_saved)
      as (hash_len & hasher & Hl & A & _); [lia | lia |].
    apply A. lia.
  - destruct (bit_flip_is_rejected standIn scenario_S1 Phar.blank (pageRealm 0)
                scenario_S1_bytes 90 7 standIn_digestLengths scenario_S1_saved)
      as (hash_len & hasher & Hl & _ & B & _); [lia | lia |].
    injection Hl as <- <-. apply B. lia.
  - destruct (bit_flip_is_rejected standIn scenario_S1 Phar.blank (pageRealm 0)
                scenario_S1_bytes 10 3 standIn_digestLengths scenario_S1_saved)
      as (hash_len & hasher & Hl & _ & _ & C); [lia | lia |].
    injection Hl as <- <-. apply C; [lia|].
    vm_compute. discriminate.
Defined.

(** C2 as stated fails on a flip in the signature type: bit 0 of octet 106
    of the S1 buffer lies before the magic, and decoding fails with
    [UnknownSignatureDetected], which is none of the kinds the claim lists. *)
Lemma bit_flip_in_signature_type :
  Phar.savePharData (ext := standIn) scenario_S1 = Ok scenario_S1_bytes
  /\ 106 < len scenario_S1_bytes - 4
  /\ fst (Phar.loadPharData (ext := standIn) (flipAt 106 0 scenario_S1_bytes)
                            Phar.blank (pageRealm 0))
     = Throw UnknownSignatureDetected
  /\ ~ In UnknownSignatureDetected
          [SignatureInvalid; FileCorrupt; OutOfBounds; PreludeTerminatorMissing].
Proof.
  split; [exact scenario_S1_saved|].
  split; [reflexivity|].
  split; [vm_compute; reflexivity|].
  cbn. intuition discriminate.
Qed.

(** ** Decoding what was encoded *)

Section RoundTrip.
Context {ext : Externals}.

(** On a signed buffer the signature check passes and decoding goes on with
    the signed bytes. *)
Lemma loadPharData_signed (signed : str) (signature_type hash_len : Z)
      (hasher : str -> str) (that : Phar.t) (realm : Realm) :
  digestLengths ext ->
  Phar.saveHasher signature_type = Ok hasher ->
  Phar.loadHasher signature_type = Ok (hash_len, hasher) ->
  Phar.loadPharData (sign hasher signature_type signed) that realm
  = let start :=
      {| Phar.scope := realm; Phar.receiver := that;
         Phar.buffer := BinaryBuffer.new None;
         Phar.manifest_buffer := BinaryBuffer.new None |} in
    let (r, s) := Phar.readArchive signed start in
    (match r with Ok _ => Ok (Phar.receiver s) | Throw e => Throw e end,
     Phar.scope s).
Proof.
  intros Hlen Hs Hl. unfold Phar.loadPharData, sign.
  rewrite (verifySignature_digest _ _ _ hash_len hasher).
  - now rewrite str_eqb_refl.
  - reflexivity.
  - now rewrite (saveHasher_readLInt _ _ Hs).
  - apply (loadHasher_length _ _ _ Hlen Hl).
Qed.

(** The signed bytes of scenario S1 do not depend on the libraries. *)
Lemma scenario_S1_written :
  Phar.writeArchive scenario_S1
  = Ok {| BinaryBuffer.buffer := firstn 86 scenario_S1_bytes;
          BinaryBuffer.offset := 0 |}.
Proof. vm_compute. reflexivity. Qed.

End RoundTrip.

(** C1. Decoding the encoding of an archive should give the archive back.
    For the archive of scenario S1, whatever the hash library, the decoder on
    a page that declares no [time] stops at the first entry: constructing
    the [PharFile] raises [ReferenceError] on [time], and no archive is
    returned. *)
Theorem scenario_S1_does_not_round_trip
        (ext : Externals) (that : Phar.t) (now : Z) (out : str) :
  digestLengths ext ->
  Phar.savePharData scenario_S1 = Ok out ->
  Phar.loadPharData out that (pageRealm now)
  = (Throw (ReferenceError "time"), pageRealm now).
Proof.
  intros Hlen Hsave.
  destruct (savePharData_parts _ _ Hsave) as (buffer & hasher & Hw & Hh & ->).
  rewrite scenario_S1_written in Hw. injection Hw as <-.
  destruct (saveHasher_loadHasher _ _ Hh) as [hash_len Hl].
  rewrite (loadPharData_signed _ _ hash_len hasher) by assumption.
  vm_compute. reflexivity.
Qed.

(** The theorem under [standIn], at the buffer of scenario S1. *)
Lemma scenario_S1_does_not_round_trip_witness :
  Phar.loadPharData (ext := standIn) scenario_S1_bytes Phar.blank (pageRealm 0)
  = (Throw (ReferenceError "time"), pageRealm 0).
Proof.
  exact (scenario_S1_does_not_round_trip standIn Phar.blank 0 scenario_S1_bytes
           standIn_digestLengths scenario_S1_saved).
Defined.

(** What the constructor makes of the options the decoder passes: a
    timestamp 0, a permission 0 and an empty name are falsy, and the
    defaults -1, 438 and [newfile] take their place. This holds in every
    global scope. *)
Lemma PharFile_new_defaults (ext : Externals) (name contents : option str)
      (options : PharFile.Options) (realm realm' : Realm) (file : PharFile.t) :
  PharFile.new name contents options realm = (Ok file, realm') ->
  PharFile.timestamp file = JS.orNum (PharFile.opt_timestamp options) (-1)
  /\ PharFile.permission file = JS.orNum (PharFile.opt_permission options) 438
  /\ PharFile.name file = JS.orStr name (lit "newfile").
Proof.
  unfold PharFile.new, mbind, liftR, ret.
  destruct (PharFile.setCompressionType _ _) as [f1 | e] eqn:E1; [|discriminate].
  destruct (PharFile.setContents _ _ f1) as [f2 | e] eqn:E2; [|discriminate].
  destruct (PharFile.setTimestamp _ f2 realm) as [[f3 | e] r3] eqn:E3; [|discriminate].
  destruct (PharFile.setPermission _ f3 r3) as [[f4 | e] r4] eqn:E4; [|discriminate].
  intros E. injection E as <- <-.
  assert (N1 : PharFile.name f1 = JS.orStr name (lit "newfile")).
  { unfold PharFile.setCompressionType in E1.
    destruct (existsb _ _); [|discriminate]. injection E1 as <-. reflexivity. }
  assert (N2 : PharFile.name f2 = PharFile.name f1).
  { unfold PharFile.setContents in E2.
    repeat match type of E2 with
           | context [if ?b then _ else _] => destruct b
           | context [match ?o with Some _ => _ | None => _ end] => destruct o
           end; try discriminate; injection E2 as <-; reflexivity. }
  assert (T3 : PharFile.timestamp f3 = JS.orNum (PharFile.opt_timestamp options) (-1)
               /\ PharFile.name f3 = PharFile.name f2).
  { unfold PharFile.setTimestamp in E3.
    destruct (global_time realm); [|discriminate].
    injection E3 as <- _. split; reflexivity. }
  assert (P4 : PharFile.permission f4 = JS.orNum (PharFile.opt_permission options) 438
               /\ PharFile.timestamp f4 = PharFile.timestamp f3
               /\ PharFile.name f4 = PharFile.name f3).
  { unfold PharFile.setPermission in E4.
    destruct (_ >? 4095); [discriminate|].
    destruct (global_perm r3) as [perm|]; [|discriminate].
    destruct (perm <? 0); [discriminate|].
    injection E4 as <- _. repeat split; reflexivity. }
  cbn [PharFile.with_metadata PharFile.timestamp PharFile.permission PharFile.name].
  destruct T3 as [T3 N3]. destruct P4 as (P4 & T4 & N4).
  repeat split; congruence.
Qed.

(** ** [crc32] against CRC-32/IEEE *)

Section CRC.

(** One round of the register is linear for [Z.lxor]. *)
Lemma crc32_ieee_bit_lxor (x y : Z) :
  crc32_ieee_bit (Z.lxor x y) = Z.lxor (crc32_ieee_bit x) (crc32_ieee_bit y).
Proof.
  unfold crc32_ieee_bit.
  rewrite <- !Z.bit0_odd, Z.lxor_spec, Z.shiftr_lxor.
  apply Z.bits_inj'. intros n Hn.
  destruct (Z.testbit x 0), (Z.testbit y 0); cbn [xorb];
    rewrite ?Z.lxor_spec;
    destruct (Z.testbit (Z.shiftr x 1) n), (Z.testbit (Z.shiftr y 1) n),
             (Z.testbit 3988292384 n); reflexivity.
Qed.

Lemma crc32_ieee_rounds_lxor (k : nat) (x y : Z) :
  Nat.iter k crc32_ieee_bit (Z.lxor x y)
  = Z.lxor (Nat.iter k crc32_ieee_bit x) (Nat.iter k crc32_ieee_bit y).
Proof.
  induction k as [|k IH]; [reflexivity|].
  now rewrite !Nat.iter_succ, IH, crc32_ieee_bit_lxor.
Qed.

Lemma crc32_ieee_bit_even (x : Z) : crc32_ieee_bit (2 * x) = x.
Proof.
  unfold crc32_ieee_bit.
  rewrite Z.odd_mul. cbn [Z.odd andb].
  rewrite Z.shiftr_div_pow2 by lia. change (2 ^ 1) with 2.
  rewrite Z.mul_comm. apply Z.div_mul. lia.
Qed.

(** Eight rounds shift out a zero octet. *)
Lemma crc32_ieee_rounds_high (h : Z) : Nat.iter 8 crc32_ieee_bit (256 * h) = h.
Proof.
  replace (256 * h) with (2 * (2 * (2 * (2 * (2 * (2 * (2 * (2 * h)))))))) by lia.
  unfold Nat.iter. cbn [nat_rect].
  now rewrite !crc32_ieee_bit_even.
Qed.

(** A number is its high part and its low octet, with no common bit. *)
Lemma split_low_octet (x : Z) :
  x = Z.lxor (256 * Z.shiftr x 8) (Z.land x 255).
Proof.
  apply Z.bits_inj'. intros n Hn.
  rewrite Z.lxor_spec, Z.land_spec.
  change 255 with (Z.ones 8). rewrite Z.testbit_ones_nonneg by lia.
  change 256 with (2 ^ 8). rewrite Z.mul_comm.
  destruct (Z.ltb_spec n 8) as [Hlt | Hge].
  - rewrite Z.mul_pow2_bits_low by lia. now rewrite andb_true_r.
  - rewrite Z.mul_pow2_bits by lia.
    rewrite Z.shiftr_spec by lia.
    replace (n - 8 + 8) with n by lia.
    rewrite andb_false_r. now destruct (Z.testbit x n).
Qed.

(** The table step of the script on unsigned registers. *)
Lemma crc32_ieee_octet_table (c octet : Z) :
  0 <= octet < 256 ->
  crc32_ieee_octet c octet
  = Z.lxor (Z.shiftr c 8)
           (Nat.iter 8 crc32_ieee_bit (Z.land (Z.lxor c octet) 255)).
Proof.
  intros Ho. unfold crc32_ieee_octet.
  rewrite (split_low_octet (Z.lxor c octet)) at 1.
  rewrite crc32_ieee_rounds_lxor, crc32_ieee_rounds_high.
  f_equal. rewrite Z.shiftr_lxor.
  rewrite (Z.shiftr_div_pow2 octet) by lia.
  rewrite (Z.div_small octet) by (change (2 ^ 8) with 256; lia).
  apply Z.lxor_0_r.
Qed.

(** Every entry of the table is eight rounds of its index. *)
Lemma crcTable_entries :
  forallb (fun n => JS.ToUint32 (crcTableAt (Z.of_nat n))
                    =? Nat.iter 8 crc32_ieee_bit (Z.of_nat n))
          (seq 0 256) = true.
Proof. vm_compute. reflexivity. Qed.

Lemma crcTableAt_spec (i : Z) :
  0 <= i < 256 ->
  JS.ToUint32 (crcTableAt i) = Nat.iter 8 crc32_ieee_bit i.
Proof.
  intros Hi.
  pose proof crcTable_entries as H. rewrite forallb_forall in H.
  specialize (H (Z.to_nat i)). rewrite Z2Nat.id in H by lia.
  apply Z.eqb_eq, H, in_seq. lia.
Qed.

Lemma band_255 (x : Z) : JS.band x 255 = Z.land (JS.ToUint32 x) 255.
Proof.
  unfold JS.band. change (JS.ToInt32 255) with (Z.ones 8).
  change 255 with (Z.ones 8).
  apply Z.bits_inj'. intros n Hn.
  rewrite !Z.land_spec, Z.testbit_ones_nonneg by lia.
  destruct (Z.ltb_spec n 8) as [Hlt | Hge]; [|now rewrite !andb_false_r].
  rewrite testbit_ToInt32_low, testbit_ToUint32 by lia.
  replace (n <? 32) with true by (symmetry; apply Z.ltb_lt; lia).
  reflexivity.
Qed.

Lemma shr_8 (x : Z) : JS.ToUint32 (JS.shr x 8) = Z.shiftr (JS.ToUint32 x) 8.
Proof.
  unfold JS.shr. change (JS.shiftCount 8) with 8.
  apply ToUint32_small.
  pose proof (ToUint32_range x) as R.
  rewrite Z.shiftr_div_pow2 by lia.
  change (2 ^ 8) with 256. change (2 ^ 32) with 4294967296 in *.
  split; [apply Z.div_pos; lia|].
  apply Z.div_lt_upper_bound; lia.
Qed.

(** One round of the loop of [crc32], seen on the unsigned register. *)
Lemma crc32_step (crc : Z) (c : ascii) :
  JS.ToUint32
    (JS.bxor (JS.shr crc 8) (crcTableAt (JS.band (JS.bxor crc (code c)) 0xFF)))
  = crc32_ieee_octet (JS.ToUint32 crc) (code c).
Proof.
  pose proof (code_range c) as Hc.
  rewrite ToUint32_bxor, shr_8, band_255, ToUint32_bxor.
  rewrite (ToUint32_small (code c)) by lia.
  rewrite crcTableAt_spec.
  - symmetry. now apply crc32_ieee_octet_table.
  - change 255 with (Z.ones 8). rewrite Z.land_ones by lia.
    apply Z.mod_pos_bound. lia.
Qed.

Lemma crc32_loop (s : str) (crc : Z) :
  JS.ToUint32
    (fold_left
       (fun crc c =>
          JS.bxor (JS.shr crc 8) (crcTableAt (JS.band (JS.bxor crc (code c)) 0xFF)))
       s crc)
  = fold_left (fun c ch => crc32_ieee_octet c (code ch)) s (JS.ToUint32 crc).
Proof.
  revert crc. induction s as [|c s IH]; intros crc; cbn [fold_left];
    [reflexivity|].
  now rewrite IH, crc32_step.
Qed.

Lemma crc32_unsigned (payload : str) : crc32 payload = crc32_ieee payload.
Proof.
  unfold crc32, crc32_ieee. cbv zeta.
  rewrite shr_0, ToUint32_bxor, crc32_loop. reflexivity.
Qed.

Lemma crc32_range (payload : str) : 0 <= crc32 payload < 2 ^ 32.
Proof. unfold crc32. cbv zeta. rewrite shr_0. apply ToUint32_range. Qed.

End CRC.

(** The table-driven [crc32] of the script computes CRC-32/IEEE: reflected
    polynomial 0xEDB88320, initial value 0xFFFFFFFF, final XOR 0xFFFFFFFF;
    its value is a non-negative integer below 2^32. *)
Theorem crc32_is_crc32_ieee (payload : str) :
  crc32 payload = crc32_ieee payload /\ 0 <= crc32 payload < 2 ^ 32.
Proof.
  split; [apply crc32_unsigned | apply crc32_range].
Qed.

(** ** The CRC of an entry *)

Section EntryCRC.
Context {ext : Externals}.

Lemma substring_at (a b c : str) (lo hi : Z) :
  lo = len a -> hi = len a + len b -> substring (a ++ b ++ c) lo hi = b.
Proof. intros -> ->. apply substring_middle. Qed.

(** The manifest record of a file, field by field. *)
Lemma putFile_layout (file : PharFile.t) (contents : str) (mb : BinaryBuffer.t) :
  BinaryBuffer.buffer (Phar.putFile file contents mb)
  = BinaryBuffer.buffer mb
    ++ (Binary.writeLInt (len (PharFile.name file)) ++ PharFile.name file)
    ++ Binary.writeLInt (len (PharFile.contents file))
    ++ Binary.writeLInt (PharFile.timestamp file)
    ++ Binary.writeLInt (len contents)
    ++ Binary.writeLInt (crc32 (PharFile.contents file))
    ++ Binary.writeLInt (PharFile.getPharFlags file)
    ++ Binary.writeLInt (len (PharFile.metadata file)) ++ PharFile.metadata file.
Proof.
  unfold Phar.putFile, BinaryBuffer.putString, BinaryBuffer.putLInt,
    BinaryBuffer.put, PharFile.getName, PharFile.getSize, PharFile.getContents,
    PharFile.getTimestamp, PharFile.getMetadata.
  cbn [BinaryBuffer.buffer]. now rewrite <- !app_assoc.
Qed.

(** The encoder's half of the CRC law: in the record [savePharData] writes
    for a file, the four octets after the name, the size, the timestamp and
    the compressed size read back as the CRC-32/IEEE of the uncompressed
    contents of the file. *)
Theorem putFile_crc_slot (file : PharFile.t) (contents : str) (mb : BinaryBuffer.t) :
  let written := BinaryBuffer.buffer (Phar.putFile file contents mb) in
  let slot := len (BinaryBuffer.buffer mb) + 4 + len (PharFile.name file) + 12 in
  Binary.readLInt (substring written slot (slot + 4))
  = crc32_ieee (PharFile.contents file).
Proof.
  cbv zeta. rewrite putFile_layout.
  set (before :=
         (Binary.writeLInt (len (PharFile.name file)) ++ PharFile.name file)
         ++ Binary.writeLInt (len (PharFile.contents file))
         ++ Binary.writeLInt (PharFile.timestamp file)
         ++ Binary.writeLInt (len contents)).
  set (crc := Binary.writeLInt (crc32 (PharFile.contents file))).
  set (after := Binary.writeLInt (PharFile.getPharFlags file)
                ++ Binary.writeLInt (len (PharFile.metadata file))
                ++ PharFile.metadata file).
  replace (BinaryBuffer.buffer mb ++ _)
    with ((BinaryBuffer.buffer mb ++ before) ++ crc ++ after)
    by (unfold before; now rewrite <- !app_assoc).
  rewrite (substring_at (BinaryBuffer.buffer mb ++ before) crc after).
  - unfold crc. rewrite readLInt_writeLInt_mod, ToUint32_small.
    + apply crc32_unsigned.
    + apply crc32_range.
  - unfold before. rewrite !len_app.
    change (len (Binary.writeLInt (len (PharFile.name file)))) with 4.
    change (len (Binary.writeLInt (len (PharFile.contents file)))) with 4.
    change (len (Binary.writeLInt (PharFile.timestamp file))) with 4.
    change (len (Binary.writeLInt (len contents))) with 4. lia.
  - unfold before, crc. rewrite !len_app.
    change (len (Binary.writeLInt (len (PharFile.name file)))) with 4.
    change (len (Binary.writeLInt (len (PharFile.contents file)))) with 4.
    change (len (Binary.writeLInt (PharFile.timestamp file))) with 4.
    change (len (Binary.writeLInt (len contents))) with 4.
    change (len (Binary.writeLInt (crc32 (PharFile.contents file)))) with 4. lia.
Qed.

End EntryCRC.

(** C3. The decoder should raise [FileCorrupt] whenever the stored CRC
    differs from the CRC-32 of the decompressed contents. In the signed
    buffer [signSHA1 scenario_S1_bad_crc] the stored CRC of [a.txt] differs
    from the CRC-32 of its contents [hi], and on a page that declares no
    [time] the decoder raises [ReferenceError] from the [PharFile]
    constructor, before it compares the two. *)
Theorem crc_mismatch_is_not_reported (ext : Externals) (that : Phar.t) (now : Z) :
  digestLengths ext ->
  Binary.readLInt (substring scenario_S1_bad_crc 72 76)
  <> crc32 (substring scenario_S1_bad_crc 84 86)
  /\ Phar.loadPharData (signSHA1 scenario_S1_bad_crc) that (pageRealm now)
     = (Throw (ReferenceError "time"), pageRealm now).
Proof.
  intros Hlen. split; [vm_compute; discriminate|].
  unfold signSHA1.
  rewrite (loadPharData_signed _ SIGNATURE_SHA1 20 (@SHA1_raw ext));
    [|exact Hlen|reflexivity|reflexivity].
  vm_compute. reflexivity.
Qed.

(** The theorem under [standIn]. *)
Lemma crc_mismatch_is_not_reported_witness :
  Binary.readLInt (substring scenario_S1_bad_crc 72 76)
  <> crc32 (substring scenario_S1_bad_crc 84 86)
  /\ Phar.loadPharData (ext := standIn)
                       (signSHA1 (ext := standIn) scenario_S1_bad_crc)
                       Phar.blank (pageRealm 0)
     = (Throw (ReferenceError "time"), pageRealm 0).
Proof.
  exact (crc_mismatch_is_not_reported standIn Phar.blank 0 standIn_digestLengths).
Defined.

(** Where the page binds [time] and [perm], the constructor returns and
    the same buffer is refused with [FileCorrupt]. *)
Lemma crc_mismatch_reported_with_globals (ext : Externals) (that : Phar.t) (now : Z) :
  digestLengths ext ->
  Phar.loadPharData (signSHA1 scenario_S1_bad_crc) that (boundRealm now)
  = (Throw FileCorrupt, boundRealm now).
Proof.
  intros Hlen. unfold signSHA1.
  rewrite (loadPharData_signed _ SIGNATURE_SHA1 20 (@SHA1_raw ext));
    [|exact Hlen|reflexivity|reflexivity].
  vm_compute. reflexivity.
Qed.

(** With the same bindings the buffer of scenario S1 decodes, and the file
    comes back with timestamp -1 where 0 was encoded; the signature type of
    the receiver is left as it was. *)
Lemma scenario_S1_decoded_with_globals (ext : Externals) (that : Phar.t) (now : Z) :
  digestLengths ext ->
  exists this,
    Phar.loadPharData (signSHA1 (firstn 86 scenario_S1_bytes)) that (boundRealm now)
    = (Ok this, boundRealm now)
    /\ Phar.files this
       = Phar.ArrayOf [Some (PharFile.with_timestamp (-1) scenario_file)]
    /\ Phar.signature_type this = Phar.signature_type that.
Proof.
  intros Hlen. unfold signSHA1.
  rewrite (loadPharData_signed _ SIGNATURE_SHA1 20 (@SHA1_raw ext));
    [|exact Hlen|reflexivity|reflexivity].
  eexists. split; [vm_compute; reflexivity|]. split; reflexivity.
Qed.

(** ** Adding a file to an array of files *)

Section AddFile.

(** The files of an array, holes left out. *)
Lemma forIn_app (a b : list (option PharFile.t)) :
  Phar.forIn (Phar.ArrayOf (a ++ b))
  = Phar.forIn (Phar.ArrayOf a) ++ Phar.forIn (Phar.ArrayOf b).
Proof. cbn [Phar.forIn]. apply flat_map_app. Qed.

Lemma forIn_cons_some (f : PharFile.t) (rest : list (option PharFile.t)) :
  Phar.forIn (Phar.ArrayOf (Some f :: rest)) = f :: Phar.forIn (Phar.ArrayOf rest).
Proof. reflexivity. Qed.

Lemma forIn_cons_none (rest : list (option PharFile.t)) :
  Phar.forIn (Phar.ArrayOf (None :: rest)) = Phar.forIn (Phar.ArrayOf rest).
Proof. reflexivity. Qed.

(** When names are unique, [deleteFirst] leaves no file of that name. *)
Lemma deleteFirst_clears (name : str) (slots : list (option PharFile.t)) :
  NoDup (map PharFile.getName (Phar.forIn (Phar.ArrayOf slots))) ->
  forall f, In f (Phar.forIn (Phar.ArrayOf (Phar.deleteFirst name slots))) ->
            PharFile.getName f <> name.
Proof.
  induction slots as [|[g|] rest IH]; intros Hnd f Hin.
  - destruct Hin.
  - rewrite forIn_cons_some in Hnd. cbn [map] in Hnd.
    apply NoDup_cons_iff in Hnd. destruct Hnd as [Hfresh Hnd].
    cbn [Phar.deleteFirst] in Hin.
    destruct (str_eqb (PharFile.getName g) name) eqn:E.
    + apply str_eqb_eq in E. rewrite forIn_cons_none in Hin.
      intros Hname. apply Hfresh. rewrite E, <- Hname.
      now apply in_map.
    + rewrite forIn_cons_some in Hin. destruct Hin as [<- | Hin].
      * intros Hname. apply str_eqb_eq in Hname. congruence.
      * now apply IH.
  - cbn [Phar.deleteFirst] in Hin. rewrite forIn_cons_none in Hin, Hnd.
    now apply IH.
Qed.

Lemma find_last (p : PharFile.t -> bool) (before : list PharFile.t) (e : PharFile.t) :
  (forall f, In f before -> p f = false) -> p e = true ->
  find p (before ++ [e]) = Some e.
Proof.
  intros Hb He. induction before as [|g before IH]; cbn.
  - now rewrite He.
  - rewrite (Hb g) by now left. apply IH. intros f Hf. apply Hb. now right.
Qed.

(** On an archive whose files are an array with unique names, [addFile e]
    makes [e] the last file, the only one of its name, and [getFile] finds
    it. *)
Theorem addFile_on_array (this : Phar.t) (slots : list (option PharFile.t))
        (e : PharFile.t) :
  Phar.files this = Phar.ArrayOf slots ->
  NoDup (map PharFile.getName (Phar.forIn (Phar.files this))) ->
  exists this' before,
    Phar.addFile e this = Ok this'
    /\ Phar.forIn (Phar.files this') = before ++ [e]
    /\ (forall f, In f before -> PharFile.getName f <> PharFile.getName e)
    /\ Phar.getFile (PharFile.getName e) this' = Some e.
Proof.
  intros Hfiles Hnd. rewrite Hfiles in Hnd.
  set (name := PharFile.getName e).
  set (kept := Phar.deleteFirst name slots).
  exists (Phar.with_files (Phar.ArrayOf (kept ++ [Some e]))
                          (Phar.with_files (Phar.ArrayOf kept) this)),
         (Phar.forIn (Phar.ArrayOf kept)).
  assert (Hclear : forall f, In f (Phar.forIn (Phar.ArrayOf kept)) ->
                             PharFile.getName f <> name)
    by now apply deleteFirst_clears.
  split; [|split; [|split]].
  - unfold Phar.addFile, Phar.removeFile. fold name. rewrite Hfiles. reflexivity.
  - cbn [Phar.files Phar.with_files]. now rewrite forIn_app.
  - exact Hclear.
  - unfold Phar.getFile. cbn [Phar.files Phar.with_files]. rewrite forIn_app.
    apply find_last.
    + intros f Hf. apply str_eqb_neq. now apply Hclear.
    + apply str_eqb_refl.
Qed.

End AddFile.

(** The theorem on the archive of scenario S1, adding a second [a.txt]. *)
Lemma addFile_on_array_witness :
  let e := PharFile.with_contents (lit "new") scenario_file in
  exists this' before,
    Phar.addFile e scenario_S1 = Ok this'
    /\ Phar.forIn (Phar.files this') = before ++ [e]
    /\ (forall f, In f before -> PharFile.getName f <> PharFile.getName e)
    /\ Phar.getFile (PharFile.getName e) this' = Some e.
Proof.
  intros e.
  apply (addFile_on_array scenario_S1 [Some scenario_file] e).
  - reflexivity.
  - cbn. constructor; [intros [] | constructor].
Defined.

(** ** What decoding leaves alone *)

Section Frame.
Context {ext : Externals}.

Lemma keeps_mbind {A B : Type} (m : M Phar.Load A) (k : A -> M Phar.Load B) :
  keepsSignatureType m -> (forall a, keepsSignatureType (k a)) ->
  keepsSignatureType (mbind m k).
Proof.
  intros Hm Hk s r s'. unfold mbind.
  destruct (m s) as [[a | e] s1] eqn:E.
  - intros E2. rewrite (Hk a _ _ _ E2). now apply (Hm _ _ _ E).
  - intros E2. injection E2 as <- <-. now apply (Hm _ _ _ E).
Qed.

Lemma keeps_onManifest {A : Type} (m : M BinaryBuffer.t A) :
  keepsSignatureType (Phar.onManifest m).
Proof.
  intros s r s'. unfold Phar.onManifest.
  destruct (m _). intros E. injection E as <- <-. reflexivity.
Qed.

Lemma keeps_onBuffer {A : Type} (m : M BinaryBuffer.t A) :
  keepsSignatureType (Phar.onBuffer m).
Proof.
  intros s r s'. unfold Phar.onBuffer.
  destruct (m _). intros E. injection E as <- <-. reflexivity.
Qed.

Lemma keeps_onRealm {A : Type} (m : M Realm A) :
  keepsSignatureType (Phar.onRealm m).
Proof.
  intros s r s'. unfold Phar.onRealm.
  destruct (m _). intros E. injection E as <- <-. reflexivity.
Qed.

Lemma keeps_throw {A : Type} (e : error) :
  keepsSignatureType (throw (A := A) e).
Proof. intros s r s' E. injection E as <- <-. reflexivity. Qed.

Lemma keeps_ret {A : Type} (a : A) : keepsSignatureType (ret a).
Proof. intros s r s' E. injection E as <- <-. reflexivity. Qed.

Lemma keeps_onThis (f : Phar.t -> result Phar.t) :
  (forall x y, f x = Ok y -> Phar.signature_type y = Phar.signature_type x) ->
  keepsSignatureType (Phar.onThis f).
Proof.
  intros Hf s r s'. unfold Phar.onThis.
  destruct (f (Phar.receiver s)) as [y | e] eqn:E; intros E2;
    injection E2 as <- <-; [|reflexivity].
  cbn [Phar.receiver]. now apply Hf.
Qed.

Lemma keeps_assign (f : Phar.t -> Phar.t) :
  (forall x, Phar.signature_type (f x) = Phar.signature_type x) ->
  keepsSignatureType (Phar.assign f).
Proof.
  intros Hf. apply keeps_onThis. intros x y E. injection E as <-. apply Hf.
Qed.

Lemma addFile_signature_type (file : PharFile.t) (x y : Phar.t) :
  Phar.addFile file x = Ok y -> Phar.signature_type y = Phar.signature_type x.
Proof.
  unfold Phar.addFile, Phar.removeFile.
  destruct (Phar.files x) as [|slots] eqn:F; cbn; rewrite ?F; cbn;
    [discriminate|].
  intros E. injection E as <-. reflexivity.
Qed.

Lemma keeps_loadFile : keepsSignatureType Phar.loadFile.
Proof.
  unfold Phar.loadFile.
  repeat (apply keeps_mbind; [first [apply keeps_onManifest | apply keeps_onBuffer
                                     | apply keeps_onRealm] | intros ?]).
  destruct (negb _); [apply keeps_throw|].
  apply keeps_onThis. apply addFile_signature_type.
Qed.

Lemma keeps_times (n : nat) (body : M Phar.Load unit) :
  keepsSignatureType body -> keepsSignatureType (Phar.times n body).
Proof.
  intros Hb. induction n as [|n IH]; cbn [Phar.times].
  - apply keeps_ret.
  - apply keeps_mbind; [exact Hb | intros _; exact IH].
Qed.

Lemma keeps_readArchive (signed : str) : keepsSignatureType (Phar.readArchive signed).
Proof.
  unfold Phar.readArchive. cbv zeta.
  destruct (_ =? -1); [apply keeps_throw|].
  repeat (apply keeps_mbind;
          [first [apply keeps_onManifest | apply keeps_onBuffer
                  | apply keeps_assign; intros ?; reflexivity] | intros ?]).
  apply keeps_times, keeps_loadFile.
Qed.

(** [loadPharData] checks the signature against the type found in the
    buffer and keeps the signature type the receiver had: an archive signed
    with another type than the receiver's comes back with the receiver's. *)
Theorem loadPharData_keeps_signature_type
        (buffer : str) (that this : Phar.t) (realm realm' : Realm) :
  Phar.loadPharData buffer that realm = (Ok this, realm') ->
  Phar.signature_type this = Phar.signature_type that.
Proof.
  unfold Phar.loadPharData.
  destruct (Phar.verifySignature buffer) as [signed | e]; [|discriminate].
  destruct (Phar.readArchive signed _) as [[u | e] s] eqn:E; [|discriminate].
  intros E2. injection E2 as <- <-.
  now rewrite (keeps_readArchive signed _ _ _ E).
Qed.

End Frame.

(** The theorem on the buffer of scenario S1, decoded on a page that binds
    [time] and [perm] into a receiver whose signature type is SHA512. *)
Lemma loadPharData_keeps_signature_type_witness :
  exists this,
    Phar.loadPharData (ext := standIn) scenario_S1_bytes
                      (Phar.with_signature_type SIGNATURE_SHA512 Phar.blank)
                      (boundRealm 0)
    = (Ok this, boundRealm 0)
    /\ Phar.signature_type this = SIGNATURE_SHA512.
Proof.
  destruct (Phar.loadPharData (ext := standIn) scenario_S1_bytes
              (Phar.with_signature_type SIGNATURE_SHA512 Phar.blank) (boundRealm 0))
    as [[this | e] realm'] eqn:E.
  - exists this.
    pose proof (loadPharData_keeps_signature_type (ext := standIn) _ _ _ _ _ E) as K.
    vm_compute in E. injection E as <- <-.
    split; [reflexivity | exact K].
  - vm_compute in E. discriminate E.
Defined.

(** The constructor on options with timestamp 0, permission 0 and an empty
    name, on a page that binds [time] and [perm]. *)
Lemma PharFile_new_defaults_witness :
  let options :=
    {| PharFile.opt_compression_type := Some 0;
       PharFile.opt_is_compressed := true;
       PharFile.opt_timestamp := Some 0;
       PharFile.opt_metadata := Some [];
       PharFile.opt_permission := Some 0 |} in
  exists file realm',
    PharFile.new (ext := standIn) (Some []) (Some (lit "hi")) options (boundRealm 0)
    = (Ok file, realm')
    /\ PharFile.timestamp file = -1
    /\ PharFile.permission file = 438
    /\ PharFile.name file = lit "newfile".
Proof.
  intros options.
  destruct (PharFile.new (ext := standIn) (Some []) (Some (lit "hi")) options
              (boundRealm 0)) as [[file | e] realm'] eqn:E.
  - exists file, realm'. split; [reflexivity|].
    exact (PharFile_new_defaults standIn _ _ _ _ _ _ E).
  - vm_compute in E. discriminate E.
Defined.

(** A negative permission stored on a page that binds [perm] to 0. *)
Lemma setPermission_tests_the_global_witness :
  PharFile.setPermission (-1) scenario_file (boundRealm 0)
  = (Ok (PharFile.with_permission (-1) scenario_file), boundRealm 0).
Proof.
  apply (setPermission_tests_the_global (-1) 0 scenario_file (boundRealm 0)).
  - reflexivity.
  - lia.
  - lia.
Defined.


(** The refusal with [FileCorrupt] under [standIn]. *)
Lemma crc_mismatch_reported_with_globals_witness :
  Phar.loadPharData (ext := standIn)
                    (signSHA1 (ext := standIn) scenario_S1_bad_crc)
                    Phar.blank (boundRealm 0)
  = (Throw FileCorrupt, boundRealm 0).
Proof.
  exact (crc_mismatch_reported_with_globals standIn Phar.blank 0
           standIn_digestLengths).
Defined.

(** ** Reading back what the cursor wrote *)

Section Cursor.

Lemma reads_new (data : str) : reads (BinaryBuffer.new (Some data)) data.
Proof.
  exists []. split; [|reflexivity].
  unfold BinaryBuffer.new. cbn [BinaryBuffer.buffer].
  destruct data; reflexivity.
Qed.

Lemma get_reads (b : BinaryBuffer.t) (data rest : str) :
  reads b (data ++ rest) ->
  exists b', BinaryBuffer.get (len data) b = (Ok data, b') /\ reads b' rest.
Proof.
  intros (pre & Hb & Ho).
  pose proof (len_nonneg data) as Hd. pose proof (len_nonneg pre) as Hp.
  pose proof (len_nonneg rest) as Hr.
  unfold BinaryBuffer.get.
  destruct (Z.ltb_spec (len data) 0) as [Hneg | _]; [lia|].
  destruct (Z.eqb_spec (len data) 0) as [Hz | Hnz].
  - assert (data = []) as -> by (destruct data; [reflexivity | discriminate Hz]).
    exists b. split; [reflexivity|]. exists pre. now split.
  - cbn [BinaryBuffer.buffer BinaryBuffer.offset].
    rewrite Hb, Ho.
    destruct (Z.gtb_spec (len pre + len data) (len (pre ++ data ++ rest)))
      as [Hover | _]; [rewrite !len_app in Hover; lia|].
    eexists. split.
    + replace (len pre + len data - len data) with (len pre) by lia.
      rewrite substring_middle. reflexivity.
    + exists (pre ++ data). cbn [BinaryBuffer.buffer BinaryBuffer.offset].
      split; [now rewrite <- app_assoc | now rewrite len_app].
Qed.

Lemma getLInt_reads (b : BinaryBuffer.t) (n : Z) (rest : str) :
  reads b (Binary.writeLInt n ++ rest) ->
  exists b', BinaryBuffer.getLInt b = (Ok (JS.ToUint32 n), b') /\ reads b' rest.
Proof.
  intros H. destruct (get_reads _ _ _ H) as (b' & E & R).
  exists b'. split; [|exact R].
  unfold BinaryBuffer.getLInt, mbind, ret.
  change 4 with (len (Binary.writeLInt n)). rewrite E.
  now rewrite readLInt_writeLInt_mod.
Qed.

Lemma readLShort_octets (a b : ascii) (rest : str) :
  Binary.readLShort (a :: b :: rest) = code a + code b * 2 ^ 8.
Proof.
  pose proof (code_range a). pose proof (code_range b).
  unfold Binary.readLShort. cbn [fold_left].
  change (charCodeAt (a :: b :: rest) 0) with (Some (code a)).
  change (charCodeAt (a :: b :: rest) 1) with (Some (code b)).
  cbn [JS.nanToZero]. change (8 * 0) with 0. change (8 * 1) with 8.
  unfold JS.bor, JS.shl.
  change (JS.shiftCount 0) with 0. change (JS.shiftCount 8) with 8.
  change (JS.ToInt32 0) with 0.
  rewrite (ToInt32_small (code a)), (ToInt32_small (code b)) by lia.
  rewrite Z.shiftl_0_r, Z.shiftl_mul_pow2, Z.lor_0_l by lia.
  rewrite !(ToInt32_small (code a)) by lia.
  rewrite !(ToInt32_small (code b * 2 ^ 8)) by lia.
  apply lor_shifted; lia.
Qed.

Lemma writeLShort_octets (n : Z) :
  let u := JS.ToUint32 n in
  Binary.writeLShort n
  = [fromCharCode (u mod 2 ^ 8); fromCharCode ((u / 2 ^ 8) mod 2 ^ 8)].
Proof.
  intros u. unfold Binary.writeLShort. cbn [map].
  change (8 * 0) with 0. change (8 * 1) with 8.
  rewrite !band_sar_octet by (cbn; auto 6).
  fold u. rewrite Z.pow_0_r, Z.div_1_r. reflexivity.
Qed.

Lemma readLShort_writeLShort (n : Z) :
  0 <= n < 2 ^ 16 -> Binary.readLShort (Binary.writeLShort n) = n.
Proof.
  intros Hn. rewrite writeLShort_octets. cbv zeta.
  rewrite (ToUint32_small n) by lia.
  rewrite readLShort_octets.
  rewrite !code_fromCharCode by (apply Z.mod_pos_bound; lia).
  change (2 ^ 8) with 256. change (2 ^ 16) with 65536 in Hn.
  Z.div_mod_to_equations. lia.
Qed.

Lemma getLShort_reads (b : BinaryBuffer.t) (n : Z) (rest : str) :
  0 <= n < 2 ^ 16 ->
  reads b (Binary.writeLShort n ++ rest) ->
  exists b', BinaryBuffer.getLShort b = (Ok n, b') /\ reads b' rest.
Proof.
  intros Hn H. destruct (get_reads _ _ _ H) as (b' & E & R).
  exists b'. split; [|exact R].
  unfold BinaryBuffer.getLShort, mbind, ret.
  change 2 with (len (Binary.writeLShort n)). rewrite E.
  now rewrite readLShort_writeLShort.
Qed.

Lemma getString_reads (b : BinaryBuffer.t) (data rest : str) :
  len data < 2 ^ 32 ->
  reads b (lenString data ++ rest) ->
  exists b', BinaryBuffer.getString b = (Ok data, b') /\ reads b' rest.
Proof.
  intros Hd H. unfold lenString in H. rewrite <- app_assoc in H.
  destruct (getLInt_reads _ _ _ H) as (b1 & E1 & R1).
  destruct (get_reads _ _ _ R1) as (b2 & E2 & R2).
  exists b2. split; [|exact R2].
  unfold BinaryBuffer.getString, mbind. rewrite E1.
  rewrite ToUint32_small by (pose proof (len_nonneg data); lia).
  exact E2.
Qed.

Lemma skip_reads (b : BinaryBuffer.t) (data rest : str) :
  reads b (data ++ rest) ->
  exists b', BinaryBuffer.skip (len data) b = (Ok tt, b') /\ reads b' rest.
Proof.
  intros (pre & Hb & Ho). eexists. split; [reflexivity|].
  exists (pre ++ data). cbn [BinaryBuffer.buffer BinaryBuffer.offset].
  split; [now rewrite Hb, <- app_assoc | now rewrite Ho, len_app].
Qed.

Lemma putString_buffer (data : str) (b : BinaryBuffer.t) :
  BinaryBuffer.buffer (BinaryBuffer.putString data b)
  = BinaryBuffer.buffer b ++ lenString data.
Proof.
  unfold BinaryBuffer.putString, BinaryBuffer.putLInt, BinaryBuffer.put, lenString.
  cbn [BinaryBuffer.buffer]. now rewrite <- app_assoc.
Qed.

End Cursor.

(** ** What the encoder writes *)

Section Written.
Context {ext : Externals}.

Lemma putFile_buffer (file : PharFile.t) (c : str) (mb : BinaryBuffer.t) :
  BinaryBuffer.buffer (Phar.putFile file c mb)
  = BinaryBuffer.buffer mb ++ manifestRecord file c.
Proof.
  rewrite putFile_layout. unfold manifestRecord, lenString.
  now rewrite <- !app_assoc.
Qed.


Lemma saveFiles_thrown (fs : list PharFile.t) (e : error) :
  fold_left (fun acc file => let* a := acc in Phar.saveFile file a) fs (Throw e)
  = Throw e.
Proof. induction fs as [|f fs IH]; [reflexivity | exact IH]. Qed.

(** The loop of [savePharData] appends one record and one payload for each
    file. *)
Lemma saveFiles_written (fs : list PharFile.t) :
  forall (mb : BinaryBuffer.t) (ac : str) (mb' : BinaryBuffer.t) (ac' : str),
    fold_left (fun acc file => let* a := acc in Phar.saveFile file a) fs
              (Ok (mb, ac)) = Ok (mb', ac') ->
    exists cs,
      Forall2 (fun f c => PharFile.getCompressedContents f = Ok c) fs cs
      /\ BinaryBuffer.buffer mb' = BinaryBuffer.buffer mb ++ manifestRecords fs cs
      /\ ac' = ac ++ List.concat cs.
Proof.
  induction fs as [|f fs IH]; intros mb ac mb' ac' E.
  - cbn in E. injection E as <- <-. exists []. cbn.
    now rewrite !app_nil_r.
  - cbn [fold_left bind] in E. unfold Phar.saveFile at 2 in E.
    destruct (PharFile.getCompressedContents f) as [c | e] eqn:Ec.
    + cbn [bind] in E. destruct (IH _ _ _ _ E) as (cs & Hcs & Hb & Ha).
      exists (c :: cs). split; [now constructor|]. split.
      * rewrite Hb, putFile_buffer. cbn [manifestRecords]. now rewrite <- app_assoc.
      * rewrite Ha. cbn [List.concat]. now rewrite <- app_assoc.
    + cbn [bind] in E. rewrite saveFiles_thrown in E. discriminate E.
Qed.


Lemma manifestRecords_length (fs : list PharFile.t) (cs : list str) :
  List.length fs = List.length cs ->
  len (manifestRecords fs cs)
  = fold_right
      (fun f n => 28 + len (PharFile.name f) + len (PharFile.metadata f) + n)
      0 fs.
Proof.
  revert cs. induction fs as [|f fs IH]; intros [|c cs] L;
    try discriminate L; [reflexivity|].
  cbn [manifestRecords fold_right]. rewrite len_app, IH by (cbn in L; lia).
  unfold manifestRecord, lenString. rewrite !len_app.
  change (len (Binary.writeLInt (len (PharFile.name f)))) with 4.
  change (len (Binary.writeLInt (len (PharFile.contents f)))) with 4.
  change (len (Binary.writeLInt (PharFile.timestamp f))) with 4.
  change (len (Binary.writeLInt (len c))) with 4.
  change (len (Binary.writeLInt (crc32 (PharFile.contents f)))) with 4.
  change (len (Binary.writeLInt (PharFile.getPharFlags f))) with 4.
  change (len (Binary.writeLInt (len (PharFile.metadata f)))) with 4.
  lia.
Qed.

Lemma manifest_length (this : Phar.t) (fs : list PharFile.t) (cs : list str) (n : Z) :
  List.length fs = List.length cs ->
  len (manifestHeader this n ++ manifestRecords fs cs) = manifestSize this fs.
Proof.
  intros L. rewrite len_app, manifestRecords_length by exact L.
  unfold manifestHeader, manifestSize, lenString. rewrite !len_app.
  change (len (Binary.writeLInt n)) with 4.
  change (len (Binary.writeLShort (Phar.manifest_api this))) with 2.
  change (len (Binary.writeLInt (Phar.flags this))) with 4.
  change (len (Binary.writeLInt (len (Phar.alias this)))) with 4.
  change (len (Binary.writeLInt (len (Phar.metadata this)))) with 4.
  lia.
Qed.

End Written.

(** ** Decoding, statement by statement *)

Section Decoding.
Context {ext : Externals}.

Lemma mbind_ok {S A B : Type} (m : M S A) (k : A -> M S B) (s s' : S) (a : A) :
  m s = (Ok a, s') -> mbind m k s = k a s'.
Proof. intros E. unfold mbind. now rewrite E. Qed.

Lemma onManifest_step {A : Type} (m : M BinaryBuffer.t A) (v : A) (x rm : str)
      (s : Phar.Load) (realm : Realm) (this : Phar.t) (rb : str) :
  (forall b, reads b (x ++ rm) -> exists b', m b = (Ok v, b') /\ reads b' rm) ->
  loadsAt s realm this rb (x ++ rm) ->
  exists s', Phar.onManifest m s = (Ok v, s') /\ loadsAt s' realm this rb rm.
Proof.
  intros Hm (Hr & Ht & Hb & Hmb).
  destruct (Hm _ Hmb) as (b' & E & R).
  unfold Phar.onManifest. rewrite E.
  eexists. split; [reflexivity|].
  repeat split; assumption.
Qed.

Lemma onBuffer_step {A : Type} (m : M BinaryBuffer.t A) (v : A) (x rb : str)
      (s : Phar.Load) (realm : Realm) (this : Phar.t) (rm : str) :
  (forall b, reads b (x ++ rb) -> exists b', m b = (Ok v, b') /\ reads b' rb) ->
  loadsAt s realm this (x ++ rb) rm ->
  exists s', Phar.onBuffer m s = (Ok v, s') /\ loadsAt s' realm this rb rm.
Proof.
  intros Hm (Hr & Ht & Hb & Hmb).
  destruct (Hm _ Hb) as (b' & E & R).
  unfold Phar.onBuffer. rewrite E.
  eexists. split; [reflexivity|].
  repeat split; assumption.
Qed.

Lemma onRealm_step {A : Type} (m : M Realm A) (v : A)
      (s : Phar.Load) (realm : Realm) (this : Phar.t) (rb rm : str) :
  m realm = (Ok v, realm) ->
  loadsAt s realm this rb rm ->
  exists s', Phar.onRealm m s = (Ok v, s') /\ loadsAt s' realm this rb rm.
Proof.
  intros Hm (Hr & Ht & Hb & Hmb).
  unfold Phar.onRealm. rewrite Hr, Hm.
  eexists. split; [reflexivity|].
  repeat split; assumption.
Qed.

Lemma onThis_step (f : Phar.t -> result Phar.t) (this' : Phar.t)
      (s : Phar.Load) (realm : Realm) (this : Phar.t) (rb rm : str) :
  f this = Ok this' ->
  loadsAt s realm this rb rm ->
  exists s', Phar.onThis f s = (Ok tt, s') /\ loadsAt s' realm this' rb rm.
Proof.
  intros Hf (Hr & Ht & Hb & Hmb).
  unfold Phar.onThis. rewrite Ht, Hf.
  eexists. split; [reflexivity|].
  repeat split; assumption.
Qed.

Lemma assign_step (f : Phar.t -> Phar.t)
      (s : Phar.Load) (realm : Realm) (this : Phar.t) (rb rm : str) :
  loadsAt s realm this rb rm ->
  exists s', Phar.assign f s = (Ok tt, s') /\ loadsAt s' realm (f this) rb rm.
Proof. intros H. now apply (onThis_step _ (f this) s realm this). Qed.

Lemma skip4_reads (b : BinaryBuffer.t) (n : Z) (rest : str) :
  reads b (Binary.writeLInt n ++ rest) ->
  exists b', BinaryBuffer.skip 4 b = (Ok tt, b') /\ reads b' rest.
Proof. apply (skip_reads b (Binary.writeLInt n) rest). Qed.

(** The flags word gives back the permission and the compression. *)
Lemma flags_checked :
  forallb
    (fun p =>
       forallb
         (fun ct =>
            let flags := JS.ToUint32 (JS.bor (Z.of_nat p) ct) in
            (JS.band flags 0xf000 =? ct) && (JS.band flags 0xfff =? Z.of_nat p))
         [COMPRESSION_NONE; COMPRESSION_GZ])
    (seq 0 4096) = true.
Proof. vm_compute. reflexivity. Qed.

Lemma flags_split (f : PharFile.t) :
  entryInRange f ->
  let flags := JS.ToUint32 (PharFile.getPharFlags f) in
  JS.band flags 0xf000 = PharFile.compression_type f
  /\ JS.band flags 0xfff = PharFile.permission f.
Proof.
  intros (_ & _ & _ & Hp & Hc & _). cbv zeta. unfold PharFile.getPharFlags.
  pose proof flags_checked as H. rewrite forallb_forall in H.
  specialize (H (Z.to_nat (PharFile.permission f))).
  rewrite Z2Nat.id in H by lia.
  assert (Hin : In (Z.to_nat (PharFile.permission f)) (seq 0 4096))
    by (apply in_seq; lia).
  specialize (H Hin). rewrite forallb_forall in H.
  specialize (H (PharFile.compression_type f)).
  assert (Hin' : In (PharFile.compression_type f) [COMPRESSION_NONE; COMPRESSION_GZ])
    by (destruct Hc as [-> | ->]; cbn; auto).
  specialize (H Hin'). cbv zeta in H.
  apply andb_true_iff in H. destruct H as [H1 H2].
  split; now apply Z.eqb_eq.
Qed.

Lemma fromUint8Array_toUint8Array (s : str) : fromUint8Array (toUint8Array s) = s.
Proof.
  unfold fromUint8Array, toUint8Array. rewrite map_map.
  induction s as [|c s IH]; [reflexivity|].
  cbn [map]. now rewrite fromCharCode_code, IH.
Qed.

Lemma toUint8Array_octets (s : str) : Forall (fun z => 0 <= z < 256) (toUint8Array s).
Proof.
  unfold toUint8Array. apply Forall_forall. intros z Hz.
  apply in_map_iff in Hz. destruct Hz as (c & <- & _). apply code_range.
Qed.

Lemma toUint8Array_fromUint8Array (d : list Z) :
  Forall (fun z => 0 <= z < 256) d -> toUint8Array (fromUint8Array d) = d.
Proof.
  unfold fromUint8Array, toUint8Array. rewrite map_map.
  induction 1 as [|z d Hz Hd IH]; [reflexivity|].
  cbn [map]. now rewrite code_fromCharCode, IH.
Qed.

(** Decompressing the compressed contents of a file gives its contents. *)
Lemma setContents_compressed (f : PharFile.t) (c : str) (this : PharFile.t) :
  zlibContract ext ->
  PharFile.compression_type f = COMPRESSION_NONE
  \/ PharFile.compression_type f = COMPRESSION_GZ ->
  PharFile.getCompressedContents f = Ok c ->
  PharFile.compression_type this = PharFile.compression_type f ->
  PharFile.setContents c true this
  = Ok (PharFile.with_contents (PharFile.contents f) this).
Proof.
  intros Hz Hc Hcomp Hsame.
  unfold PharFile.setContents. rewrite Hsame.
  unfold PharFile.getCompressedContents in Hcomp.
  destruct Hc as [E | E]; rewrite E in *.
  - change (COMPRESSION_NONE =? COMPRESSION_GZ) with false in Hcomp.
    change (COMPRESSION_NONE =? COMPRESSION_NONE) with true.
    now injection Hcomp as <-.
  - change (COMPRESSION_GZ =? COMPRESSION_GZ) with true in *.
    change (COMPRESSION_GZ =? COMPRESSION_NONE) with false.
    destruct (RawDeflate_compress (toUint8Array (PharFile.contents f)))
      as [d|] eqn:Ed; [|discriminate].
    injection Hcomp as <-.
    destruct (Hz _ _ (toUint8Array_octets _) Ed) as [Hoct Hinf].
    rewrite toUint8Array_fromUint8Array by exact Hoct.
    now rewrite Hinf, fromUint8Array_toUint8Array.
Qed.

Lemma orStr_nonempty (s default : str) : s <> [] -> JS.orStr (Some s) default = s.
Proof. destruct s; [contradiction | reflexivity]. Qed.

Lemma orStr_empty_default (s : str) : JS.orStr (Some s) [] = s.
Proof. destruct s; reflexivity. Qed.

Lemma orNum_nonzero (z default : Z) : z <> 0 -> JS.orNum (Some z) default = z.
Proof.
  intros H. unfold JS.orNum. destruct (Z.eqb_spec z 0); [contradiction | reflexivity].
Qed.

Lemma orNum_zero_default (z : Z) : JS.orNum (Some z) 0 = z.
Proof. unfold JS.orNum. destruct (Z.eqb_spec z 0); congruence. Qed.

(** On a page that binds [time] and [perm], the constructor gives back a
    file in range from its name, its compressed contents and its options. *)
Lemma PharFile_new_decoded (realm : Realm) (f : PharFile.t) (c : str) :
  zlibContract ext -> bindsGlobals realm -> entryInRange f ->
  PharFile.getCompressedContents f = Ok c ->
  PharFile.new (Some (PharFile.name f)) (Some c) (decodedOptions f) realm
  = (Ok f, realm).
Proof.
  intros Hz [(g & Hg & Hg0) (q & Hq & Hq0)] Hin Hcomp.
  pose proof Hin as (Hname & _ & Ht & Hp & Hc & _).
  unfold PharFile.new, decodedOptions.
  cbn [PharFile.opt_compression_type PharFile.opt_is_compressed
       PharFile.opt_timestamp PharFile.opt_metadata PharFile.opt_permission].
  rewrite orStr_nonempty by exact Hname.
  rewrite !orStr_empty_default.
  change COMPRESSION_NONE with 0 at 1. rewrite orNum_zero_default.
  rewrite !orNum_nonzero by lia.
  unfold PharFile.setCompressionType.
  replace (existsb (Z.eqb (PharFile.compression_type f)) SUPPORTED_COMPRESSION)
    with true by (destruct Hc as [-> | ->]; reflexivity).
  unfold mbind, liftR, ret.
  rewrite (setContents_compressed f c) by (assumption || reflexivity).
  unfold PharFile.setTimestamp. rewrite Hg.
  destruct (Z.ltb_spec g 0) as [Hneg | _]; [lia|].
  unfold PharFile.setPermission.
  destruct (Z.gtb_spec (PharFile.permission f) 4095) as [Hbig | _]; [lia|].
  rewrite Hq.
  destruct (Z.ltb_spec q 0) as [Hneg | _]; [lia|].
  destruct f; reflexivity.
Qed.

Lemma deleteFirst_absent (name : str) (fs : list PharFile.t) :
  ~ In name (map PharFile.name fs) ->
  Phar.deleteFirst name (map Some fs) = map Some fs.
Proof.
  induction fs as [|g fs IH]; intros Hno; [reflexivity|].
  cbn [map Phar.deleteFirst]. unfold PharFile.getName.
  rewrite str_eqb_neq by (intros E; apply Hno; left; exact E).
  rewrite IH; [reflexivity|]. intros Hin. apply Hno. now right.
Qed.

Lemma addFile_fresh (f : PharFile.t) (this : Phar.t) (fs : list PharFile.t) :
  Phar.files this = Phar.ArrayOf (map Some fs) ->
  ~ In (PharFile.name f) (map PharFile.name fs) ->
  Phar.addFile f this
  = Ok (Phar.with_files (Phar.ArrayOf (map Some (fs ++ [f]))) this).
Proof.
  intros Hfiles Hno. unfold Phar.addFile, Phar.removeFile, PharFile.getName.
  rewrite Hfiles, deleteFirst_absent by exact Hno.
  cbn [Phar.files Phar.with_files Phar.push bind].
  rewrite map_app. destruct this; reflexivity.
Qed.

End Decoding.

(** ** Round trip on a page that binds [time] and [perm] *)

(** One statement of the decoder has run: go on with the next one. *)
Ltac ran L s I :=
  let E := fresh "E" in
  destruct L as (s & E & I); rewrite (mbind_ok _ _ _ _ _ E); clear E.

Section RoundTripInRange.
Context {ext : Externals}.
Variable realm : Realm.
Hypothesis Hz : zlibContract ext.
Hypothesis Hrealm : bindsGlobals realm.

Lemma getLInt_reads_small (b : BinaryBuffer.t) (n : Z) (rest : str) :
  0 <= n < 2 ^ 32 ->
  reads b (Binary.writeLInt n ++ rest) ->
  exists b', BinaryBuffer.getLInt b = (Ok n, b') /\ reads b' rest.
Proof.
  intros Hn H. destruct (getLInt_reads b n rest H) as (b' & E & R).
  exists b'. split; [|exact R]. now rewrite ToUint32_small in E.
Qed.

(** One round of the loop reads back one file. *)
Lemma loadFile_decodes (f : PharFile.t) (c : str) (fs : list PharFile.t)
      (this : Phar.t) (rb rm : str) (s : Phar.Load) :
  entryInRange f ->
  PharFile.getCompressedContents f = Ok c ->
  len c < 2 ^ 32 ->
  Phar.files this = Phar.ArrayOf (map Some fs) ->
  ~ In (PharFile.name f) (map PharFile.name fs) ->
  loadsAt s realm this (c ++ rb) (manifestRecord f c ++ rm) ->
  exists s',
    Phar.loadFile s = (Ok tt, s')
    /\ loadsAt s' realm
               (Phar.with_files (Phar.ArrayOf (map Some (fs ++ [f]))) this) rb rm.
Proof.
  intros Hin Hc Hlc Hfiles Hfresh I0.
  pose proof Hin as (Hname & Hnl & Ht & Hp & Hct & Hml).
  pose proof (len_nonneg c) as Hc0.
  pose proof (crc32_range (PharFile.contents f)) as Hcrc.
  destruct (flags_split f Hin) as [F1 F2]. cbv zeta in F1, F2.
  assert (Htr : 0 <= PharFile.timestamp f < 2 ^ 32) by lia.
  assert (Hcr : 0 <= len c < 2 ^ 32) by lia.
  unfold manifestRecord in I0. rewrite <- !app_assoc in I0.
  unfold Phar.loadFile.
  ran (onManifest_step BinaryBuffer.getString (PharFile.name f) _ _ _ _ _ _
         (fun b => getString_reads b _ _ Hnl) I0) s1 I1.
  ran (onManifest_step (BinaryBuffer.skip 4) tt _ _ _ _ _ _
         (fun b => skip4_reads b _ _) I1) s2 I2.
  ran (onManifest_step BinaryBuffer.getLInt (PharFile.timestamp f) _ _ _ _ _ _
         (fun b => getLInt_reads_small b _ _ Htr) I2) s3 I3.
  ran (onManifest_step BinaryBuffer.getLInt (len c) _ _ _ _ _ _
         (fun b => getLInt_reads_small b _ _ Hcr) I3) s4 I4.
  ran (onManifest_step BinaryBuffer.getLInt (crc32 (PharFile.contents f)) _ _ _ _ _ _
         (fun b => getLInt_reads_small b _ _ Hcrc) I4) s5 I5.
  ran (onManifest_step BinaryBuffer.getLInt _ _ _ _ _ _ _
         (fun b => getLInt_reads b (PharFile.getPharFlags f) _) I5) s6 I6.
  ran (onManifest_step BinaryBuffer.getString (PharFile.metadata f) _ _ _ _ _ _
         (fun b => getString_reads b _ _ Hml) I6) s7 I7.
  cbv zeta. rewrite F1, F2.
  ran (onBuffer_step (BinaryBuffer.get (len c)) c _ _ _ _ _ _
         (fun b => get_reads b _ _) I7) s8 I8.
  ran (onRealm_step _ f _ _ _ _ _
         (PharFile_new_decoded realm f c Hz Hrealm Hin Hc) I8) s9 I9.
  unfold PharFile.getContents. rewrite Z.eqb_refl. cbn [negb].
  apply (onThis_step _ _ _ _ _ _ _ (addFile_fresh f this fs Hfiles Hfresh) I9).
Qed.

(** The loop reads back the files in their order. *)
Lemma loadFiles_decode (fs : list PharFile.t) :
  forall (cs : list str) (done : list PharFile.t) (this : Phar.t) (rb rm : str)
         (s : Phar.Load),
    Forall entryInRange fs ->
    Forall2 (fun f c => PharFile.getCompressedContents f = Ok c) fs cs ->
    Forall (fun c => len c < 2 ^ 32) cs ->
    NoDup (map PharFile.name (done ++ fs)) ->
    Phar.files this = Phar.ArrayOf (map Some done) ->
    loadsAt s realm this (List.concat cs ++ rb) (manifestRecords fs cs ++ rm) ->
    exists s',
      Phar.times (List.length fs) Phar.loadFile s = (Ok tt, s')
      /\ loadsAt s' realm
                 (Phar.with_files (Phar.ArrayOf (map Some (done ++ fs))) this) rb rm.
Proof.
  induction fs as [|f fs IH]; intros cs done this rb rm s Hin Hcs Hlen Hnd Hfiles I0.
  - inversion Hcs; subst. cbn in I0. cbn [List.length Phar.times].
    exists s. split; [reflexivity|].
    rewrite app_nil_r, <- Hfiles.
    destruct I0 as (Hr & Ht & Hb & Hm).
    repeat split; try assumption. rewrite Ht. destruct this; reflexivity.
  - inversion Hcs as [|f' c fs' cs' Hc Hcs']; subst.
    inversion Hin as [|f' fs' Hf Hin']; subst.
    inversion Hlen as [|c' cs'' Hlc Hlen']; subst.
    cbn [manifestRecords List.concat] in I0. rewrite <- !app_assoc in I0.
    assert (Hfresh : ~ In (PharFile.name f) (map PharFile.name done)).
    { rewrite map_app in Hnd. cbn [map] in Hnd.
      apply NoDup_remove_2 in Hnd. intros Hi. apply Hnd.
      apply in_or_app. now left. }
    destruct (loadFile_decodes f c done this _ _ s Hf Hc Hlc Hfiles Hfresh I0)
      as (s1 & E1 & I1).
    cbn [List.length Phar.times]. rewrite (mbind_ok _ _ _ _ _ E1).
    destruct (IH cs' (done ++ [f])
                 (Phar.with_files (Phar.ArrayOf (map Some (done ++ [f]))) this)
                 rb rm s1 Hin' Hcs' Hlen') as (s2 & E2 & I2).
    + now rewrite <- app_assoc.
    + reflexivity.
    + exact I1.
    + exists s2. split; [exact E2|].
      rewrite <- app_assoc in I2. cbn [app] in I2.
      destruct I2 as (Hr & Ht & Hb & Hm).
      repeat split; assumption.
Qed.

End RoundTripInRange.

Section RoundTripTheorem.
Context {ext : Externals}.

(** Where [loadPharData] finds the end of the stub in the signed bytes. *)
Lemma indexOf_stub (stub tail : str) :
  stubInRange stub ->
  indexOf (stub ++ tail) STUB_END = len stub - len STUB_END
  /\ 0 <= len stub - len STUB_END.
Proof.
  intros (pre & -> & Hone).
  assert (E : indexOf ((pre ++ STUB_END) ++ tail) STUB_END = Z.of_nat (List.length pre)).
  { apply indexOf_first.
    - exists pre, tail. split; [now rewrite <- app_assoc | reflexivity].
    - intros j Hj Hoc.
      assert (Hin : occursAt STUB_END ((pre ++ STUB_END) ++ []) j).
      { apply occursAt_within with (x := tail); [exact Hoc|].
        rewrite length_app. lia. }
      rewrite app_nil_r in Hin. apply Hone in Hin. lia. }
  rewrite E, len_app. unfold len. lia.
Qed.

Lemma onBuffer_reset (data : str) (s : Phar.Load) (realm : Realm) (this : Phar.t)
      (rb rm : str) :
  loadsAt s realm this rb rm ->
  exists s',
    Phar.onBuffer (modify (fun _ => BinaryBuffer.new (Some data))) s = (Ok tt, s')
    /\ loadsAt s' realm this data rm.
Proof.
  intros (Hr & Ht & Hb & Hm). eexists. split; [reflexivity|].
  repeat split; try assumption. apply reads_new.
Qed.

Lemma onManifest_reset (data : str) (s : Phar.Load) (realm : Realm) (this : Phar.t)
      (rb rm : str) :
  loadsAt s realm this rb rm ->
  exists s',
    Phar.onManifest (modify (fun _ => BinaryBuffer.new (Some data))) s = (Ok tt, s')
    /\ loadsAt s' realm this rb data.
Proof.
  intros (Hr & Ht & Hb & Hm). eexists. split; [reflexivity|].
  repeat split; try assumption. apply reads_new.
Qed.

Lemma compressed_in_range (fs : list PharFile.t) (cs : list str) :
  payloadsInRange fs ->
  Forall2 (fun f c => PharFile.getCompressedContents f = Ok c) fs cs ->
  Forall (fun c => len c < 2 ^ 32) cs.
Proof.
  intros Hp H. induction H as [|f c fs cs Hc H IH]; constructor.
  - apply (Hp f c); [now left | exact Hc].
  - apply IH. intros g d Hg. apply Hp. now right.
Qed.


End RoundTripTheorem.

Lemma standIn_zlibContract : zlibContract standIn.
Proof.
  intros x d Hx E. cbn in E. injection E as <-. split; [exact Hx | reflexivity].
Qed.

Lemma boundRealm_bindsGlobals (now : Z) : bindsGlobals (boundRealm now).
Proof. split; exists 0; split; (reflexivity || lia). Qed.


Section Saving.
Context {ext : Externals}.

(** The loop of [savePharData] goes through when every file compresses. *)
Lemma saveFiles_succeed (fs : list PharFile.t) :
  Forall (fun f => exists c, PharFile.getCompressedContents f = Ok c) fs ->
  forall (mb : BinaryBuffer.t) (ac : str),
  exists mb' ac',
    fold_left (fun acc file => let* a := acc in Phar.saveFile file a) fs
              (Ok (mb, ac)) = Ok (mb', ac').
Proof.
  induction 1 as [|f fs [c Hc] _ IH]; intros mb ac.
  - exists mb, ac. reflexivity.
  - cbn [fold_left bind]. unfold Phar.saveFile at 2. rewrite Hc. cbn [bind].
    apply IH.
Qed.


End Saving.


Lemma scenario_two_files_in_range : archiveInRange scenario_two_files two_files.
Proof.
  split; [reflexivity|].
  split; [repeat constructor; cbn; intuition discriminate|].
  split.
  { constructor; [|constructor; [|constructor]].
    - repeat split; try discriminate; cbn; lia.
    - repeat split; try discriminate; cbn; lia. }
  split; [cbn; lia|].
  split.
  { exists (lit "<?php "). split; [reflexivity|]. intros k Hk.
    destruct (indexOf_sound (toLowerCase (lit "<?php __halt_compiler();"))
                halt_token 6 eq_refl ltac:(lia)) as [Hocc Hmin].
    now apply (normalized_one_terminator (lit "<?php __halt_compiler();") 6%nat
                 Hocc Hmin k). }
  repeat split; cbn; lia.
Qed.




(** ** Little-endian numbers, both ways *)

Section LittleEndianInverse.

Lemma octet_digits (a b c d : Z) :
  0 <= a < 256 -> 0 <= b < 256 -> 0 <= c < 256 -> 0 <= d < 256 ->
  let n := a + b * 2 ^ 8 + c * 2 ^ 16 + d * 2 ^ 24 in
  0 <= n < 2 ^ 32
  /\ n mod 2 ^ 8 = a /\ (n / 2 ^ 8) mod 2 ^ 8 = b
  /\ (n / 2 ^ 16) mod 2 ^ 8 = c /\ (n / 2 ^ 24) mod 2 ^ 8 = d.
Proof.
  intros Ha Hb Hc Hd. cbv zeta.
  change (2 ^ 8) with 256. change (2 ^ 16) with 65536.
  change (2 ^ 24) with 16777216. change (2 ^ 32) with 4294967296.
  repeat split; try lia; Z.div_mod_to_equations; lia.
Qed.

Lemma writeLInt_of_octets (a b c d : ascii) :
  Binary.writeLInt (code a + code b * 2 ^ 8 + code c * 2 ^ 16 + code d * 2 ^ 24)
  = [a; b; c; d].
Proof.
  destruct (octet_digits (code a) (code b) (code c) (code d)
              (code_range a) (code_range b) (code_range c) (code_range d))
    as (Hn & E0 & E1 & E2 & E3).
  rewrite writeLInt_octets. cbv zeta.
  rewrite ToUint32_small by exact Hn.
  rewrite E0, E1, E2, E3. now rewrite !fromCharCode_code.
Qed.

Lemma readLShort_writeLShort_wraps (n : Z) :
  Binary.readLShort (Binary.writeLShort n) = n mod 2 ^ 16.
Proof.
  rewrite writeLShort_octets. cbv zeta.
  rewrite readLShort_octets.
  rewrite !code_fromCharCode by (apply Z.mod_pos_bound; lia).
  unfold JS.ToUint32.
  change (2 ^ 8) with 256. change (2 ^ 16) with 65536.
  change (2 ^ 32) with 4294967296.
  Z.div_mod_to_equations. lia.
Qed.

Lemma writeLShort_of_octets (a b : ascii) :
  Binary.writeLShort (code a + code b * 2 ^ 8) = [a; b].
Proof.
  pose proof (code_range a) as Ha. pose proof (code_range b) as Hb.
  rewrite writeLShort_octets. cbv zeta.
  rewrite ToUint32_small by lia.
  replace ((code a + code b * 2 ^ 8) mod 2 ^ 8) with (code a)
    by (change (2 ^ 8) with 256; Z.div_mod_to_equations; lia).
  replace (((code a + code b * 2 ^ 8) / 2 ^ 8) mod 2 ^ 8) with (code b)
    by (change (2 ^ 8) with 256; Z.div_mod_to_equations; lia).
  now rewrite !fromCharCode_code.
Qed.

(** What [readLInt] sees at place [i]: past the end of the buffer
    [charCodeAt] is [NaN], which [<<] reads as 0. *)
Lemma charCodeAt_padded (buffer : str) (i : Z) :
  In i [0; 1; 2; 3] ->
  JS.nanToZero (charCodeAt buffer i)
  = JS.nanToZero (charCodeAt (firstn 4 (buffer ++ repeat zero 4)) i).
Proof.
  intros [<- | [<- | [<- | [<- | []]]]];
    destruct buffer as [|a [|b [|c [|d rest]]]]; reflexivity.
Qed.

End LittleEndianInverse.

(** [writeLInt] and [readLInt] are inverse to each other on four octets:
    writing the number read from four octets gives the four octets back, and
    reading what was written for any integer, negative or above 32 bits,
    gives the integer modulo 2^32. *)
Theorem writeLInt_readLInt (a b c d : ascii) (n : Z) :
  Binary.writeLInt (Binary.readLInt [a; b; c; d]) = [a; b; c; d]
  /\ Binary.readLInt (Binary.writeLInt n) = n mod 2 ^ 32.
Proof.
  split.
  - rewrite readLInt_octets. apply writeLInt_of_octets.
  - apply readLInt_writeLInt_mod.
Qed.

(** [readLInt] reads a buffer shorter than four octets as if zeros followed
    it, and ignores whatever follows the fourth octet: [charCodeAt] is [NaN]
    past the end, and [NaN << k] is 0. *)
Theorem readLInt_pads_with_zeros (buffer : str) :
  Binary.readLInt buffer = Binary.readLInt (firstn 4 (buffer ++ repeat zero 4)).
Proof.
  unfold Binary.readLInt. cbn [fold_left].
  rewrite (charCodeAt_padded buffer 0), (charCodeAt_padded buffer 1),
    (charCodeAt_padded buffer 2), (charCodeAt_padded buffer 3) by (cbn; auto).
  reflexivity.
Qed.

(** The 16-bit pair: reading what [writeLShort] wrote for any integer gives
    the integer modulo 2^16, and writing the number read from two octets
    gives the two octets back. *)
Theorem readLShort_writeLShort_mod (a b : ascii) (n : Z) :
  Binary.readLShort (Binary.writeLShort n) = n mod 2 ^ 16
  /\ Binary.writeLShort (Binary.readLShort [a; b]) = [a; b].
Proof.
  split.
  - apply readLShort_writeLShort_wraps.
  - rewrite readLShort_octets. apply writeLShort_of_octets.
Qed.

(** ** The cursor: reads that cannot fail, reads that keep failing *)

Section CursorEdges.

Lemma skipn_all_Z (s : str) (k : Z) : len s <= k -> skipn (Z.to_nat k) s = [].
Proof. intros H. apply skipn_all2. unfold len in H. lia. Qed.

Lemma substring_to_end (s : str) (k : Z) :
  0 <= k <= len s -> substring s k (len s) = skipn (Z.to_nat k) s.
Proof.
  intros Hk. unfold substring, clamp.
  rewrite (Z.min_l k) by lia. rewrite (Z.max_r 0 k) by lia.
  rewrite Z.min_id, (Z.max_r 0 (len s)) by lia.
  rewrite Z.min_l, Z.max_r by lia.
  apply firstn_all2. rewrite length_skipn. unfold len. lia.
Qed.

(** A read of a positive length that passes the end. *)
Lemma get_beyond (b : BinaryBuffer.t) (m : Z) :
  m > 0 -> BinaryBuffer.offset b + m > len (BinaryBuffer.buffer b) ->
  BinaryBuffer.get m b
  = (Throw OutOfBounds,
     {| BinaryBuffer.buffer := BinaryBuffer.buffer b;
        BinaryBuffer.offset := BinaryBuffer.offset b + m |}).
Proof.
  intros Hm Hover. unfold BinaryBuffer.get.
  destruct (Z.ltb_spec m 0) as [Hneg | _]; [lia|].
  destruct (Z.eqb_spec m 0) as [Hz | _]; [lia|].
  cbn [BinaryBuffer.buffer BinaryBuffer.offset].
  destruct (Z.gtb_spec (BinaryBuffer.offset b + m) (len (BinaryBuffer.buffer b)))
    as [_ | Hle]; [reflexivity | lia].
Qed.

Lemma get_keeps_buffer (b : BinaryBuffer.t) (m : Z) :
  BinaryBuffer.buffer (snd (BinaryBuffer.get m b)) = BinaryBuffer.buffer b.
Proof.
  unfold BinaryBuffer.get.
  repeat match goal with
         | |- context [if ?c then _ else _] => destruct c
         end; reflexivity.
Qed.

Lemma getLInt_beyond (b : BinaryBuffer.t) :
  BinaryBuffer.offset b + 4 > len (BinaryBuffer.buffer b) ->
  BinaryBuffer.getLInt b
  = (Throw OutOfBounds,
     {| BinaryBuffer.buffer := BinaryBuffer.buffer b;
        BinaryBuffer.offset := BinaryBuffer.offset b + 4 |}).
Proof.
  intros H. unfold BinaryBuffer.getLInt, mbind.
  now rewrite get_beyond by lia.
Qed.

Lemma reads_offset (b : BinaryBuffer.t) (rest : str) :
  reads b rest ->
  BinaryBuffer.offset b + len rest = len (BinaryBuffer.buffer b)
  /\ 0 <= BinaryBuffer.offset b.
Proof.
  intros (pre & Hb & Ho). rewrite Hb, Ho, len_app.
  pose proof (len_nonneg pre). lia.
Qed.

Lemma reads_end (b : BinaryBuffer.t) :
  BinaryBuffer.offset b = len (BinaryBuffer.buffer b) -> reads b [].
Proof. intros H. exists (BinaryBuffer.buffer b). now rewrite app_nil_r. Qed.

Lemma reads_put (b : BinaryBuffer.t) (rest data : str) :
  reads b rest -> reads (BinaryBuffer.put data b) (rest ++ data).
Proof.
  intros (pre & Hb & Ho). exists pre.
  cbn [BinaryBuffer.put BinaryBuffer.buffer BinaryBuffer.offset].
  split; [now rewrite Hb, <- app_assoc | exact Ho].
Qed.

Lemma reads_at_end (b : BinaryBuffer.t) :
  reads b [] ->
  b = {| BinaryBuffer.buffer := BinaryBuffer.buffer b;
         BinaryBuffer.offset := len (BinaryBuffer.buffer b) |}.
Proof.
  intros (pre & Hb & Ho). rewrite app_nil_r in Hb.
  destruct b as [buf off]. cbn in *. now subst.
Qed.

End CursorEdges.

(** [get] with a negative length never fails: it returns whatever the
    cursor has not read yet and moves the cursor to the end of the buffer;
    on a cursor at or past the end it returns the empty string and moves
    nothing. *)
Theorem get_negative_length (this : BinaryBuffer.t) (n : Z) :
  n < 0 -> 0 <= BinaryBuffer.offset this ->
  BinaryBuffer.get n this
  = (Ok (skipn (Z.to_nat (BinaryBuffer.offset this)) (BinaryBuffer.buffer this)),
     {| BinaryBuffer.buffer := BinaryBuffer.buffer this;
        BinaryBuffer.offset :=
          Z.max (BinaryBuffer.offset this) (len (BinaryBuffer.buffer this)) |}).
Proof.
  intros Hn Ho. destruct this as [buf off]. cbn [BinaryBuffer.offset BinaryBuffer.buffer] in *.
  unfold BinaryBuffer.get. cbn [BinaryBuffer.offset BinaryBuffer.buffer].
  destruct (Z.ltb_spec n 0) as [_ | Hge]; [|lia].
  destruct (Z.eqb_spec (Z.max 0 (len buf - off)) 0) as [Hz | Hnz].
  - rewrite skipn_all_Z by lia. rewrite Z.max_l by lia. reflexivity.
  - rewrite (Z.max_r 0 (len buf - off)) by lia.
    replace (off + (len buf - off)) with (len buf) by lia.
    destruct (Z.gtb_spec (len buf) (len buf)) as [Hgt | _]; [lia|].
    replace (len buf - (len buf - off)) with off by lia.
    rewrite substring_to_end by lia. rewrite Z.max_r by lia. reflexivity.
Qed.

Lemma get_negative_length_witness :
  BinaryBuffer.get (-1) {| BinaryBuffer.buffer := lit "abcde"; BinaryBuffer.offset := 2 |}
  = (Ok (lit "cde"),
     {| BinaryBuffer.buffer := lit "abcde"; BinaryBuffer.offset := 5 |}).
Proof.
  apply (get_negative_length
           {| BinaryBuffer.buffer := lit "abcde"; BinaryBuffer.offset := 2 |} (-1));
    cbn; lia.
Defined.



(** On a cursor at the end of its buffer, [getString] after [putString data]
    returns [data] and leaves the cursor at the end again, for every [data]
    shorter than 2^32 octets, the empty string included. *)
Theorem getString_putString (this : BinaryBuffer.t) (data : str) :
  BinaryBuffer.offset this = len (BinaryBuffer.buffer this) ->
  len data < 2 ^ 32 ->
  BinaryBuffer.getString (BinaryBuffer.putString data this)
  = (Ok data,
     {| BinaryBuffer.buffer := BinaryBuffer.buffer this ++ lenString data;
        BinaryBuffer.offset := len (BinaryBuffer.buffer this ++ lenString data) |}).
Proof.
  intros Hend Hlen.
  assert (R : reads (BinaryBuffer.putString data this) (lenString data ++ [])).
  { exists (BinaryBuffer.buffer this).
    rewrite putString_buffer, app_nil_r. split; [reflexivity | exact Hend]. }
  destruct (getString_reads _ _ _ Hlen R) as (b' & E & R').
  rewrite E. f_equal.
  assert (Hb : BinaryBuffer.buffer b'
               = BinaryBuffer.buffer this ++ lenString data).
  { rewrite <- putString_buffer.
    change b' with (snd (Ok data, b')). rewrite <- E.
    unfold BinaryBuffer.getString, mbind.
    destruct (BinaryBuffer.getLInt _) as [[k | e] b1] eqn:E1.
    - rewrite get_keeps_buffer.
      change b1 with (snd (Ok k, b1)). rewrite <- E1.
      unfold BinaryBuffer.getLInt, mbind, ret.
      destruct (BinaryBuffer.get 4 _) as [[x | e] b0] eqn:E0;
        change b0 with (snd (@Ok str x, b0)) || change b0 with (snd (@Throw str e, b0));
        rewrite <- E0; apply get_keeps_buffer.
    - change b1 with (snd (@Throw Z e, b1)). rewrite <- E1.
      unfold BinaryBuffer.getLInt, mbind, ret.
      destruct (BinaryBuffer.get 4 _) as [[x | e'] b0] eqn:E0;
        change b0 with (snd (@Ok str x, b0)) || change b0 with (snd (@Throw str e', b0));
        rewrite <- E0; apply get_keeps_buffer. }
  rewrite (reads_at_end b' R'). now rewrite Hb.
Qed.

Lemma getString_putString_witness :
  BinaryBuffer.getString (BinaryBuffer.putString (lit "a.txt") (BinaryBuffer.new None))
  = (Ok (lit "a.txt"),
     {| BinaryBuffer.buffer := [] ++ lenString (lit "a.txt");
        BinaryBuffer.offset := len ([] ++ lenString (lit "a.txt")) |}).
Proof.
  apply (getString_putString (BinaryBuffer.new None) (lit "a.txt")).
  - reflexivity.
  - cbn. lia.
Defined.

(** On a cursor at the end of its buffer, a number comes back from the
    buffer modulo its field: [getLInt] after [putLInt n] returns [n] modulo
    2^32, and [getLShort] after [putLShort n] returns [n] modulo 2^16. *)
Theorem getLInt_putLInt (this : BinaryBuffer.t) (n : Z) :
  BinaryBuffer.offset this = len (BinaryBuffer.buffer this) ->
  fst (BinaryBuffer.getLInt (BinaryBuffer.putLInt n this)) = Ok (n mod 2 ^ 32)
  /\ fst (BinaryBuffer.getLShort (BinaryBuffer.putLShort n this)) = Ok (n mod 2 ^ 16).
Proof.
  intros Hend. split.
  - assert (R : reads (BinaryBuffer.putLInt n this) (Binary.writeLInt n ++ [])).
    { exists (BinaryBuffer.buffer this). rewrite app_nil_r.
      split; [reflexivity | exact Hend]. }
    destruct (getLInt_reads _ _ _ R) as (b' & E & _). now rewrite E.
  - assert (R : reads (BinaryBuffer.putLShort n this) (Binary.writeLShort n ++ [])).
    { exists (BinaryBuffer.buffer this). rewrite app_nil_r.
      split; [reflexivity | exact Hend]. }
    destruct (get_reads _ _ _ R) as (b' & E & _).
    unfold BinaryBuffer.getLShort, mbind, ret.
    change 2 with (len (Binary.writeLShort n)). rewrite E. cbn [fst].
    now rewrite readLShort_writeLShort_wraps.
Qed.

Lemma getLInt_putLInt_witness :
  fst (BinaryBuffer.getLInt (BinaryBuffer.putLInt (-1) (BinaryBuffer.new None)))
  = Ok ((-1) mod 2 ^ 32)
  /\ fst (BinaryBuffer.getLShort (BinaryBuffer.putLShort (-1) (BinaryBuffer.new None)))
     = Ok ((-1) mod 2 ^ 16).
Proof.
  apply (getLInt_putLInt (BinaryBuffer.new None) (-1)). reflexivity.
Defined.

(** A length-prefixed string that was cut short is refused: when fewer than
    four octets are left, or when the 32-bit length in front announces more
    octets than are left after it, [getString] fails with [OutOfBounds]. *)
Theorem getString_truncated (this : BinaryBuffer.t) (n : Z) (rest : str) :
  (reads this rest -> len rest < 4 ->
   fst (BinaryBuffer.getString this) = Throw OutOfBounds)
  /\ (reads this (Binary.writeLInt n ++ rest) -> len rest < n mod 2 ^ 32 ->
      fst (BinaryBuffer.getString this) = Throw OutOfBounds).
Proof.
  split.
  - intros R Hshort. destruct (reads_offset _ _ R) as [Ho _].
    unfold BinaryBuffer.getString, mbind. now rewrite getLInt_beyond by lia.
  - intros R Hshort.
    destruct (getLInt_reads _ _ _ R) as (b' & E & R').
    destruct (reads_offset _ _ R') as [Ho _].
    pose proof (len_nonneg rest) as Hr.
    unfold BinaryBuffer.getString, mbind. rewrite E.
    unfold JS.ToUint32. now rewrite get_beyond by lia.
Qed.

Lemma getString_truncated_witness :
  fst (BinaryBuffer.getString (BinaryBuffer.new (Some (lit "abc")))) = Throw OutOfBounds
  /\ fst (BinaryBuffer.getString
            (BinaryBuffer.new (Some (Binary.writeLInt 3 ++ lit "ab"))))
     = Throw OutOfBounds.
Proof.
  split.
  - apply (proj1 (getString_truncated (BinaryBuffer.new (Some (lit "abc"))) 0
                    (lit "abc"))).
    + apply reads_new.
    + cbn. lia.
  - apply (proj2 (getString_truncated
                    (BinaryBuffer.new (Some (Binary.writeLInt 3 ++ lit "ab"))) 3
                    (lit "ab"))).
    + apply reads_new.
    + cbn. lia.
Defined.

(** ** What the [PharFile] constructor guarantees *)

Section Constructor.
Context {ext : Externals}.

(** The steps of the constructor, one after the other. *)
Lemma PharFile_new_steps (name contents : option str) (options : PharFile.Options)
      (realm realm' : Realm) (file : PharFile.t) :
  PharFile.new name contents options realm = (Ok file, realm') ->
  exists f1 f2 f3 f4 r3,
    PharFile.setCompressionType
      (JS.orNum (PharFile.opt_compression_type options) COMPRESSION_NONE)
      (PharFile.with_name (JS.orStr name (lit "newfile")) PharFile.blank) = Ok f1
    /\ PharFile.setContents (JS.orStr contents []) (PharFile.opt_is_compressed options) f1
       = Ok f2
    /\ PharFile.setTimestamp (JS.orNum (PharFile.opt_timestamp options) (-1)) f2 realm
       = (Ok f3, r3)
    /\ PharFile.setPermission (JS.orNum (PharFile.opt_permission options) 438) f3 r3
       = (Ok f4, realm')
    /\ file = PharFile.with_metadata (JS.orStr (PharFile.opt_metadata options) []) f4.
Proof.
  unfold PharFile.new, mbind, liftR, ret.
  destruct (PharFile.setCompressionType _ _) as [f1 | e] eqn:E1; [|discriminate].
  destruct (PharFile.setContents _ _ f1) as [f2 | e] eqn:E2; [|discriminate].
  destruct (PharFile.setTimestamp _ f2 realm) as [[f3 | e] r3] eqn:E3; [|discriminate].
  destruct (PharFile.setPermission _ f3 r3) as [[f4 | e] r4] eqn:E4; [|discriminate].
  intros E. injection E as <- <-.
  exists f1, f2, f3, f4, r3. repeat split; assumption.
Qed.

Lemma setCompressionType_supported (type : Z) (this f : PharFile.t) :
  PharFile.setCompressionType type this = Ok f ->
  f = PharFile.with_compression_type type this
  /\ (type = COMPRESSION_NONE \/ type = COMPRESSION_GZ).
Proof.
  unfold PharFile.setCompressionType, SUPPORTED_COMPRESSION. cbn [existsb].
  destruct (Z.eqb_spec type 0) as [-> | _].
  - intros E. injection E as <-. split; [reflexivity | now left].
  - destruct (Z.eqb_spec type 4096) as [-> | _]; [|discriminate].
    intros E. injection E as <-. split; [reflexivity | now right].
Qed.

Lemma setContents_keeps (v : str) (is_compressed : bool) (this f : PharFile.t) :
  PharFile.setContents v is_compressed this = Ok f ->
  PharFile.name f = PharFile.name this
  /\ PharFile.compression_type f = PharFile.compression_type this.
Proof.
  unfold PharFile.setContents.
  repeat match goal with
         | |- context [if ?b then _ else _] => destruct b
         | |- context [match ?o with Some _ => _ | None => _ end] => destruct o
         end; try discriminate; intros E; injection E as <-; split; reflexivity.
Qed.

Lemma setTimestamp_keeps (t : Z) (this f : PharFile.t) (realm r : Realm) :
  PharFile.setTimestamp t this realm = (Ok f, r) ->
  (exists g, global_time realm = Some g)
  /\ global_perm r = global_perm realm
  /\ f = PharFile.with_timestamp t this.
Proof.
  unfold PharFile.setTimestamp.
  destruct (global_time realm) as [g|]; [|discriminate].
  intros E. injection E as <- <-. split; [now exists g|].
  split; [now destruct (g <? 0) | reflexivity].
Qed.

Lemma setPermission_keeps (p : Z) (this f : PharFile.t) (realm r : Realm) :
  PharFile.setPermission p this realm = (Ok f, r) ->
  (exists q, global_perm realm = Some q)
  /\ p <= 4095
  /\ f = PharFile.with_permission p this.
Proof.
  unfold PharFile.setPermission.
  destruct (Z.gtb_spec p 4095) as [_ | Hp]; [discriminate|].
  destruct (global_perm realm) as [q|]; [|discriminate].
  destruct (q <? 0); [discriminate|].
  intros E. injection E as <- _. split; [now exists q|]. split; [lia | reflexivity].
Qed.

Lemma orStr_default_nonempty (a : option str) (b : str) :
  b <> [] -> JS.orStr a b <> [].
Proof. intros Hb. destruct a as [[|c s]|]; cbn; try assumption. discriminate. Qed.

End Constructor.

(** Whenever [new PharFile(...)] returns, the page declares the two globals
    [time] and [perm]: on a page that lacks either, the constructor returns
    for no arguments at all. *)
Theorem PharFile_new_needs_globals
        (ext : Externals) (name contents : option str) (options : PharFile.Options)
        (realm realm' : Realm) (file : PharFile.t) :
  PharFile.new name contents options realm = (Ok file, realm') ->
  (exists g, global_time realm = Some g)
  /\ (exists q, global_perm realm = Some q).
Proof.
  intros E.
  destruct (PharFile_new_steps _ _ _ _ _ _ E) as (f1 & f2 & f3 & f4 & r3 & _ & _ & E3 & E4 & _).
  destruct (setTimestamp_keeps _ _ _ _ _ E3) as (Hg & Hsame & _).
  destruct (setPermission_keeps _ _ _ _ _ E4) as (Hq & _).
  split; [exact Hg|]. now rewrite <- Hsame.
Qed.

Lemma PharFile_new_needs_globals_witness :
  (exists g, global_time (boundRealm 0) = Some g)
  /\ (exists q, global_perm (boundRealm 0) = Some q).
Proof.
  destruct (PharFile.new (ext := standIn) (Some (lit "a.txt")) (Some (lit "hi"))
              PharFile.noOptions (boundRealm 0)) as [[file | e] realm'] eqn:E.
  - exact (PharFile_new_needs_globals standIn _ _ _ _ _ _ E).
  - vm_compute in E. discriminate E.
Defined.

(** Whenever [new PharFile(...)] returns a file, the file has a supported
    compression type (NONE or GZ), a permission of at most 4095 and a name
    that is not empty; and the constructor never raises 'Unsupported
    compression type detected!': [setCompressionType] has refused every
    other type before [setContents] looks at it. *)
Theorem PharFile_new_invariants
        (ext : Externals) (name contents : option str) (options : PharFile.Options)
        (realm : Realm) :
  fst (PharFile.new name contents options realm) <> Throw UnsupportedCompression
  /\ forall file,
       fst (PharFile.new name contents options realm) = Ok file ->
       In (PharFile.compression_type file) SUPPORTED_COMPRESSION
       /\ PharFile.permission file <= 4095
       /\ PharFile.name file <> [].
Proof.
  split.
  - unfold PharFile.new, mbind, liftR, ret.
    destruct (PharFile.setCompressionType _ _) as [f1 | e] eqn:E1.
    + destruct (setCompressionType_supported _ _ _ E1) as [-> Hct].
      unfold PharFile.setContents.
      cbn [PharFile.compression_type PharFile.with_compression_type].
      assert (Hd : forall r : result PharFile.t,
                 r <> Throw UnsupportedCompression ->
                 (forall f, r = Ok f -> True) ->
                 fst (match (r, realm) with
                      | (Ok a, s') =>
                          match PharFile.setTimestamp
                                  (JS.orNum (PharFile.opt_timestamp options) (-1)) a s' with
                          | (Ok a0, s'0) =>
                              match PharFile.setPermission
                                      (JS.orNum (PharFile.opt_permission options) 438)
                                      a0 s'0 with
                              | (Ok a1, s'1) =>
                                  (Ok (PharFile.with_metadata
                                         (JS.orStr (PharFile.opt_metadata options) []) a1),
                                   s'1)
                              | (Throw e, s'1) => (Throw e, s'1)
                              end
                          | (Throw e, s'0) => (Throw e, s'0)
                          end
                      | (Throw e, s') => (Throw e, s')
                      end) <> Throw UnsupportedCompression).
      { intros [a | e] Hr _; [|exact Hr].
        unfold PharFile.setTimestamp.
        destruct (global_time realm) as [g|]; [|discriminate].
        unfold PharFile.setPermission.
        destruct (_ >? 4095); [discriminate|].
        match goal with
        | |- context [global_perm ?r] => destruct (global_perm r) as [q|]
        end; [|discriminate].
        destruct (q <? 0); discriminate. }
      apply Hd; [|trivial].
      destruct (PharFile.opt_is_compressed options); [|discriminate].
      destruct Hct as [-> | ->].
      * change (COMPRESSION_NONE =? COMPRESSION_NONE) with true. discriminate.
      * change (COMPRESSION_GZ =? COMPRESSION_NONE) with false.
        change (COMPRESSION_GZ =? COMPRESSION_GZ) with true.
        destruct (RawInflate_decompress _); discriminate.
    + unfold PharFile.setCompressionType in E1.
      destruct (existsb _ _); [discriminate|]. injection E1 as <-. discriminate.
  - intros file Hfile.
    destruct (PharFile.new name contents options realm) as [r realm'] eqn:E.
    cbn [fst] in Hfile. subst r.
    destruct (PharFile_new_steps _ _ _ _ _ _ E)
      as (f1 & f2 & f3 & f4 & r3 & E1 & E2 & E3 & E4 & ->).
    destruct (setCompressionType_supported _ _ _ E1) as [-> Hct].
    destruct (setContents_keeps _ _ _ _ E2) as [N2 C2].
    destruct (setTimestamp_keeps _ _ _ _ _ E3) as (_ & _ & ->).
    destruct (setPermission_keeps _ _ _ _ _ E4) as (_ & Hp & ->).
    cbn [PharFile.compression_type PharFile.permission PharFile.name
         PharFile.with_metadata PharFile.with_permission PharFile.with_timestamp
         PharFile.with_compression_type PharFile.with_name] in *.
    split; [|split].
    + rewrite C2. unfold SUPPORTED_COMPRESSION. cbn [In].
      destruct Hct as [-> | ->]; auto.
    + exact Hp.
    + rewrite N2. apply orStr_default_nonempty. discriminate.
Qed.

Lemma PharFile_new_invariants_witness :
  exists file,
    fst (PharFile.new (ext := standIn) (Some []) (Some (lit "hi"))
           {| PharFile.opt_compression_type := Some COMPRESSION_GZ;
              PharFile.opt_is_compressed := true;
              PharFile.opt_timestamp := None;
              PharFile.opt_metadata := None;
              PharFile.opt_permission := Some (-1) |} (boundRealm 0)) = Ok file
    /\ In (PharFile.compression_type file) SUPPORTED_COMPRESSION
    /\ PharFile.permission file <= 4095
    /\ PharFile.name file <> [].
Proof.
  destruct (fst (PharFile.new (ext := standIn) (Some []) (Some (lit "hi"))
           {| PharFile.opt_compression_type := Some COMPRESSION_GZ;
              PharFile.opt_is_compressed := true;
              PharFile.opt_timestamp := None;
              PharFile.opt_metadata := None;
              PharFile.opt_permission := Some (-1) |} (boundRealm 0)))
    as [file | e] eqn:E.
  - exists file. split; [reflexivity|].
    exact (proj2 (PharFile_new_invariants standIn _ _ _ _) file E).
  - vm_compute in E. discriminate E.
Defined.

(** Compressing a file and handing the result back to [setContents] as
    compressed contents restores the file, for both supported compression
    types, when inflate inverts deflate. *)
Theorem setContents_getCompressedContents
        (ext : Externals) (f : PharFile.t) (c : str) :
  zlibContract ext ->
  In (PharFile.compression_type f) SUPPORTED_COMPRESSION ->
  PharFile.getCompressedContents f = Ok c ->
  PharFile.setContents c true f = Ok f.
Proof.
  intros Hz Hct Hc.
  rewrite (setContents_compressed f c f Hz); [now destruct f | | exact Hc | reflexivity].
  unfold SUPPORTED_COMPRESSION in Hct. cbn [In] in Hct.
  destruct Hct as [<- | [<- | []]]; auto.
Qed.

Lemma setContents_getCompressedContents_witness :
  let f := PharFile.with_compression_type COMPRESSION_GZ scenario_file in
  exists c,
    PharFile.getCompressedContents (ext := standIn) f = Ok c
    /\ PharFile.setContents (ext := standIn) c true f = Ok f.
Proof.
  intros f. exists (lit "hi"). split; [reflexivity|].
  apply (setContents_getCompressedContents standIn f (lit "hi")).
  - exact standIn_zlibContract.
  - cbn. auto.
  - reflexivity.
Defined.

(** ** The flags word of a file *)

Lemma flags_word_checked :
  forallb
    (fun p =>
       forallb
         (fun ct =>
            let flags := JS.bor (Z.of_nat p) ct in
            (JS.band flags 0xfff =? Z.of_nat p) && (JS.band flags 0xf000 =? ct)
            && (0 <=? flags) && (flags <? 2 ^ 13))
         SUPPORTED_COMPRESSION)
    (seq 0 4096) = true.
Proof. vm_compute. reflexivity. Qed.

(** For a permission in 0..4095 and a supported compression type, the flags
    word [permission | compression_type] that [savePharData] writes gives
    both back under the masks [loadPharData] applies, [& 0xfff] and
    [& 0xf000], and it passes through its 32-bit field unchanged. *)
Theorem getPharFlags_split (f : PharFile.t) :
  0 <= PharFile.permission f <= 4095 ->
  In (PharFile.compression_type f) SUPPORTED_COMPRESSION ->
  let flags := Binary.readLInt (Binary.writeLInt (PharFile.getPharFlags f)) in
  flags = PharFile.getPharFlags f
  /\ JS.band flags 0xfff = PharFile.permission f
  /\ JS.band flags 0xf000 = PharFile.compression_type f.
Proof.
  intros Hp Hct. cbv zeta.
  pose proof flags_word_checked as H. rewrite forallb_forall in H.
  specialize (H (Z.to_nat (PharFile.permission f))).
  rewrite Z2Nat.id in H by lia.
  specialize (H ltac:(apply in_seq; lia)).
  rewrite forallb_forall in H. specialize (H _ Hct). cbv zeta in H.
  apply andb_true_iff in H. destruct H as [H H4].
  apply andb_true_iff in H. destruct H as [H H3].
  apply andb_true_iff in H. destruct H as [H1 H2].
  apply Z.eqb_eq in H1, H2. apply Z.leb_le in H3. apply Z.ltb_lt in H4.
  fold (PharFile.getPharFlags f) in H1, H2, H3, H4.
  rewrite readLInt_writeLInt_mod, ToUint32_small by lia.
  repeat split; assumption.
Qed.

Lemma getPharFlags_split_witness :
  let f := PharFile.with_compression_type COMPRESSION_GZ scenario_file in
  let flags := Binary.readLInt (Binary.writeLInt (PharFile.getPharFlags f)) in
  flags = PharFile.getPharFlags f
  /\ JS.band flags 0xfff = 438
  /\ JS.band flags 0xf000 = COMPRESSION_GZ.
Proof.
  intros f.
  apply (getPharFlags_split f).
  - cbn. lia.
  - cbn. auto.
Defined.

(** ** An archive fresh from the constructor *)

Section FreshArchive.
Context {ext : Externals}.

Lemma setFiles_thrown (fs : list PharFile.t) (e : error) :
  fold_left (fun r f => let* this := r in Phar.addFile f this) fs (Throw e) = Throw e.
Proof. induction fs as [|f fs IH]; [reflexivity | exact IH]. Qed.

(** [setFiles] returns for no file at all. *)
Lemma setFiles_cases (fs : list PharFile.t) (this that : Phar.t) :
  Phar.setFiles fs this = Ok that ->
  fs = [] /\ that = Phar.with_files Phar.PlainObject this.
Proof.
  unfold Phar.setFiles. destruct fs as [|f fs].
  - intros E. injection E as <-. now split.
  - cbn [fold_left bind]. unfold Phar.addFile at 2, Phar.removeFile.
    cbn [Phar.files Phar.with_files Phar.push bind].
    rewrite setFiles_thrown. discriminate.
Qed.

Lemma Phar_new_steps (options : Phar.Options) (this : Phar.t) :
  Phar.new options = Ok this ->
  exists t1 t2,
    Phar.setStub (JS.orStr (Phar.opt_stub options) (lit "<?php " ++ STUB_END))
                 (Phar.with_alias (JS.orStr (Phar.opt_alias options) []) Phar.blank)
    = Ok t1
    /\ Phar.setSignatureType
         (JS.orNum (Phar.opt_signature_type options) SIGNATURE_SHA1) t1 = Ok t2
    /\ (Phar.opt_files options = None \/ Phar.opt_files options = Some [])
    /\ this
       = Phar.with_manifest_api (JS.orNum (Phar.opt_manifest_api options) 17)
           (Phar.with_flags (JS.orNum (Phar.opt_flags options) 0x10000)
              (Phar.with_files Phar.PlainObject
                 (Phar.with_metadata (JS.orStr (Phar.opt_metadata options) []) t2))).
Proof.
  unfold Phar.new.
  destruct (Phar.setStub _ _) as [t1 | e] eqn:E1; [|discriminate].
  cbn [bind].
  destruct (Phar.setSignatureType _ t1) as [t2 | e] eqn:E2; [|discriminate].
  cbn [bind].
  destruct (Phar.setFiles _ _) as [t3 | e] eqn:E3; [|discriminate].
  cbn [bind]. intros E. injection E as <-.
  apply setFiles_cases in E3. destruct E3 as [Hfs ->].
  exists t1, t2. split; [assumption || reflexivity|].
  split; [assumption || reflexivity|].
  split; [|reflexivity].
  destruct (Phar.opt_files options) as [l|]; [right; now subst | now left].
Qed.

Lemma savePharData_no_array (this : Phar.t) :
  Phar.files this = Phar.PlainObject -> Phar.savePharData this = Throw EmptyArchive.
Proof.
  intros H. unfold Phar.savePharData, Phar.writeArchive, Phar.getFilesCount.
  now rewrite H.
Qed.

End FreshArchive.

(** Whatever the options, an archive that [new Phar(options)] returns has
    no array of files: its [files] is the plain object of [setFiles], so the
    options held no file, [getFilesCount] is [undefined], [getFiles] and
    [addFile] raise [TypeError], and [savePharData] raises 'Phar must have
    at least one file!'. Its signature type is one of the four and its stub
    ends with the terminator. *)
Theorem Phar_new_has_no_files
        (ext : Externals) (options : Phar.Options) (this : Phar.t) :
  Phar.new options = Ok this ->
  Phar.files this = Phar.PlainObject
  /\ (Phar.opt_files options = None \/ Phar.opt_files options = Some [])
  /\ Phar.getFilesCount this = None
  /\ Phar.getFiles this = Throw (TypeError "this.files.slice")
  /\ (forall e, Phar.addFile e this = Throw (TypeError "this.files.push"))
  /\ Phar.savePharData this = Throw EmptyArchive
  /\ In (Phar.signature_type this)
        [SIGNATURE_MD5; SIGNATURE_SHA1; SIGNATURE_SHA256; SIGNATURE_SHA512]
  /\ exists pre, Phar.stub this = pre ++ STUB_END.
Proof.
  intros E.
  destruct (Phar_new_steps _ _ E) as (t1 & t2 & E1 & E2 & Hopt & ->).
  split; [reflexivity|]. split; [exact Hopt|].
  split; [reflexivity|]. split; [reflexivity|]. split; [reflexivity|].
  split; [now apply savePharData_no_array|].
  cbn [Phar.signature_type Phar.stub Phar.with_manifest_api Phar.with_flags
       Phar.with_files Phar.with_metadata].
  unfold Phar.setSignatureType in E2. unfold Phar.setStub in E1.
  destruct (_ =? -1); [discriminate|]. injection E1 as <-.
  split.
  - destruct (Z.eqb_spec (JS.orNum (Phar.opt_signature_type options) SIGNATURE_SHA1)
                SIGNATURE_MD5) as [H1 | _];
      [injection E2 as <-; cbn [Phar.signature_type Phar.with_signature_type In]; auto|].
    destruct (Z.eqb_spec (JS.orNum (Phar.opt_signature_type options) SIGNATURE_SHA1)
                SIGNATURE_SHA1) as [H2 | _];
      [injection E2 as <-; cbn [Phar.signature_type Phar.with_signature_type In]; auto|].
    destruct (Z.eqb_spec (JS.orNum (Phar.opt_signature_type options) SIGNATURE_SHA1)
                SIGNATURE_SHA256) as [H3 | _];
      [injection E2 as <-; cbn [Phar.signature_type Phar.with_signature_type In]; auto|].
    destruct (Z.eqb_spec (JS.orNum (Phar.opt_signature_type options) SIGNATURE_SHA1)
                SIGNATURE_SHA512) as [H4 | _];
      [injection E2 as <-; cbn [Phar.signature_type Phar.with_signature_type In]; auto 6|].
    discriminate E2.
  - unfold Phar.setSignatureType in E2.
    destruct (_ && _); [discriminate|]. injection E2 as <-.
    cbn [Phar.stub Phar.with_signature_type Phar.with_stub]. eexists. reflexivity.
Qed.

Lemma Phar_new_has_no_files_witness :
  exists this,
    Phar.new {| Phar.opt_alias := Some (lit "demo.phar");
                Phar.opt_stub := Some (lit "<?php echo 1; __halt_compiler();");
                Phar.opt_signature_type := Some SIGNATURE_SHA512;
                Phar.opt_metadata := None;
                Phar.opt_files := Some [];
                Phar.opt_flags := None;
                Phar.opt_manifest_api := None |} = Ok this
    /\ Phar.files this = Phar.PlainObject
    /\ Phar.savePharData (ext := standIn) this = Throw EmptyArchive.
Proof.
  destruct (Phar.new {| Phar.opt_alias := Some (lit "demo.phar");
                        Phar.opt_stub := Some (lit "<?php echo 1; __halt_compiler();");
                        Phar.opt_signature_type := Some SIGNATURE_SHA512;
                        Phar.opt_metadata := None;
                        Phar.opt_files := Some [];
                        Phar.opt_flags := None;
                        Phar.opt_manifest_api := None |}) as [this | e] eqn:E.
  - exists this. split; [reflexivity|].
    pose proof (Phar_new_has_no_files standIn _ this E) as H.
    split; [exact (proj1 H) | exact (proj1 (proj2 (proj2 (proj2 (proj2 (proj2 H))))))].
  - vm_compute in E. discriminate E.
Defined.

(** ** Removing and replacing files in an array *)

Section Holes.

Lemma deleteFirst_length (name : str) (slots : list (option PharFile.t)) :
  List.length (Phar.deleteFirst name slots) = List.length slots.
Proof.
  induction slots as [|[f|] rest IH]; cbn [Phar.deleteFirst List.length].
  - reflexivity.
  - destruct (str_eqb (PharFile.getName f) name); cbn [List.length]; now rewrite ?IH.
  - now rewrite IH.
Qed.

Lemma str_eqb_sym_false (a b c : str) :
  str_eqb a b = true -> c <> b -> str_eqb a c = false.
Proof.
  intros H Hc. apply str_eqb_eq in H. subst b.
  apply str_eqb_neq. congruence.
Qed.

Lemma find_deleteFirst_other (name other : str) (slots : list (option PharFile.t)) :
  other <> name ->
  find (fun f => str_eqb (PharFile.getName f) other)
       (Phar.forIn (Phar.ArrayOf (Phar.deleteFirst name slots)))
  = find (fun f => str_eqb (PharFile.getName f) other)
         (Phar.forIn (Phar.ArrayOf slots)).
Proof.
  intros Hne. induction slots as [|[f|] rest IH]; cbn [Phar.deleteFirst].
  - reflexivity.
  - destruct (str_eqb (PharFile.getName f) name) eqn:E.
    + rewrite forIn_cons_none, forIn_cons_some. cbn [find].
      now rewrite (str_eqb_sym_false _ _ _ E Hne).
    + rewrite !forIn_cons_some. cbn [find].
      destruct (str_eqb (PharFile.getName f) other); [reflexivity | exact IH].
  - rewrite !forIn_cons_none. exact IH.
Qed.

Lemma find_append {A : Type} (p : A -> bool) (a b : list A) :
  find p (a ++ b) = match find p a with Some x => Some x | None => find p b end.
Proof.
  induction a as [|x a IH]; [reflexivity|].
  cbn [app find]. destruct (p x); [reflexivity | exact IH].
Qed.

Lemma find_absent (name : str) (fs : list PharFile.t) :
  (forall f, In f fs -> PharFile.getName f <> name) ->
  find (fun f => str_eqb (PharFile.getName f) name) fs = None.
Proof.
  intros H. induction fs as [|g fs IH]; [reflexivity|].
  cbn [find]. rewrite str_eqb_neq by (apply H; now left).
  apply IH. intros f Hf. apply H. now right.
Qed.

(** Deleting a file that is there takes one file away from the files that
    [for-in] visits. *)
Lemma forIn_deleteFirst_length (name : str) (slots : list (option PharFile.t)) :
  find (fun f => str_eqb (PharFile.getName f) name) (Phar.forIn (Phar.ArrayOf slots))
  <> None ->
  S (List.length (Phar.forIn (Phar.ArrayOf (Phar.deleteFirst name slots))))
  = List.length (Phar.forIn (Phar.ArrayOf slots)).
Proof.
  induction slots as [|[f|] rest IH]; cbn [Phar.deleteFirst].
  - intros H. now elim H.
  - rewrite forIn_cons_some. cbn [find].
    destruct (str_eqb (PharFile.getName f) name) eqn:E.
    + intros _. rewrite forIn_cons_none. reflexivity.
    + intros H. rewrite forIn_cons_some. cbn [List.length]. now rewrite IH.
  - rewrite !forIn_cons_none. exact IH.
Qed.

End Holes.

(** [removeFile] deletes a slot and leaves a hole: the count of files
    ([length]) stays what it was, a lookup under another name gives what it
    gave before, and when names are unique a lookup under the removed name
    finds nothing. *)
Theorem removeFile_leaves_a_hole (this : Phar.t) (name other : str) :
  Phar.getFilesCount (Phar.removeFile name this) = Phar.getFilesCount this
  /\ (other <> name ->
      Phar.getFile other (Phar.removeFile name this) = Phar.getFile other this)
  /\ (NoDup (map PharFile.getName (Phar.forIn (Phar.files this))) ->
      Phar.getFile name (Phar.removeFile name this) = None).
Proof.
  unfold Phar.removeFile, Phar.getFilesCount, Phar.getFile.
  destruct (Phar.files this) as [|slots] eqn:F.
  - rewrite F. repeat split; reflexivity.
  - cbn [Phar.files Phar.with_files]. split; [|split].
    + now rewrite deleteFirst_length.
    + intros Hne. now apply find_deleteFirst_other.
    + intros Hnd. apply find_absent. now apply deleteFirst_clears.
Qed.

Lemma removeFile_leaves_a_hole_witness :
  Phar.getFilesCount (Phar.removeFile (lit "b") scenario_two_files) = Some 2
  /\ Phar.getFile (lit "a") (Phar.removeFile (lit "b") scenario_two_files)
     = Phar.getFile (lit "a") scenario_two_files
  /\ Phar.getFile (lit "b") (Phar.removeFile (lit "b") scenario_two_files) = None.
Proof.
  destruct (removeFile_leaves_a_hole scenario_two_files (lit "b") (lit "a"))
    as (H1 & H2 & H3).
  split; [exact H1|]. split.
  - apply H2. discriminate.
  - apply H3. cbn. repeat constructor; cbn; intuition discriminate.
Defined.

(** On an array of files [addFile] always adds a slot, also when it
    replaces a file of the same name: the count of files grows by one while
    the number of files that [for-in] visits stays the same, and lookups
    under other names give what they gave before. *)
Theorem addFile_counts_the_hole
        (this : Phar.t) (slots : list (option PharFile.t)) (e : PharFile.t)
        (other : str) :
  Phar.files this = Phar.ArrayOf slots ->
  exists this',
    Phar.addFile e this = Ok this'
    /\ Phar.getFilesCount this' = Some (Z.of_nat (List.length slots) + 1)
    /\ (other <> PharFile.getName e ->
        Phar.getFile other this' = Phar.getFile other this)
    /\ (Phar.getFile (PharFile.getName e) this <> None ->
        List.length (Phar.forIn (Phar.files this'))
        = List.length (Phar.forIn (Phar.files this))).
Proof.
  intros Hfiles.
  exists (Phar.with_files
            (Phar.ArrayOf (Phar.deleteFirst (PharFile.getName e) slots ++ [Some e]))
            (Phar.with_files
               (Phar.ArrayOf (Phar.deleteFirst (PharFile.getName e) slots)) this)).
  split; [|split; [|split]].
  - unfold Phar.addFile, Phar.removeFile. rewrite Hfiles. reflexivity.
  - unfold Phar.getFilesCount. cbn [Phar.files Phar.with_files].
    rewrite length_app, deleteFirst_length. cbn [List.length]. f_equal. lia.
  - intros Hne. unfold Phar.getFile. cbn [Phar.files Phar.with_files].
    rewrite Hfiles, forIn_app, find_append.
    rewrite find_deleteFirst_other by exact Hne.
    destruct (find _ (Phar.forIn (Phar.ArrayOf slots))); [reflexivity|].
    cbn. now rewrite str_eqb_neq by congruence.
  - unfold Phar.getFile. rewrite Hfiles. intros Hthere.
    cbn [Phar.files Phar.with_files]. rewrite forIn_app, length_app.
    rewrite <- (forIn_deleteFirst_length _ _ Hthere). cbn. lia.
Qed.

Lemma addFile_counts_the_hole_witness :
  let e := PharFile.with_contents (lit "new") scenario_file in
  exists this',
    Phar.addFile e scenario_S1 = Ok this'
    /\ Phar.getFilesCount this' = Some 2
    /\ List.length (Phar.forIn (Phar.files this')) = 1%nat.
Proof.
  intros e.
  destruct (addFile_counts_the_hole scenario_S1 [Some scenario_file] e (lit "x")
              eq_refl) as (this' & E & Hcount & _ & Hsame).
  exists this'. split; [exact E|]. split; [exact Hcount|].
  apply Hsame. discriminate.
Defined.

(** ** What [savePharData] writes for an array with holes *)

Section Layout.
Context {ext : Externals}.

(** The signed bytes of an archive whose files are an array: the count in
    the manifest is the length of the array, the records and the contents
    are those of the files that [for-in] visits. *)
Lemma writeArchive_layout (this : Phar.t) (slots : list (option PharFile.t))
      (b : BinaryBuffer.t) :
  Phar.files this = Phar.ArrayOf slots ->
  Phar.writeArchive this = Ok b ->
  exists cs,
    Forall2 (fun f c => PharFile.getCompressedContents f = Ok c)
            (Phar.forIn (Phar.ArrayOf slots)) cs
    /\ BinaryBuffer.buffer b
       = Phar.stub this
         ++ lenString (manifestHeader this (Z.of_nat (List.length slots))
                       ++ manifestRecords (Phar.forIn (Phar.ArrayOf slots)) cs)
         ++ List.concat cs.
Proof.
  intros Hfiles. unfold Phar.writeArchive, Phar.getFilesCount.
  rewrite Hfiles.
  destruct (Z.of_nat (List.length slots) =? 0); [discriminate|].
  destruct (fold_left _ (Phar.forIn (Phar.ArrayOf slots)) _) as [[mb' ac'] | e] eqn:E;
    [|discriminate].
  cbn [bind]. intros Hb. injection Hb as <-.
  destruct (saveFiles_written _ _ _ _ _ E) as (cs & Hcs & Hm & ->).
  exists cs. split; [exact Hcs|].
  cbn [BinaryBuffer.put BinaryBuffer.buffer].
  rewrite putString_buffer, Hm. rewrite !putString_buffer.
  cbn [BinaryBuffer.putLInt BinaryBuffer.putLShort BinaryBuffer.put
       BinaryBuffer.new BinaryBuffer.buffer JS.orStr app].
  unfold manifestHeader. now rewrite <- !app_assoc.
Qed.

(** [savePharData] returns a buffer when the array has a slot, every file
    compresses and the signature type is one of the four. *)
Lemma savePharData_succeeds_on_array (this : Phar.t)
      (slots : list (option PharFile.t)) :
  Phar.files this = Phar.ArrayOf slots ->
  slots <> [] ->
  Forall (fun f => exists c, PharFile.getCompressedContents f = Ok c)
         (Phar.forIn (Phar.ArrayOf slots)) ->
  In (Phar.signature_type this)
     [SIGNATURE_MD5; SIGNATURE_SHA1; SIGNATURE_SHA256; SIGNATURE_SHA512] ->
  exists out, Phar.savePharData this = Ok out.
Proof.
  intros Hfiles Hne Hcomp Hsig.
  assert (Hw : exists b, Phar.writeArchive this = Ok b).
  { unfold Phar.writeArchive, Phar.getFilesCount.
    rewrite Hfiles.
    destruct (Z.eqb_spec (Z.of_nat (List.length slots)) 0) as [Hz | _].
    - destruct slots; [now elim Hne | discriminate Hz].
    - cbv zeta.
      match goal with
      | |- context [fold_left ?f ?l (Ok (?mb, ?ac))] =>
          destruct (saveFiles_succeed l Hcomp mb ac) as (mb' & ac' & E);
          change (fold_left f l (Ok (mb, ac)))
            with (fold_left (fun acc file => let* a := acc in Phar.saveFile file a)
                            l (Ok (mb, ac : str)))
      end.
      rewrite E. cbn [bind]. eexists. reflexivity. }
  destruct Hw as [b Hw].
  assert (Hh : exists hasher,
             Phar.saveHasher (Phar.signature_type this) = Ok hasher).
  { cbn [In] in Hsig.
    destruct Hsig as [<- | [<- | [<- | [<- | []]]]]; eexists; reflexivity. }
  destruct Hh as [hasher Hh].
  unfold Phar.savePharData. rewrite Hw. cbn [bind]. rewrite Hh. cbn [bind].
  eexists. reflexivity.
Qed.

End Layout.

(** The layout of an encoded archive. Whenever [savePharData] returns a
    buffer for an archive whose files are an array, the buffer is the stub,
    the manifest with its 32-bit length in front, the compressed contents of
    the files in [for-in] order, the digest of all that, the signature type
    and the magic. The manifest starts with the length of the array, holes
    counted, and holds one record for each file that [for-in] visits, holes
    left out. *)
Theorem savePharData_layout
        (ext : Externals) (this : Phar.t) (slots : list (option PharFile.t))
        (out : str) :
  Phar.files this = Phar.ArrayOf slots ->
  Phar.savePharData this = Ok out ->
  exists (cs : list str) (hasher : str -> str),
    Forall2 (fun f c => PharFile.getCompressedContents f = Ok c)
            (Phar.forIn (Phar.files this)) cs
    /\ Phar.saveHasher (Phar.signature_type this) = Ok hasher
    /\ out
       = sign hasher (Phar.signature_type this)
           (Phar.stub this
            ++ lenString
                 (manifestHeader this (Z.of_nat (List.length slots))
                  ++ manifestRecords (Phar.forIn (Phar.files this)) cs)
            ++ List.concat cs).
Proof.
  intros Hfiles Hsave.
  destruct (savePharData_parts _ _ Hsave) as (b & hasher & Hw & Hh & ->).
  destruct (writeArchive_layout this slots b Hfiles Hw) as (cs & Hcs & Hb).
  exists cs, hasher. rewrite Hfiles.
  split; [exact Hcs|]. split; [exact Hh|]. now rewrite Hb.
Qed.

Lemma savePharData_layout_witness :
  let this := Phar.removeFile (lit "b") scenario_two_files in
  exists (out : str) (cs : list str) (hasher : str -> str),
    Phar.savePharData (ext := standIn) this = Ok out
    /\ Forall2 (fun f c => PharFile.getCompressedContents (ext := standIn) f = Ok c)
               (Phar.forIn (Phar.files this)) cs
    /\ Phar.saveHasher (ext := standIn) (Phar.signature_type this) = Ok hasher
    /\ out
       = sign hasher (Phar.signature_type this)
           (Phar.stub this
            ++ lenString
                 (manifestHeader this 2
                  ++ manifestRecords (Phar.forIn (Phar.files this)) cs)
            ++ List.concat cs).
Proof.
  intros this.
  destruct (Phar.savePharData (ext := standIn) this) as [out | e] eqn:E.
  - destruct (savePharData_layout standIn this
                (Phar.deleteFirst (lit "b") (map Some two_files)) out eq_refl E)
      as (cs & hasher & H).
    exists out, cs, hasher. split; [reflexivity | exact H].
  - vm_compute in E. discriminate E.
Defined.

(** ** An archive with a hole does not load *)

Section Unloadable.
Context {ext : Externals}.

Lemma times_add {S : Type} (a b : nat) (body : M S unit) (s : S) :
  Phar.times (a + b) body s
  = match Phar.times a body s with
    | (Ok _, s') => Phar.times b body s'
    | (Throw e, s') => (Throw e, s')
    end.
Proof.
  revert s. induction a as [|a IH]; intros s; [reflexivity|].
  cbn [Nat.add Phar.times]. unfold mbind.
  destruct (body s) as [[u | e] s1]; [apply IH | reflexivity].
Qed.

(** A round of the loop on a manifest that has nothing left. *)
Lemma loadFile_exhausted (s : Phar.Load) :
  reads (Phar.manifest_buffer s) [] ->
  fst (Phar.loadFile s) = Throw OutOfBounds.
Proof.
  intros R. destruct (reads_offset _ _ R) as [Ho _].
  change (len []) with 0 in Ho.
  unfold Phar.loadFile. unfold mbind at 1. unfold Phar.onManifest at 1.
  unfold BinaryBuffer.getString, mbind.
  now rewrite getLInt_beyond by lia.
Qed.

(** The statements of [loadPharData] before its loop, on the signed bytes
    of an archive whose header is in range: they leave the contents and the
    records to be read and the receiver with an empty array. *)
Lemma readArchive_header (this that : Phar.t) (fs : list PharFile.t)
      (cs : list str) (realm : Realm) (count : Z)
      (P : result unit * Phar.Load -> Prop) :
  0 <= count < 2 ^ 32 ->
  stubInRange (Phar.stub this) ->
  0 <= Phar.manifest_api this < 2 ^ 16 ->
  0 <= Phar.flags this < 2 ^ 32 ->
  len (Phar.alias this) < 2 ^ 32 ->
  len (Phar.metadata this) < 2 ^ 32 ->
  manifestSize this fs < 2 ^ 32 ->
  List.length fs = List.length cs ->
  (forall s this',
      Phar.files this' = Phar.ArrayOf [] ->
      loadsAt s realm this' (List.concat cs) (manifestRecords fs cs) ->
      P (Phar.times (Z.to_nat count) Phar.loadFile s)) ->
  P (Phar.readArchive
       (Phar.stub this
        ++ lenString (manifestHeader this count ++ manifestRecords fs cs)
        ++ List.concat cs)
       {| Phar.scope := realm; Phar.receiver := that;
          Phar.buffer := BinaryBuffer.new None;
          Phar.manifest_buffer := BinaryBuffer.new None |}).
Proof.
  intros Hcount Hstub Hapi Hflags Hal Hmd Hsize Hl HP.
  pose proof (manifest_length this fs cs count Hl) as Hman.
  set (manifest := manifestHeader this count ++ manifestRecords fs cs) in *.
  set (start := {| Phar.scope := realm; Phar.receiver := that;
                   Phar.buffer := BinaryBuffer.new None;
                   Phar.manifest_buffer := BinaryBuffer.new None |}).
  assert (I0 : loadsAt start realm that [] []).
  { repeat split; exists []; split; reflexivity. }
  destruct (indexOf_stub (Phar.stub this) (lenString manifest ++ List.concat cs) Hstub)
    as [Eidx Hpos].
  unfold Phar.readArchive. cbv zeta. rewrite Eidx.
  destruct (Z.eqb_spec (len (Phar.stub this) - len STUB_END) (-1)) as [Hneg | _];
    [lia|].
  replace (len (Phar.stub this) - len STUB_END + len STUB_END)
    with (len (Phar.stub this)) by lia.
  ran (onBuffer_reset
         (Phar.stub this ++ lenString manifest ++ List.concat cs) _ _ _ _ _ I0) s1 I1.
  ran (onBuffer_step (BinaryBuffer.get (len (Phar.stub this))) (Phar.stub this)
         _ _ _ _ _ _ (fun b => get_reads b _ _) I1) s2 I2.
  ran (assign_step (Phar.with_stub (Phar.stub this)) _ _ _ _ _ I2) s3 I3.
  ran (onBuffer_step BinaryBuffer.getString manifest _ _ _ _ _ _
         (fun b => getString_reads b _ _ ltac:(rewrite Hman; exact Hsize)) I3) s4 I4.
  ran (onManifest_reset manifest _ _ _ _ _ I4) s5 I5.
  unfold manifest, manifestHeader in I5.
  rewrite <- (app_nil_r (manifestRecords fs cs)) in I5.
  rewrite <- !app_assoc in I5.
  ran (onManifest_step BinaryBuffer.getLInt count _ _ _ _ _ _
         (fun b => getLInt_reads_small b _ _ Hcount) I5) s6 I6.
  ran (onManifest_step BinaryBuffer.getLShort (Phar.manifest_api this) _ _ _ _ _ _
         (fun b => getLShort_reads b _ _ Hapi) I6) s7 I7.
  ran (assign_step (Phar.with_manifest_api (Phar.manifest_api this)) _ _ _ _ _ I7)
      s8 I8.
  ran (onManifest_step BinaryBuffer.getLInt (Phar.flags this) _ _ _ _ _ _
         (fun b => getLInt_reads_small b _ _ Hflags) I8) s9 I9.
  ran (assign_step (Phar.with_flags (Phar.flags this)) _ _ _ _ _ I9) s10 I10.
  ran (onManifest_step BinaryBuffer.getString (Phar.alias this) _ _ _ _ _ _
         (fun b => getString_reads b _ _ Hal) I10) s11 I11.
  ran (assign_step (Phar.with_alias (Phar.alias this)) _ _ _ _ _ I11) s12 I12.
  ran (onManifest_step BinaryBuffer.getString (Phar.metadata this) _ _ _ _ _ _
         (fun b => getString_reads b _ _ Hmd) I12) s13 I13.
  ran (assign_step (Phar.with_metadata (Phar.metadata this)) _ _ _ _ _ I13) s14 I14.
  ran (assign_step (Phar.with_files (Phar.ArrayOf [])) _ _ _ _ _ I14) s15 I15.
  rewrite app_nil_r in I15.
  refine (HP s15 _ _ I15). reflexivity.
Qed.

(** The loop, asked for more rounds than the manifest has records, reads
    the records there are and then runs off the end of the manifest. *)
Lemma loadFiles_run_out (realm : Realm) (fs : list PharFile.t) (cs : list str)
      (this : Phar.t) (s : Phar.Load) (n : nat) :
  zlibContract ext -> bindsGlobals realm ->
  Forall entryInRange fs ->
  Forall2 (fun f c => PharFile.getCompressedContents f = Ok c) fs cs ->
  Forall (fun c => len c < 2 ^ 32) cs ->
  NoDup (map PharFile.name fs) ->
  Phar.files this = Phar.ArrayOf [] ->
  loadsAt s realm this (List.concat cs) (manifestRecords fs cs) ->
  (List.length fs < n)%nat ->
  fst (Phar.times n Phar.loadFile s) = Throw OutOfBounds.
Proof.
  intros Hz Hrealm Hin Hcs Hlen Hnd Hfiles I0 Hn.
  replace n with (List.length fs + S (n - S (List.length fs)))%nat by lia.
  rewrite times_add.
  rewrite <- (app_nil_r (List.concat cs)), <- (app_nil_r (manifestRecords fs cs)) in I0.
  destruct (loadFiles_decode realm Hz Hrealm fs cs [] this [] [] s Hin Hcs Hlen
              Hnd Hfiles I0) as (s1 & E1 & (_ & _ & _ & Hm)).
  rewrite E1. cbn [Phar.times]. unfold mbind.
  pose proof (loadFile_exhausted s1 Hm) as Hx.
  destruct (Phar.loadFile s1) as [[u | e] s2]; cbn [fst] in Hx |- *;
    [discriminate Hx | exact Hx].
Qed.

End Unloadable.

(** An archive with a hole saves to a buffer that does not load. Take an
    archive whose files are an array with at least one deleted slot, with
    everything else in range: unique non-empty names, timestamps and
    permissions not 0, supported compression, a stub holding the terminator
    once at its end, a signature type among the four, every field within its
    width, every file compressing. On a page that binds [time] and [perm],
    [savePharData] returns a buffer, and [loadPharData] of that buffer fails
    with 'Buffer is accessed out of bounds!': the manifest announces the
    length of the array and holds fewer records. *)
Theorem savePharData_with_hole_does_not_load
        (ext : Externals) (this that : Phar.t) (slots : list (option PharFile.t))
        (realm : Realm) :
  digestLengths ext -> zlibContract ext -> bindsGlobals realm ->
  Phar.files this = Phar.ArrayOf slots ->
  In None slots ->
  Z.of_nat (List.length slots) < 2 ^ 32 ->
  archiveInRange (Phar.with_files (Phar.ArrayOf (map Some (Phar.forIn (Phar.files this))))
                                  this)
                 (Phar.forIn (Phar.files this)) ->
  payloadsInRange (Phar.forIn (Phar.files this)) ->
  Forall (fun f => exists c, PharFile.getCompressedContents f = Ok c)
         (Phar.forIn (Phar.files this)) ->
  In (Phar.signature_type this)
     [SIGNATURE_MD5; SIGNATURE_SHA1; SIGNATURE_SHA256; SIGNATURE_SHA512] ->
  exists out,
    Phar.savePharData this = Ok out
    /\ fst (Phar.loadPharData out that realm) = Throw OutOfBounds.
Proof.
  intros Hlen Hz Hrealm Hfiles Hhole Hslots Hrange Hpay Hcomp Hsig.
  rewrite Hfiles in Hrange, Hpay, Hcomp.
  set (fs := Phar.forIn (Phar.ArrayOf slots)) in *.
  destruct Hrange as (_ & Hnd & Hin & _ & Hstub & Hapi & Hflags & Hal & Hmd & Hsize).
  cbn [Phar.stub Phar.manifest_api Phar.flags Phar.alias Phar.metadata
       Phar.with_files] in Hstub, Hapi, Hflags, Hal, Hmd.
  assert (Hne : slots <> []) by (intros ->; destruct Hhole).
  destruct (savePharData_succeeds_on_array this slots Hfiles Hne Hcomp Hsig)
    as [out Hsave].
  exists out. split; [exact Hsave|].
  destruct (savePharData_parts _ _ Hsave) as (b & hasher & Hw & Hh & ->).
  destruct (writeArchive_layout this slots b Hfiles Hw) as (cs & Hcs & Hb).
  fold fs in Hcs, Hb.
  destruct (saveHasher_loadHasher _ _ Hh) as [hash_len Hl].
  rewrite (loadPharData_signed _ _ hash_len hasher) by assumption.
  cbv zeta. rewrite Hb.
  apply (readArchive_header this that fs cs realm (Z.of_nat (List.length slots))
           (fun x => fst (let (r, s) := x in
                          (match r with
                           | Ok _ => Ok (Phar.receiver s)
                           | Throw e => Throw e
                           end, Phar.scope s)) = Throw OutOfBounds)).
  - lia.
  - exact Hstub.
  - exact Hapi.
  - exact Hflags.
  - exact Hal.
  - exact Hmd.
  - exact Hsize.
  - exact (Forall2_length Hcs).
  - intros s this' Hempty I.
    assert (Hshort : (List.length fs < List.length slots)%nat).
    { unfold fs. clear - Hhole. induction slots as [|[f|] rest IH].
      - destruct Hhole.
      - rewrite forIn_cons_some. cbn [List.length].
        destruct Hhole as [Hx | Hx]; [discriminate Hx|]. specialize (IH Hx). lia.
      - rewrite forIn_cons_none. cbn [List.length].
        assert (List.length (Phar.forIn (Phar.ArrayOf rest)) <= List.length rest)%nat.
        { clear. induction rest as [|[g|] r IHr]; cbn [List.length];
            rewrite ?forIn_cons_some, ?forIn_cons_none; cbn [List.length]; try lia.
          cbn. lia. }
        lia. }
    pose proof (loadFiles_run_out realm fs cs this' s (List.length slots) Hz Hrealm
                  Hin Hcs (compressed_in_range fs cs Hpay Hcs) Hnd Hempty I
                  Hshort) as Hout.
    rewrite Nat2Z.id.
    destruct (Phar.times (List.length slots) Phar.loadFile s) as [[u | e] s'];
      cbn [fst] in Hout |- *; [discriminate Hout | now injection Hout as ->].
Qed.

Lemma removed_in_range :
  let this := Phar.removeFile (lit "b") scenario_two_files in
  archiveInRange
    (Phar.with_files (Phar.ArrayOf (map Some (Phar.forIn (Phar.files this)))) this)
    (Phar.forIn (Phar.files this)).
Proof.
  intros this.
  split; [reflexivity|].
  split; [repeat constructor; cbn; intuition discriminate|].
  split.
  { constructor; [|constructor].
    repeat split; try discriminate; cbn; lia. }
  split; [cbn; lia|].
  split; [exact (proj1 (proj2 (proj2 (proj2 (proj2 scenario_two_files_in_range)))))|].
  repeat split; cbn; lia.
Qed.

(** The theorem on the archive of two files after [removeFile('b')]. *)
Lemma savePharData_with_hole_does_not_load_witness :
  exists out,
    Phar.savePharData (ext := standIn) (Phar.removeFile (lit "b") scenario_two_files)
    = Ok out
    /\ fst (Phar.loadPharData (ext := standIn) out Phar.blank (boundRealm 0))
       = Throw OutOfBounds.
Proof.
  apply (savePharData_with_hole_does_not_load standIn
           (Phar.removeFile (lit "b") scenario_two_files) Phar.blank
           (Phar.deleteFirst (lit "b") (map Some two_files)) (boundRealm 0)
           standIn_digestLengths standIn_zlibContract (boundRealm_bindsGlobals 0)
           eq_refl).
  - cbn. auto.
  - cbn. lia.
  - exact removed_in_range.
  - intros f c [<- | []] E; vm_compute in E; injection E as <-; cbn; lia.
  - repeat constructor; eexists; reflexivity.
  - cbn. auto.
Defined.

(** ** What the decoder can end with *)

Section Decoder.
Context {ext : Externals}.

Lemma decoding_mbind {A B : Type} (I : Realm -> Phar.t -> Prop) (E : error -> Prop)
      (Q1 : A -> Realm -> Phar.t -> Prop) (Q2 : B -> Realm -> Phar.t -> Prop)
      (m : M Phar.Load A) (k : A -> M Phar.Load B) :
  decoding I E Q1 m -> (forall a, decoding (Q1 a) E Q2 (k a)) ->
  decoding I E Q2 (mbind m k).
Proof.
  intros Hm Hk s Hs. unfold mbind. specialize (Hm s Hs).
  destruct (m s) as [[a | e] s1]; [exact (Hk a s1 Hm) | exact Hm].
Qed.


Lemma decoding_throw {A : Type} (I : Realm -> Phar.t -> Prop) (E : error -> Prop)
      (Q : A -> Realm -> Phar.t -> Prop) (e : error) :
  E e -> decoding I E Q (throw e).
Proof. intros He s _. exact He. Qed.

Lemma decoding_false {A : Type} (E : error -> Prop)
      (Q : A -> Realm -> Phar.t -> Prop) (m : M Phar.Load A) :
  decoding (fun _ _ => False) E Q m.
Proof. intros s H. elim H. Qed.

Lemma decoding_onManifest {A : Type} (I : Realm -> Phar.t -> Prop)
      (E : error -> Prop) (m : M BinaryBuffer.t A) :
  onlyOutOfBounds m -> E OutOfBounds ->
  decoding I E (fun _ => I) (Phar.onManifest m).
Proof.
  intros Hm He s Hs. unfold Phar.onManifest.
  destruct (m (Phar.manifest_buffer s)) as [[a | e] b'] eqn:Eq.
  - exact Hs.
  - now rewrite (Hm _ _ _ Eq).
Qed.

Lemma decoding_onBuffer {A : Type} (I : Realm -> Phar.t -> Prop)
      (E : error -> Prop) (m : M BinaryBuffer.t A) :
  onlyOutOfBounds m -> E OutOfBounds ->
  decoding I E (fun _ => I) (Phar.onBuffer m).
Proof.
  intros Hm He s Hs. unfold Phar.onBuffer.
  destruct (m (Phar.buffer s)) as [[a | e] b'] eqn:Eq.
  - exact Hs.
  - now rewrite (Hm _ _ _ Eq).
Qed.

Lemma decoding_onRealm {A : Type} (I : Realm -> Phar.t -> Prop) (E : error -> Prop)
      (Q : A -> Realm -> Phar.t -> Prop) (m : M Realm A) :
  (forall r t, I r t ->
     match m r with (Ok a, r') => Q a r' t | (Throw e, _) => E e end) ->
  decoding I E Q (Phar.onRealm m).
Proof.
  intros Hm s Hs. unfold Phar.onRealm. specialize (Hm _ _ Hs).
  destruct (m (Phar.scope s)) as [[a | e] r']; exact Hm.
Qed.

Lemma decoding_onThis (I : Realm -> Phar.t -> Prop) (E : error -> Prop)
      (Q : unit -> Realm -> Phar.t -> Prop) (f : Phar.t -> result Phar.t) :
  (forall r t, I r t -> match f t with Ok t' => Q tt r t' | Throw e => E e end) ->
  decoding I E Q (Phar.onThis f).
Proof.
  intros Hf s Hs. unfold Phar.onThis. specialize (Hf _ _ Hs).
  destruct (f (Phar.receiver s)) as [t' | e]; exact Hf.
Qed.

Lemma decoding_assign (I : Realm -> Phar.t -> Prop) (E : error -> Prop)
      (Q : unit -> Realm -> Phar.t -> Prop) (f : Phar.t -> Phar.t) :
  (forall r t, I r t -> Q tt r (f t)) -> decoding I E Q (Phar.assign f).
Proof. intros Hf. apply decoding_onThis. exact Hf. Qed.

Lemma decoding_assign_keep (I : Realm -> Phar.t -> Prop) (E : error -> Prop)
      (f : Phar.t -> Phar.t) :
  (forall r t, I r t -> I r (f t)) -> decoding I E (fun _ => I) (Phar.assign f).
Proof. intros Hf. apply decoding_assign. exact Hf. Qed.


(** A loop whose body never returns goes through only when it has no round
    to make. *)
Lemma decoding_times_never (I : Realm -> Phar.t -> Prop) (E : error -> Prop)
      (n : nat) (body : M Phar.Load unit) :
  decoding I E (fun _ _ _ => False) body ->
  decoding I E (fun _ r t => I r t /\ n = O) (Phar.times n body).
Proof.
  intros Hb. destruct n as [|n]; cbn [Phar.times].
  - intros s Hs. cbn. now split.
  - eapply decoding_mbind; [exact Hb | intros u; apply decoding_false].
Qed.

(** The errors of the cursor. *)
Lemma get_oob (n : Z) : onlyOutOfBounds (BinaryBuffer.get n).
Proof.
  intros b e b'. unfold BinaryBuffer.get.
  repeat match goal with
         | |- context [if ?c then _ else _] => destruct c
         end; intros H; now inversion H.
Qed.

Lemma getLInt_oob : onlyOutOfBounds BinaryBuffer.getLInt.
Proof.
  intros b e b'. unfold BinaryBuffer.getLInt, mbind, ret.
  destruct (BinaryBuffer.get 4 b) as [[x | e0] b0] eqn:E0; intros H; inversion H.
  subst. exact (get_oob _ _ _ _ E0).
Qed.

Lemma getLShort_oob : onlyOutOfBounds BinaryBuffer.getLShort.
Proof.
  intros b e b'. unfold BinaryBuffer.getLShort, mbind, ret.
  destruct (BinaryBuffer.get 2 b) as [[x | e0] b0] eqn:E0; intros H; inversion H.
  subst. exact (get_oob _ _ _ _ E0).
Qed.

Lemma getString_oob : onlyOutOfBounds BinaryBuffer.getString.
Proof.
  intros b e b'. unfold BinaryBuffer.getString, mbind.
  destruct (BinaryBuffer.getLInt b) as [[n | e0] b0] eqn:E0.
  - apply get_oob.
  - intros H. inversion H. subst. exact (getLInt_oob _ _ _ E0).
Qed.

Lemma skip_oob (n : Z) : onlyOutOfBounds (BinaryBuffer.skip n).
Proof. intros b e b' H. discriminate H. Qed.

Lemma modify_oob (f : BinaryBuffer.t -> BinaryBuffer.t) : onlyOutOfBounds (modify f).
Proof. intros b e b' H. discriminate H. Qed.





(** A round of the loop on a page that lacks [time] or [perm] never
    returns. *)
Lemma loadFile_never (realm : Realm) (I : Phar.t -> Prop) :
  lacksGlobal realm ->
  decoding (fun r t => r = realm /\ I t) (fun _ => True) (fun _ _ _ => False)
           Phar.loadFile.
Proof.
  intros Hlack. unfold Phar.loadFile.
  do 7 (eapply decoding_mbind;
        [apply decoding_onManifest;
         [first [apply getString_oob | apply getLInt_oob | apply skip_oob]
         | exact Logic.I]
        | intros ?]).
  eapply decoding_mbind;
    [apply decoding_onBuffer; [apply get_oob | exact Logic.I] | intros ?].
  eapply decoding_mbind.
  - apply decoding_onRealm with (Q := fun _ _ _ => False).
    intros r t [-> _].
    destruct (PharFile.new _ _ _ realm) as [[file | e] r'] eqn:E; [|exact Logic.I].
    destruct (PharFile_new_steps _ _ _ _ _ _ E)
      as (f1 & f2 & f3 & f4 & r3 & _ & _ & E3 & E4 & _).
    destruct (setTimestamp_keeps _ _ _ _ _ E3) as ([g Hg] & Hsame & _).
    destruct (setPermission_keeps _ _ _ _ _ E4) as ([q Hq] & _).
    rewrite Hsame in Hq. destruct Hlack as [H | H]; congruence.
  - intros file. apply decoding_false.
Qed.

Lemma readArchive_never (realm : Realm) (signed : str) :
  lacksGlobal realm ->
  decoding (fun r _ => r = realm) (fun _ => True)
           (fun _ r t => r = realm /\ Phar.files t = Phar.ArrayOf [])
           (Phar.readArchive signed).
Proof.
  intros Hlack. unfold Phar.readArchive. cbv zeta.
  destruct (_ =? -1); [now apply decoding_throw|].
  do 14 (eapply decoding_mbind;
         [first [ apply decoding_onManifest;
                  [first [apply getString_oob | apply getLInt_oob
                          | apply getLShort_oob | apply modify_oob]
                  | exact Logic.I]
                | apply decoding_onBuffer;
                  [first [apply getString_oob | apply get_oob | apply modify_oob]
                  | exact Logic.I]
                | apply decoding_assign_keep; trivial ]
         | intros ?]).
  eapply decoding_mbind
    with (Q1 := fun _ r t => r = realm /\ Phar.files t = Phar.ArrayOf []).
  - apply decoding_assign. intros r t ->. split; reflexivity.
  - intros ? s Hs.
    match goal with
    | |- context [Phar.times ?n _ s] =>
        pose proof (decoding_times_never
                      (fun r t => r = realm /\ Phar.files t = Phar.ArrayOf [])
                      (fun _ => True) n Phar.loadFile
                      (loadFile_never realm _ Hlack) s Hs) as H
    end.
    destruct (Phar.times _ _ s) as [[x | e] s']; [exact (proj1 H) | exact Logic.I].
Qed.

End Decoder.


(** On a page that lacks the global [time] or the global [perm],
    [loadPharData] returns for no buffer that holds a file: whenever it
    returns, the archive it returns has an empty array of files, and the
    page is as it was. *)
Theorem loadPharData_needs_globals
        (ext : Externals) (buffer : str) (that this : Phar.t) (realm realm' : Realm) :
  lacksGlobal realm ->
  Phar.loadPharData buffer that realm = (Ok this, realm') ->
  Phar.files this = Phar.ArrayOf [] /\ realm' = realm.
Proof.
  intros Hlack. unfold Phar.loadPharData.
  destruct (Phar.verifySignature buffer) as [signed | e]; [|discriminate].
  pose proof (readArchive_never realm signed Hlack
                {| Phar.scope := realm; Phar.receiver := that;
                   Phar.buffer := BinaryBuffer.new None;
                   Phar.manifest_buffer := BinaryBuffer.new None |} eq_refl) as H.
  destruct (Phar.readArchive signed _) as [[u | e] s]; [|discriminate].
  intros E. injection E as <- <-. destruct H as [Hr Hf]. now split.
Qed.

(** A signed buffer whose manifest announces no file, decoded on a page
    that declares nothing. *)
Lemma loadPharData_needs_globals_witness :
  let buffer :=
    signSHA1 (ext := standIn)
      (lit "<?php " ++ STUB_END ++ lenString (manifestHeader scenario_S1 0)) in
  exists this,
    Phar.loadPharData (ext := standIn) buffer Phar.blank (pageRealm 0)
    = (Ok this, pageRealm 0)
    /\ Phar.files this = Phar.ArrayOf [].
Proof.
  intros buffer.
  destruct (Phar.loadPharData (ext := standIn) buffer Phar.blank (pageRealm 0))
    as [[this | e] realm'] eqn:E.
  - destruct (loadPharData_needs_globals standIn buffer Phar.blank this
                (pageRealm 0) realm' (or_introl eq_refl) E) as [Hf ->].
    exists this. split; [reflexivity | exact Hf].
  - vm_compute in E. discriminate E.
Defined.

(** ** The zip converter *)

Section Converter.
Context {ext : Externals}.

Lemma new_Phar_is_plain :
  exists phar, Phar.new Phar.noOptions = Ok phar /\ Phar.files phar = Phar.PlainObject.
Proof. eexists. split; [vm_compute; reflexivity | reflexivity]. Qed.

End Converter.

(** [toPhar] converts no zip that lists a file. For a zip that lists no
    name it returns the archive of [new Phar()], whose [files] is a plain
    object; for every other zip, on every page, it throws 'Zlib.Unzip
    decompression error': [decompress] throws, or the [PharFile] constructor
    does, or [addFile] raises [TypeError] on the plain object, and the
    [catch] block wraps whichever it was. *)
Theorem toPhar_converts_no_file
        (ext : Externals) (zip : PharZipConverter.Unzip) (realm : Realm) :
  (PharZipConverter.getFilenames zip = [] ->
   exists phar,
     PharZipConverter.toPhar zip realm = (PharZipConverter.Converted phar, realm)
     /\ Phar.files phar = Phar.PlainObject)
  /\ (PharZipConverter.getFilenames zip <> [] ->
      exists cause realm',
        PharZipConverter.toPhar zip realm
        = (PharZipConverter.UnzipDecompressionError cause, realm')).
Proof.
  destruct new_Phar_is_plain as (phar & Hnew & Hplain).
  unfold PharZipConverter.toPhar. rewrite Hnew.
  split.
  - intros ->. exists phar. split; [reflexivity | exact Hplain].
  - intros Hne. destruct (PharZipConverter.getFilenames zip) as [|name rest];
      [now elim Hne|].
    cbn [PharZipConverter.addFiles].
    destruct (PharZipConverter.decompress zip name) as [u8a|]; [|eauto].
    destruct (PharFile.new _ _ _ realm) as [[file | e] r']; [|eauto].
    unfold Phar.addFile, Phar.removeFile. rewrite Hplain.
    cbn [Phar.files Phar.with_files Phar.push bind]. rewrite Hplain.
    cbn [Phar.push bind]. eauto.
Qed.

Lemma toPhar_converts_no_file_witness :
  (exists phar,
     PharZipConverter.toPhar (ext := standIn)
       {| PharZipConverter.getFilenames := [];
          PharZipConverter.decompress := fun _ => None |} (boundRealm 0)
     = (PharZipConverter.Converted phar, boundRealm 0)
     /\ Phar.files phar = Phar.PlainObject)
  /\ exists cause realm',
       PharZipConverter.toPhar (ext := standIn)
         {| PharZipConverter.getFilenames := [lit "a.txt"];
            PharZipConverter.decompress := fun _ => Some [104; 105] |} (boundRealm 0)
       = (PharZipConverter.UnzipDecompressionError cause, realm').
Proof.
  split.
  - apply (proj1 (toPhar_converts_no_file standIn
                    {| PharZipConverter.getFilenames := [];
                       PharZipConverter.decompress := fun _ => None |} (boundRealm 0))).
    reflexivity.
  - apply (proj2 (toPhar_converts_no_file standIn
                    {| PharZipConverter.getFilenames := [lit "a.txt"];
                       PharZipConverter.decompress := fun _ => Some [104; 105] |}
                    (boundRealm 0))).
    discriminate.
Defined.
